(** * Realtime entity synchronization client of the mycelial dashboard

    A shallow embedding of the two React hooks that keep the local mirror
    of the server-side collections, and of the views computed from that
    mirror:

    - [dashboard/src/hooks/useP2P.ts]          (peers and chat, the peer graph),
    - [dashboard/src/hooks/useOrchestrator.ts] (workloads, nodes, metrics),
    - [dashboard/src/components/PeerGraph.tsx] and
      [dashboard/src/components/ReputationCard.tsx] (colour and tier of a
      reputation),
    - the node inspector (its counters and its filter).

    Conventions of the embedding.

    - A JavaScript [Map<string, T>] is a [gmap string T]; [new Map(m)] is
      the map itself (values are immutable here), [new Map()] is [∅].
    - The mutable refs of a hook ([wsRef], [reconnectTimerRef],
      [reconnectAttemptsRef], [isConnectingRef]), its React state and the
      part of the browser it talks to (sockets, timers, clock, console)
      are threaded explicitly through every function as one [World].
      [setState(updater)] applies the updater at once.
    - An [async] function is a process of type [Proc]: a sequence of
      effects on the world that suspends at [await fetch(...)].  The
      response body is handed over already read ([await response.json()]
      follows [await fetch] with no statement that touches the hook in
      between), a body that is not JSON being [None].
    - Payloads typed [any] in the source are records of the fields the
      source reads, each optional; identifiers and names are strings.
      A string is the sequence of its UTF-16 code units, one character
      of a Rocq string for each, so that [slice] and [length] count as
      JavaScript does; this covers the strings whose code units are
      below 256, ASCII strings among them.
    - Numbers that the code only passes on (reputation, progress) are
      rationals, and the decimal literals they are compared with are the
      rationals they denote; delays and clock readings are integers
      (milliseconds).
    - A JavaScript [Map] is iterated in insertion order, which a [gmap]
      does not record: a view that iterates over a store is given its
      entries as a list, in some order.

    The embedding comes first, then the vocabulary in which the
    properties are stated (with the concrete worlds they are tried on),
    then the properties with their proofs. *)

From stdpp Require Import base strings gmap list pretty.
From Stdlib Require Import QArith ZArith Lia Lqa.

Set Default Proof Using "Type".
Local Open Scope Z_scope.
Local Open Scope string_scope.

(** ** JavaScript idioms used by the hooks *)

Module Js.

(** Truthiness of a possibly absent string: [undefined], [null] and ['']
    are falsy. *)
Definition truthy (v : option string) : bool :=
  match v with
  | Some s => negb (String.eqb s "")
  | None => false
  end.

(** [a || b] on possibly absent strings. *)
Definition or_str (a b : option string) : option string :=
  if truthy a then a else b.

(** [a || b] on possibly absent objects or arrays (always truthy when
    present). *)
Definition or_obj {A} (a b : option A) : option A :=
  match a with
  | Some _ => a
  | None => b
  end.

(** [s.slice(0, n)], counting the characters of the string. *)
Definition slice0 (n : nat) (s : string) : string := String.substring 0 n s.

(** [l.slice(-n)]: the last [n] elements. *)
Definition slice_last {A} (n : nat) (l : list A) : list A :=
  drop (length l - n) l.

(** [Math.pow(2, e)] for an integer exponent [e >= 0]. *)
Definition pow2 (e : Z) : Z := 2 ^ e.

End Js.

(** ** The browser as seen by a hook *)

Module Browser.

Inductive ReadyState := CONNECTING | OPEN | CLOSING | CLOSED.

#[global] Instance ReadyState_eq_dec : EqDecision ReadyState.
Proof. solve_decision. Defined.

(** Frames the hooks write to a socket ([JSON.stringify] of these
    objects). *)
Inductive OutFrame :=
| subscribe (topic : string)
| send_chat (content : string) (to : option string)
| workload_command (command workloadId : string).

(** What passes between a hook and the outside, in order: what the hook
    does, and the timeouts whose callback the browser runs. *)
Inductive Effect :=
| NewWebSocket (url : string) (h : nat)
| NewWebSocketFailed (url : string)
| WsSend (h : nat) (frame : OutFrame)
| WsClose (h : nat) (code : Z)
| SetTimeout (t : positive) (delay : Z)
| ClearTimeout (t : positive)
| TimeoutFired (t : positive)
| Fetch (method url : string)
| ConsoleWarn (msg : string)
| ConsoleError (msg : string).

(** Sockets created so far with their [readyState], pending timeouts
    with the time at which they are due, the clock, and the trace of
    effects (oldest first).  Every pending timeout of a hook has
    [connect] as its callback.  [valid_url] tells which urls the
    [WebSocket] constructor accepts (it throws on the others). *)
Record Env := mkEnv {
  valid_url : string -> bool;
  sockets : gmap nat ReadyState;
  next_socket : nat;
  timers : list (positive * Z);
  next_timer : positive;
  clock : Z;
  trace : list Effect;
}.

Definition init (valid : string -> bool) : Env :=
  {| valid_url := valid; sockets := ∅; next_socket := 0%nat; timers := [];
     next_timer := 1%positive; clock := 0; trace := [] |}.

Definition emit (e : Effect) (b : Env) : Env :=
  {| valid_url := valid_url b; sockets := sockets b; next_socket := next_socket b;
     timers := timers b; next_timer := next_timer b; clock := clock b;
     trace := trace b ++ [e] |}.

(** [new WebSocket(url)]: a fresh socket in state [CONNECTING], or an
    exception ([None]) when the url is refused. *)
Definition newWebSocket (url : string) (b : Env) : Env * option nat :=
  if valid_url b url then
    let h := next_socket b in
    ({| valid_url := valid_url b;
        sockets := <[h := CONNECTING]> (sockets b); next_socket := S h;
        timers := timers b; next_timer := next_timer b; clock := clock b;
        trace := trace b ++ [NewWebSocket url h] |}, Some h)
  else (emit (NewWebSocketFailed url) b, None).

Definition set_readyState (h : nat) (r : ReadyState) (b : Env) : Env :=
  {| valid_url := valid_url b; sockets := <[h := r]> (sockets b); next_socket := next_socket b;
     timers := timers b; next_timer := next_timer b; clock := clock b;
     trace := trace b |}.

(** [ws.readyState] of the socket behind a handle. *)
Definition readyState (h : nat) (b : Env) : option ReadyState := sockets b !! h.

(** [ws.send(frame)]. *)
Definition send (h : nat) (f : OutFrame) (b : Env) : Env := emit (WsSend h f) b.

(** [ws.close(code, reason)]: the closing handshake starts; the close
    event is delivered later. *)
Definition close (h : nat) (code : Z) (b : Env) : Env :=
  let b' := match readyState h b with
            | Some CONNECTING | Some OPEN => set_readyState h CLOSING b
            | _ => b
            end in
  emit (WsClose h code) b'.

(** [window.setTimeout(connect, delay)]: returns the (positive) id. *)
Definition setTimeout (delay : Z) (b : Env) : Env * positive :=
  let t := next_timer b in
  ({| valid_url := valid_url b; sockets := sockets b; next_socket := next_socket b;
      timers := timers b ++ [(t, clock b + delay)];
      next_timer := Pos.succ t; clock := clock b;
      trace := trace b ++ [SetTimeout t delay] |}, t).

Definition drop_timer (t : positive) (b : Env) : Env :=
  {| valid_url := valid_url b; sockets := sockets b; next_socket := next_socket b;
     timers := filter (fun e => e.1 <> t) (timers b);
     next_timer := next_timer b; clock := clock b; trace := trace b |}.

(** [clearTimeout(t)]. *)
Definition clearTimeout (t : positive) (b : Env) : Env :=
  emit (ClearTimeout t) (drop_timer t b).

(** The timeout [t] falls due: it is no longer pending and its callback
    is about to run. *)
Definition expire (t : positive) (b : Env) : Env :=
  emit (TimeoutFired t) (drop_timer t b).

Definition tick (dt : Z) (b : Env) : Env :=
  {| valid_url := valid_url b; sockets := sockets b; next_socket := next_socket b;
     timers := timers b; next_timer := next_timer b; clock := clock b + dt;
     trace := trace b |}.

(** The pending timeout that fires next: among those due, the one with
    the earliest due time, the older one on a tie. *)
Fixpoint next_due (now : Z) (ts : list (positive * Z)) : option (positive * Z) :=
  match ts with
  | [] => None
  | (t, d) :: ts' =>
      match next_due now ts' with
      | Some (t', d') =>
          if bool_decide (d <= now) && bool_decide (d <= d') then Some (t, d)
          else Some (t', d')
      | None => if bool_decide (d <= now) then Some (t, d) else None
      end
  end.

(** Connection attempts recorded in a trace. *)
Definition is_attempt (e : Effect) : bool :=
  match e with
  | NewWebSocket _ _ | NewWebSocketFailed _ => true
  | _ => false
  end.

Definition attempts (tr : list Effect) : nat := length (List.filter is_attempt tr).

Definition is_send (e : Effect) : bool :=
  match e with
  | WsSend _ _ => true
  | _ => false
  end.

Definition sends (tr : list Effect) : list Effect := List.filter is_send tr.

End Browser.

(** ** Asynchronous functions *)

Module Async.

(** The settled result of [await fetch(...)] with the body read. *)
Record Response (B : Type) := mkResponse {
  ok : bool;
  status : nat;
  body : option B;
}.
Arguments mkResponse {B}.
Arguments ok {B}.
Arguments status {B}.
Arguments body {B}.

Inductive FetchOutcome (B : Type) :=
| NetworkError (message : string)
| Responded (r : Response B).
Arguments NetworkError {B}.
Arguments Responded {B}.

(** An [async] function over a world [W], with responses of body [B],
    returning [R]; errors are JavaScript [Error]s, identified with
    their [message]. *)
Inductive Proc (W B R : Type) :=
| Return (r : R)
| Throw (message : string)
| Do (f : W -> W) (k : Proc W B R)
| Await (method url : string) (k : FetchOutcome B -> Proc W B R).
Arguments Return {W B R}.
Arguments Throw {W B R}.
Arguments Do {W B R}.
Arguments Await {W B R}.

(** Where a started process stands. *)
Inductive Status (W B R : Type) :=
| Fulfilled (r : R)
| Rejected (message : string)
| Suspended (method url : string) (k : FetchOutcome B -> Proc W B R).
Arguments Fulfilled {W B R}.
Arguments Rejected {W B R}.
Arguments Suspended {W B R}.

Section Run.
Context {W B R : Type}.

(** [try { p } catch (err) { h err }]. *)
Fixpoint try_catch (p : Proc W B R) (h : string -> Proc W B R) : Proc W B R :=
  match p with
  | Return r => Return r
  | Throw e => h e
  | Do f k => Do f (try_catch k h)
  | Await m u k => Await m u (fun o => try_catch (k o) h)
  end.

(** Run up to the next suspension point. *)
Fixpoint start (p : Proc W B R) (w : W) : W * Status W B R :=
  match p with
  | Return r => (w, Fulfilled r)
  | Throw e => (w, Rejected e)
  | Do f k => start k (f w)
  | Await m u k => (w, Suspended m u k)
  end.

(** The awaited fetch settles with [o]: run on from there. *)
Definition resume (s : Status W B R) (o : FetchOutcome B) (w : W) : W * Status W B R :=
  match s with
  | Suspended _ _ k => start (k o) w
  | _ => (w, s)
  end.

(** The continuation of the first [await], whatever the world. *)
Fixpoint awaiting (p : Proc W B R) : option (FetchOutcome B -> Proc W B R) :=
  match p with
  | Await _ _ k => Some k
  | Do _ k => awaiting k
  | _ => None
  end.

(** The part of a call that runs once its fetch has settled with [o]:
    what [resume] does to the call suspended earlier, in the world as it
    then is. *)
Definition settle (p : Proc W B R) (o : FetchOutcome B) (w : W) : W * Status W B R :=
  match awaiting p with
  | Some k => start (k o) w
  | None => (w, Rejected "not awaiting")
  end.

End Run.

End Async.

Import Async.

(** ** Refs shared by the two hooks *)

Module Hook.

(** [wsRef.current] is a handle on one of the browser's sockets (the
    socket object is shared with the browser, not copied). *)
Record Refs := mkRefs {
  wsRef : option nat;
  reconnectTimerRef : option positive;
  reconnectAttemptsRef : nat;
  isConnectingRef : bool;
}.

Definition init : Refs :=
  {| wsRef := None; reconnectTimerRef := None; reconnectAttemptsRef := 0%nat;
     isConnectingRef := false |}.

Definition set_wsRef (v : option nat) (r : Refs) : Refs :=
  {| wsRef := v; reconnectTimerRef := reconnectTimerRef r;
     reconnectAttemptsRef := reconnectAttemptsRef r; isConnectingRef := isConnectingRef r |}.

Definition set_reconnectTimerRef (v : option positive) (r : Refs) : Refs :=
  {| wsRef := wsRef r; reconnectTimerRef := v;
     reconnectAttemptsRef := reconnectAttemptsRef r; isConnectingRef := isConnectingRef r |}.

Definition set_reconnectAttemptsRef (v : nat) (r : Refs) : Refs :=
  {| wsRef := wsRef r; reconnectTimerRef := reconnectTimerRef r;
     reconnectAttemptsRef := v; isConnectingRef := isConnectingRef r |}.

Definition set_isConnectingRef (v : bool) (r : Refs) : Refs :=
  {| wsRef := wsRef r; reconnectTimerRef := reconnectTimerRef r;
     reconnectAttemptsRef := reconnectAttemptsRef r; isConnectingRef := v |}.

(** [wsRef.current?.readyState]. *)
Definition ws_readyState (r : Refs) (b : Browser.Env) : option Browser.ReadyState :=
  match wsRef r with
  | Some h => Browser.readyState h b
  | None => None
  end.

End Hook.

(** ** useP2P.ts *)

Module RawPeer.
(** [peer.reputation] as the normalizer tells it apart: a number, an
    object with a possibly missing [score], or nothing usable. *)
Inductive Reputation :=
| number (r : Q)
| object (score : option Q)
| absent.

(** A peer as a backend sends it. *)
Record t := mk {
  id : option string;
  peer_id : option string;
  name : option string;
  display_name : option string;
  reputation : Reputation;
  location : option string;
  addresses : option (list string);
}.

(** [{ ...peer, id: v }]. *)
Definition with_id (v : string) (p : t) : t :=
  {| id := Some v; peer_id := peer_id p; name := name p; display_name := display_name p;
     reputation := reputation p; location := location p; addresses := addresses p |}.

End RawPeer.

Module NormalizedPeer.
(** [NormalizedPeer], with the fields [normalizePeer] returns. *)
Record t := mk {
  id : string;
  name : string;
  reputation : Q;
  location : option string;
  addresses : list string;
}.

End NormalizedPeer.

Module ChatMessage.
(** [ChatMessage], with the fields [sendChat] fills in. *)
Record t := mk {
  id : string;
  from : string;
  from_name : string;
  to : option string;
  content : string;
  timestamp : Z;
}.

End ChatMessage.

Module P2P.

Record UseP2POptions := mkOptions {
  url : string;
  reconnectInterval : Z;
  maxReconnectAttempts : nat;
  apiUrl : string;
}.

(** The defaults of the destructuring in [useP2P]. *)
Definition default_options : UseP2POptions :=
  {| url := "ws://localhost:8080/ws"; reconnectInterval := 3000;
     maxReconnectAttempts := 5; apiUrl := "http://localhost:8080" |}.

Record P2PState := mkState {
  connected : bool;
  localPeerId : option string;
  peers : gmap string NormalizedPeer.t;
  messages : list ChatMessage.t;
}.

Definition set_connected (v : bool) (s : P2PState) : P2PState :=
  {| connected := v; localPeerId := localPeerId s; peers := peers s; messages := messages s |}.
Definition set_localPeerId (v : option string) (s : P2PState) : P2PState :=
  {| connected := connected s; localPeerId := v; peers := peers s; messages := messages s |}.
Definition set_peers (v : gmap string NormalizedPeer.t) (s : P2PState) : P2PState :=
  {| connected := connected s; localPeerId := localPeerId s; peers := v; messages := messages s |}.
Definition set_messages (v : list ChatMessage.t) (s : P2PState) : P2PState :=
  {| connected := connected s; localPeerId := localPeerId s; peers := peers s; messages := v |}.

Record World := mkWorld {
  state : P2PState;
  refs : Hook.Refs;
  env : Browser.Env;
}.

Definition setState (f : P2PState -> P2PState) (w : World) : World :=
  {| state := f (state w); refs := refs w; env := env w |}.
Definition setRefs (f : Hook.Refs -> Hook.Refs) (w : World) : World :=
  {| state := state w; refs := f (refs w); env := env w |}.
Definition setEnv (f : Browser.Env -> Browser.Env) (w : World) : World :=
  {| state := state w; refs := refs w; env := f (env w) |}.

(** The hook before its first effect runs. *)
Definition init (valid : string -> bool) : World :=
  {| state := {| connected := false; localPeerId := None; peers := ∅; messages := [] |};
     refs := Hook.init; env := Browser.init valid |}.

(** [normalizePeer]: peer data from the different backend formats. *)
Definition normalizePeer (peer : RawPeer.t) : NormalizedPeer.t :=
  let id := default "" (Js.or_str (RawPeer.id peer) (RawPeer.peer_id peer)) in
  let name :=
    default ("Peer-" +:+ Js.slice0 12 id)
            (Js.or_str (Js.or_str (RawPeer.name peer) (RawPeer.display_name peer)) None) in
  let reputation :=
    match RawPeer.reputation peer with
    | RawPeer.number r => r
    | RawPeer.object (Some score) => score
    | RawPeer.object None | RawPeer.absent => (1 # 2)%Q
    end in
  {| NormalizedPeer.id := id;
     NormalizedPeer.name := name;
     NormalizedPeer.reputation := reputation;
     NormalizedPeer.location := RawPeer.location peer;
     NormalizedPeer.addresses := default [] (RawPeer.addresses peer) |}.

(** One turn of [for (const peer of peers) { ... }]. *)
Definition put_peer (newPeers : gmap string NormalizedPeer.t) (peer : RawPeer.t)
  : gmap string NormalizedPeer.t :=
  let normalized := normalizePeer peer in
  if Js.truthy (Some (NormalizedPeer.id normalized))
  then <[NormalizedPeer.id normalized := normalized]> newPeers
  else newPeers.

Definition put_peers (received : list RawPeer.t) (newPeers : gmap string NormalizedPeer.t)
  : gmap string NormalizedPeer.t :=
  foldl put_peer newPeers received.

Definition fetch {B R} (method url : string) (k : FetchOutcome B -> Proc World B R)
  : Proc World B R :=
  Do (setEnv (Browser.emit (Browser.Fetch method url))) (Await method url k).

Definition console_error {B R} (msg : string) (k : Proc World B R) : Proc World B R :=
  Do (setEnv (Browser.emit (Browser.ConsoleError msg))) k.

(** [fetchPeers]: the store becomes the snapshot. *)
Definition fetchPeers (o : UseP2POptions) : Proc World (list RawPeer.t) unit :=
  try_catch
    (fetch "GET" (apiUrl o +:+ "/api/peers") (fun r =>
       match r with
       | NetworkError e => Throw e
       | Responded response =>
           match body response with
           | None => Throw "Unexpected token in JSON"
           | Some received =>
               Do (setState (fun s => set_peers (put_peers received ∅) s)) (Return ())
           end
       end))
    (fun e => console_error ("Failed to fetch peers: " +:+ e) (Return ())).

(** The body of [/api/info]. *)
Record Info := mkInfo { info_peer_id : option string }.

(** [fetchInfo]. *)
Definition fetchInfo (o : UseP2POptions) : Proc World Info unit :=
  try_catch
    (fetch "GET" (apiUrl o +:+ "/api/info") (fun r =>
       match r with
       | NetworkError e => Throw e
       | Responded response =>
           match body response with
           | None => Throw "Unexpected token in JSON"
           | Some info =>
               Do (setState (fun s => set_localPeerId (info_peer_id info) s)) (Return ())
           end
       end))
    (fun e => console_error ("Failed to fetch info: " +:+ e) (Return ())).

(** The [data] wrapper of a frame. *)
Record Data := mkData {
  d_peer_id : option string;
  d_peers : option (list RawPeer.t);
  d_peer_info : option RawPeer.t;
  d_chat : ChatMessage.t;
}.

(** An inbound frame after [JSON.parse]: its tag, the fields
    [handleMessage] looks up, the frame read as a peer ([flat], whose
    [peer_id] is [message.peer_id]) and read as a chat message. *)
Record Message := mkMessage {
  type : string;
  flat : RawPeer.t;
  m_peers : option (list RawPeer.t);
  peer_info : option RawPeer.t;
  data : option Data;
  m_chat : ChatMessage.t;
}.

(** [message.peer_id || message.data?.peer_id]. *)
Definition find_peer_id (message : Message) : option string :=
  Js.or_str (RawPeer.peer_id (flat message)) (data message ≫= d_peer_id).

(** [handleMessage]. *)
Definition handleMessage (message : Message) (w : World) : World :=
  if decide (type message = "peers_list") then
    let received :=
      default [] (Js.or_obj (m_peers message) (data message ≫= d_peers)) in
    setState (fun s => set_peers (put_peers received (peers s)) s) w
  else if decide (type message = "peer_joined") then
    let peerId := find_peer_id message in
    let peerInfo :=
      default (flat message)
              (Js.or_obj (peer_info message) (data message ≫= d_peer_info)) in
    if Js.truthy peerId then
      let peerId := default "" peerId in
      setState (fun s =>
        let normalized := normalizePeer (RawPeer.with_id peerId peerInfo) in
        set_peers (<[peerId := normalized]> (peers s)) s) w
    else w
  else if decide (type message = "peer_left") then
    let peerId := find_peer_id message in
    if Js.truthy peerId then
      let peerId := default "" peerId in
      setState (fun s => set_peers (delete peerId (peers s)) s) w
    else w
  else if decide (type message = "chat_message") then
    let entry := match data message with
                 | Some d => d_chat d
                 | None => m_chat message
                 end in
    setState (fun s => set_messages (Js.slice_last 99 (messages s) ++ [entry]) s) w
  else w.

(** [connect]. *)
Definition connect (o : UseP2POptions) (w : World) : World :=
  if Hook.isConnectingRef (refs w) then w
  else if decide (Hook.ws_readyState (refs w) (env w) = Some Browser.OPEN) then w
  else if decide (Hook.ws_readyState (refs w) (env w) = Some Browser.CONNECTING) then w
  else if (maxReconnectAttempts o <=? Hook.reconnectAttemptsRef (refs w))%nat then
    setEnv (Browser.emit (Browser.ConsoleWarn
      ("P2P: Max reconnect attempts (" +:+ pretty (maxReconnectAttempts o)
       +:+ ") reached. Stopping reconnection."))) w
  else
    let w := setRefs (Hook.set_isConnectingRef true) w in
    match Browser.newWebSocket (url o) (env w) with
    | (b, Some ws) =>
        (* the handlers below are attached to [ws] *)
        setRefs (Hook.set_wsRef (Some ws)) (setEnv (fun _ => b) w)
    | (b, None) =>
        let w := setEnv (fun _ => Browser.emit
                   (Browser.ConsoleError "P2P WebSocket connection error") b) w in
        setRefs (Hook.set_isConnectingRef false) w
    end.

(** [ws.onopen]. *)
Definition ws_onopen (o : UseP2POptions) (w : World) : World :=
  let w := setRefs (Hook.set_isConnectingRef false) w in
  let w := setRefs (Hook.set_reconnectAttemptsRef 0) w in
  let w := setState (set_connected true) w in
  let w := (start (fetchInfo o) w).1 in
  (start (fetchPeers o) w).1.

(** [ws.onclose]. *)
Definition ws_onclose (o : UseP2POptions) (code : Z) (w : World) : World :=
  let w := setRefs (Hook.set_isConnectingRef false) w in
  let w := setRefs (Hook.set_wsRef None) w in
  let w := setState (set_connected false) w in
  if bool_decide (code <> 1000)
     && (Hook.reconnectAttemptsRef (refs w) <? maxReconnectAttempts o)%nat then
    let w := setRefs (Hook.set_reconnectAttemptsRef
                        (S (Hook.reconnectAttemptsRef (refs w)))) w in
    let backoffDelay :=
      reconnectInterval o * Js.pow2 (Z.of_nat (Hook.reconnectAttemptsRef (refs w)) - 1) in
    let (b, t) := Browser.setTimeout backoffDelay (env w) in
    setRefs (Hook.set_reconnectTimerRef (Some t)) (setEnv (fun _ => b) w)
  else w.

(** [ws.onerror]. *)
Definition ws_onerror (w : World) : World :=
  let w := setEnv (Browser.emit (Browser.ConsoleWarn "P2P WebSocket connection error")) w in
  setRefs (Hook.set_isConnectingRef false) w.

(** [ws.onmessage]; [None] is a frame on which [JSON.parse] throws. *)
Definition ws_onmessage (payload : option Message) (w : World) : World :=
  match payload with
  | Some message => handleMessage message w
  | None => setEnv (Browser.emit (Browser.ConsoleError "Failed to parse message:")) w
  end.

(** [sendChat]; [Date.now()] is the clock of the browser. *)
Definition sendChat (content : string) (to : option string) (w : World) : World :=
  match Hook.wsRef (refs w), Hook.ws_readyState (refs w) (env w) with
  | Some ws, Some Browser.OPEN =>
      let w := setEnv (Browser.send ws (Browser.send_chat content to)) w in
      let now := Browser.clock (env w) in
      setState (fun s =>
        let localId := default "unknown" (Js.or_str (localPeerId s) None) in
        let shortId := Js.slice0 8 localId in
        let chatMessage :=
          {| ChatMessage.id := "local-" +:+ pretty now;
             ChatMessage.from := localId;
             ChatMessage.from_name := "Peer-" +:+ shortId +:+ " (you)";
             ChatMessage.to := Js.or_str to None;
             ChatMessage.content := content;
             ChatMessage.timestamp := now |} in
        set_messages (Js.slice_last 99 (messages s) ++ [chatMessage]) s) w
  | _, _ => setEnv (Browser.emit (Browser.ConsoleWarn "WebSocket not open! State:")) w
  end.

(** [disconnect]. *)
Definition disconnect (w : World) : World :=
  let w := match Hook.reconnectTimerRef (refs w) with
           | Some t =>
               setRefs (Hook.set_reconnectTimerRef None) (setEnv (Browser.clearTimeout t) w)
           | None => w
           end in
  let w := setRefs (Hook.set_reconnectAttemptsRef 0) w in
  let w := setRefs (Hook.set_isConnectingRef false) w in
  match Hook.wsRef (refs w) with
  | Some ws => setRefs (Hook.set_wsRef None) (setEnv (Browser.close ws 1000) w)
  | None => w
  end.

(** [resetConnection]: its timeout is not kept in [reconnectTimerRef]. *)
Definition resetConnection (w : World) : World :=
  let w := disconnect w in
  setEnv (fun b => (Browser.setTimeout 100 b).1) w.

(** A pending timeout fires: the browser forgets it and calls [connect]. *)
Definition fire (o : UseP2POptions) (t : positive) (w : World) : World :=
  connect o (setEnv (Browser.expire t) w).

Fixpoint run_timers (o : UseP2POptions) (fuel : nat) (w : World) : World :=
  match fuel with
  | O => w
  | S fuel' =>
      match Browser.next_due (Browser.clock (env w)) (Browser.timers (env w)) with
      | Some (t, _) => run_timers o fuel' (fire o t w)
      | None => w
      end
  end.

(** [dt] milliseconds pass: every timeout that falls due fires, in
    order ([connect] schedules none, so one pass over the pending ones
    is enough). *)
Definition advance (o : UseP2POptions) (dt : Z) (w : World) : World :=
  let w := setEnv (Browser.tick (Z.max 0 dt)) w in
  run_timers o (length (Browser.timers (env w))) w.

(** Everything that can happen to a mounted hook: browser events on one
    of its sockets, time passing, a fetch settling, and calls of what
    the hook returns. *)
Inductive Event :=
| Mounted
| Unmounted
| Opened (ws : nat)
| Closed (ws : nat) (code : Z)
| Errored (ws : nat)
| Received (ws : nat) (payload : option Message)
| Elapsed (dt : Z)
| InfoSettled (r : FetchOutcome Info)
| PeersSettled (r : FetchOutcome (list RawPeer.t))
| SendChat (content : string) (to : option string)
| Disconnect
| ResetConnection
| RefreshPeers.

Definition react (o : UseP2POptions) (e : Event) (w : World) : World :=
  match e with
  | Mounted => connect o w
  | Unmounted => disconnect w
  | Opened ws =>
      if decide (Browser.readyState ws (env w) = Some Browser.CONNECTING)
      then ws_onopen o (setEnv (Browser.set_readyState ws Browser.OPEN) w)
      else w
  | Closed ws code =>
      match Browser.readyState ws (env w) with
      | Some Browser.CLOSED | None => w
      | Some _ => ws_onclose o code (setEnv (Browser.set_readyState ws Browser.CLOSED) w)
      end
  | Errored ws =>
      match Browser.readyState ws (env w) with
      | Some _ => ws_onerror w
      | None => w
      end
  | Received ws payload =>
      if decide (Browser.readyState ws (env w) = Some Browser.OPEN)
      then ws_onmessage payload w
      else w
  | Elapsed dt => advance o dt w
  | InfoSettled r => (settle (fetchInfo o) r w).1
  | PeersSettled r => (settle (fetchPeers o) r w).1
  | SendChat content to => sendChat content to w
  | Disconnect => disconnect w
  | ResetConnection => resetConnection w
  | RefreshPeers => (start (fetchPeers o) w).1
  end.

Definition run_events (o : UseP2POptions) (es : list Event) (w : World) : World :=
  foldl (fun w e => react o e w) w es.

End P2P.

(** ** useOrchestrator.ts *)

Module Workload.
(** Modelled from the spec: the declaration of [Workload] (types.ts) is
    not among the sources; the specification gives it an id, a status, a
    progress and a creation time, which are also the fields the hook
    names. *)
Record t := mk {
  id : string;
  status : string;
  progress : Q;
  createdAt : string;
}.

(** [{ ...workload, status: v }]. *)
Definition with_status (v : string) (w : t) : t :=
  {| id := id w; status := v; progress := progress w; createdAt := createdAt w |}.

(** [{ ...workload, status: v, progress: p }]. *)
Definition with_status_progress (v : string) (p : Q) (w : t) : t :=
  {| id := id w; status := v; progress := p; createdAt := createdAt w |}.

End Workload.

Module NodeHealth.
(** Modelled from the spec: the declaration of [NodeHealth] (types.ts) is
    not among the sources; of its fields the hook reads [nodeId] only,
    the health status stands for the rest. *)
Record t := mk {
  nodeId : string;
  status : string;
}.

End NodeHealth.

Module ClusterMetrics.
(** Modelled from the spec: the declaration of [ClusterMetrics]
    (types.ts) is not among the sources; the hook only stores the
    aggregate figures and hands them to the views. *)
Record t := mk { figures : list (string * Q) }.

End ClusterMetrics.

Module Orchestrator.

Record UseOrchestratorOptions := mkOptions {
  wsUrl : string;
  apiUrl : string;
  reconnectInterval : Z;
  maxReconnectAttempts : nat;
  autoConnect : bool;
}.

Definition default_options : UseOrchestratorOptions :=
  {| wsUrl := "ws://localhost:8080/ws"; apiUrl := "http://localhost:8080/api";
     reconnectInterval := 3000; maxReconnectAttempts := 5; autoConnect := true |}.

Record OrchestratorState := mkState {
  connected : bool;
  loading : bool;
  error : option string;
  workloads : gmap string Workload.t;
  nodes : gmap string NodeHealth.t;
  clusterMetrics : option ClusterMetrics.t;
}.

Definition set_connected (v : bool) (s : OrchestratorState) : OrchestratorState :=
  {| connected := v; loading := loading s; error := error s; workloads := workloads s;
     nodes := nodes s; clusterMetrics := clusterMetrics s |}.
Definition set_loading (v : bool) (s : OrchestratorState) : OrchestratorState :=
  {| connected := connected s; loading := v; error := error s; workloads := workloads s;
     nodes := nodes s; clusterMetrics := clusterMetrics s |}.
Definition set_error (v : option string) (s : OrchestratorState) : OrchestratorState :=
  {| connected := connected s; loading := loading s; error := v; workloads := workloads s;
     nodes := nodes s; clusterMetrics := clusterMetrics s |}.
Definition set_workloads (v : gmap string Workload.t) (s : OrchestratorState)
  : OrchestratorState :=
  {| connected := connected s; loading := loading s; error := error s; workloads := v;
     nodes := nodes s; clusterMetrics := clusterMetrics s |}.
Definition set_nodes (v : gmap string NodeHealth.t) (s : OrchestratorState)
  : OrchestratorState :=
  {| connected := connected s; loading := loading s; error := error s;
     workloads := workloads s; nodes := v; clusterMetrics := clusterMetrics s |}.
Definition set_clusterMetrics (v : option ClusterMetrics.t) (s : OrchestratorState)
  : OrchestratorState :=
  {| connected := connected s; loading := loading s; error := error s;
     workloads := workloads s; nodes := nodes s; clusterMetrics := v |}.

Record World := mkWorld {
  state : OrchestratorState;
  refs : Hook.Refs;
  env : Browser.Env;
}.

Definition setState (f : OrchestratorState -> OrchestratorState) (w : World) : World :=
  {| state := f (state w); refs := refs w; env := env w |}.
Definition setRefs (f : Hook.Refs -> Hook.Refs) (w : World) : World :=
  {| state := state w; refs := f (refs w); env := env w |}.
Definition setEnv (f : Browser.Env -> Browser.Env) (w : World) : World :=
  {| state := state w; refs := refs w; env := f (env w) |}.

Definition init (valid : string -> bool) : World :=
  {| state := {| connected := false; loading := false; error := None; workloads := ∅;
                 nodes := ∅; clusterMetrics := None |};
     refs := Hook.init; env := Browser.init valid |}.

(** Modelled from the spec: the declaration of [OrchestratorEvent]
    (types.ts) is not among the sources; it is the tagged union of the
    frames [handleMessage] switches on, each with the payload the handler
    casts [event.data] to; [other] stands for every tag the [switch] does
    not list. *)
Inductive OrchestratorEvent :=
| workload_list (data : option (list Workload.t))
| workload_created (data : Workload.t)
| workload_updated (data : Workload.t)
| workload_completed (data : Workload.t)
| workload_failed (data : Workload.t)
| node_list (data : option (list NodeHealth.t))
| node_status (data : NodeHealth.t)
| node_joined (data : NodeHealth.t)
| node_left (nodeId : string)
| cluster_metrics (data : ClusterMetrics.t)
| other (type : string).

Definition put_workloads (received : list Workload.t) (m : gmap string Workload.t)
  : gmap string Workload.t :=
  foldl (fun newWorkloads workload => <[Workload.id workload := workload]> newWorkloads)
        m received.

Definition put_nodes (received : list NodeHealth.t) (m : gmap string NodeHealth.t)
  : gmap string NodeHealth.t :=
  foldl (fun newNodes node => <[NodeHealth.nodeId node := node]> newNodes) m received.

(** [handleMessage]. *)
Definition handleMessage (event : OrchestratorEvent) (w : World) : World :=
  match event with
  | workload_list data =>
      let received := default [] data in
      setState (fun s => set_workloads (put_workloads received (workloads s)) s) w
  | workload_created workload | workload_updated workload
  | workload_completed workload | workload_failed workload =>
      setState (fun s =>
        set_workloads (<[Workload.id workload := workload]> (workloads s)) s) w
  | node_list data =>
      let received := default [] data in
      setState (fun s => set_nodes (put_nodes received (nodes s)) s) w
  | node_status node | node_joined node =>
      setState (fun s => set_nodes (<[NodeHealth.nodeId node := node]> (nodes s)) s) w
  | node_left nodeId =>
      setState (fun s => set_nodes (delete nodeId (nodes s)) s) w
  | cluster_metrics metrics =>
      setState (set_clusterMetrics (Some metrics)) w
  | other _ => w
  end.

Definition fetch {B R} (method url : string) (k : FetchOutcome B -> Proc World B R)
  : Proc World B R :=
  Do (setEnv (Browser.emit (Browser.Fetch method url))) (Await method url k).

Definition console_error {B R} (msg : string) (k : Proc World B R) : Proc World B R :=
  Do (setEnv (Browser.emit (Browser.ConsoleError msg))) k.

(** A collection endpoint answers with a bare array or with an object
    holding the array under a named field. *)
Inductive ListBody (A : Type) :=
| bare (l : list A)
| wrapped (field : option (list A)).
Arguments bare {A}.
Arguments wrapped {A}.

(** [Array.isArray(data) ? data : data.<field> || []]. *)
Definition list_of_body {A} (data : ListBody A) : list A :=
  match data with
  | bare l => l
  | wrapped field => default [] field
  end.

(** The [catch] block shared by the REST calls: log, record the
    message, rethrow. *)
Definition fail {B R} (what : string) (e : string) : Proc World B R :=
  console_error (what +:+ e) (Do (setState (set_error (Some e))) (Throw e)).

(** [fetchWorkloads]. *)
Definition fetchWorkloads (o : UseOrchestratorOptions)
  : Proc World (ListBody Workload.t) (gmap string Workload.t) :=
  try_catch
    (fetch "GET" (apiUrl o +:+ "/orchestrator/workloads") (fun r =>
       match r with
       | NetworkError e => Throw e
       | Responded response =>
           if negb (ok response) then
             Throw ("Failed to fetch workloads: " +:+ pretty (status response))
           else
             match body response with
             | None => Throw "Unexpected token in JSON"
             | Some data =>
                 let workloads := put_workloads (list_of_body data) ∅ in
                 Do (setState (fun s => set_error None (set_workloads workloads s)))
                    (Return workloads)
             end
       end))
    (fail "Failed to fetch workloads: ").

(** [fetchNodes]. *)
Definition fetchNodes (o : UseOrchestratorOptions)
  : Proc World (ListBody NodeHealth.t) (gmap string NodeHealth.t) :=
  try_catch
    (fetch "GET" (apiUrl o +:+ "/orchestrator/nodes") (fun r =>
       match r with
       | NetworkError e => Throw e
       | Responded response =>
           if negb (ok response) then
             Throw ("Failed to fetch nodes: " +:+ pretty (status response))
           else
             match body response with
             | None => Throw "Unexpected token in JSON"
             | Some data =>
                 let nodes := put_nodes (list_of_body data) ∅ in
                 Do (setState (fun s => set_error None (set_nodes nodes s)))
                    (Return nodes)
             end
       end))
    (fail "Failed to fetch nodes: ").

(** The body of the metrics endpoint: the figures, possibly under
    [cluster]. *)
Record MetricsBody := mkMetricsBody {
  cluster : option ClusterMetrics.t;
  whole : ClusterMetrics.t;
}.

(** [fetchClusterMetrics]. *)
Definition fetchClusterMetrics (o : UseOrchestratorOptions)
  : Proc World MetricsBody ClusterMetrics.t :=
  try_catch
    (fetch "GET" (apiUrl o +:+ "/orchestrator/metrics") (fun r =>
       match r with
       | NetworkError e => Throw e
       | Responded response =>
           if negb (ok response) then
             Throw ("Failed to fetch cluster metrics: " +:+ pretty (status response))
           else
             match body response with
             | None => Throw "Unexpected token in JSON"
             | Some data =>
                 let clusterMetrics := default (whole data) (cluster data) in
                 Do (setState (fun s =>
                       set_error None (set_clusterMetrics (Some clusterMetrics) s)))
                    (Return clusterMetrics)
             end
       end))
    (fail "Failed to fetch cluster metrics: ").

(** [fetchOrchestratorData], up to its [await Promise.all]: the three
    fetches are started. *)
Definition fetchOrchestratorData_start (o : UseOrchestratorOptions) (w : World) : World :=
  let w := setState (fun s => set_error None (set_loading true s)) w in
  let w := (start (fetchWorkloads o) w).1 in
  let w := (start (fetchNodes o) w).1 in
  (start (fetchClusterMetrics o) w).1.

(** [fetchOrchestratorData] after [Promise.all] has settled: fulfilled
    ([None]) or rejected with the message of the first failing fetch. *)
Definition fetchOrchestratorData_settled (rejected : option string) (w : World) : World :=
  match rejected with
  | None => setState (set_loading false) w
  | Some e => setState (fun s => set_error (Some e) (set_loading false s)) w
  end.

(** [connect]. *)
Definition connect (o : UseOrchestratorOptions) (w : World) : World :=
  if Hook.isConnectingRef (refs w) then w
  else if decide (Hook.ws_readyState (refs w) (env w) = Some Browser.OPEN) then w
  else if decide (Hook.ws_readyState (refs w) (env w) = Some Browser.CONNECTING) then w
  else if (maxReconnectAttempts o <=? Hook.reconnectAttemptsRef (refs w))%nat then
    let w := setEnv (Browser.emit (Browser.ConsoleWarn
      ("Orchestrator: Max reconnect attempts (" +:+ pretty (maxReconnectAttempts o)
       +:+ ") reached. Stopping reconnection."))) w in
    setState (fun s =>
      set_error (Some ("Connection failed after " +:+ pretty (maxReconnectAttempts o)
                       +:+ " attempts. Server may be unavailable."))
                (set_loading false (set_connected false s))) w
  else
    let w := setRefs (Hook.set_isConnectingRef true) w in
    let w := setState (fun s => set_error None (set_loading true s)) w in
    match Browser.newWebSocket (wsUrl o) (env w) with
    | (b, Some ws) =>
        (* the handlers below are attached to [ws] *)
        setRefs (Hook.set_wsRef (Some ws)) (setEnv (fun _ => b) w)
    | (b, None) =>
        let errorMsg := "Failed to construct 'WebSocket'" in
        let w := setEnv (fun _ => Browser.emit
                   (Browser.ConsoleError ("WebSocket connection error: " +:+ errorMsg)) b) w in
        let w := setRefs (Hook.set_isConnectingRef false) w in
        setState (fun s => set_error (Some errorMsg) (set_loading false s)) w
    end.

(** [ws.onopen] of the socket [ws]. *)
Definition ws_onopen (o : UseOrchestratorOptions) (ws : nat) (w : World) : World :=
  let w := setRefs (Hook.set_isConnectingRef false) w in
  let w := setRefs (Hook.set_reconnectAttemptsRef 0) w in
  let w := setState (fun s =>
             set_error None (set_loading false (set_connected true s))) w in
  let w := fetchOrchestratorData_start o w in
  let w := setEnv (Browser.send ws (Browser.subscribe "orchestrator")) w in
  let w := setEnv (Browser.send ws (Browser.subscribe "workloads")) w in
  let w := setEnv (Browser.send ws (Browser.subscribe "nodes")) w in
  setEnv (Browser.send ws (Browser.subscribe "cluster")) w.

(** [ws.onclose]. *)
Definition ws_onclose (o : UseOrchestratorOptions) (code : Z) (w : World) : World :=
  let w := setRefs (Hook.set_isConnectingRef false) w in
  let w := setRefs (Hook.set_wsRef None) w in
  let w := setState (set_connected false) w in
  if bool_decide (code <> 1000)
     && (Hook.reconnectAttemptsRef (refs w) <? maxReconnectAttempts o)%nat then
    let w := setRefs (Hook.set_reconnectAttemptsRef
                        (S (Hook.reconnectAttemptsRef (refs w)))) w in
    let backoffDelay :=
      reconnectInterval o * Js.pow2 (Z.of_nat (Hook.reconnectAttemptsRef (refs w)) - 1) in
    let (b, t) := Browser.setTimeout backoffDelay (env w) in
    setRefs (Hook.set_reconnectTimerRef (Some t)) (setEnv (fun _ => b) w)
  else w.

(** [ws.onerror]. *)
Definition ws_onerror (w : World) : World :=
  let w := setEnv (Browser.emit
             (Browser.ConsoleWarn "Orchestrator WebSocket connection error")) w in
  let w := setRefs (Hook.set_isConnectingRef false) w in
  setState (fun s =>
    set_error (Some "WebSocket connection failed")
              (set_loading false (set_connected false s))) w.

Definition tag (event : OrchestratorEvent) : string :=
  match event with
  | workload_list _ => "workload_list"
  | workload_created _ => "workload_created"
  | workload_updated _ => "workload_updated"
  | workload_completed _ => "workload_completed"
  | workload_failed _ => "workload_failed"
  | node_list _ => "node_list"
  | node_status _ => "node_status"
  | node_joined _ => "node_joined"
  | node_left _ => "node_left"
  | cluster_metrics _ => "cluster_metrics"
  | other type => type
  end.

(** The test of [ws.onmessage] on [message.type]. *)
Definition for_orchestrator (type : string) : bool :=
  String.prefix "workload_" type || String.prefix "node_" type
  || String.eqb type "cluster_metrics" || String.eqb type "workload_list"
  || String.eqb type "node_list".

(** [ws.onmessage]; [None] is a frame on which [JSON.parse] throws. *)
Definition ws_onmessage (payload : option OrchestratorEvent) (w : World) : World :=
  match payload with
  | Some message =>
      if for_orchestrator (tag message) then handleMessage message w else w
  | None =>
      setEnv (Browser.emit (Browser.ConsoleError "Failed to parse orchestrator message:")) w
  end.

(** [disconnect]. *)
Definition disconnect (w : World) : World :=
  let w := match Hook.reconnectTimerRef (refs w) with
           | Some t =>
               setRefs (Hook.set_reconnectTimerRef None) (setEnv (Browser.clearTimeout t) w)
           | None => w
           end in
  let w := setRefs (Hook.set_reconnectAttemptsRef 0) w in
  let w := setRefs (Hook.set_isConnectingRef false) w in
  match Hook.wsRef (refs w) with
  | Some ws => setRefs (Hook.set_wsRef None) (setEnv (Browser.close ws 1000) w)
  | None => w
  end.

(** [resetConnection]: its timeout is not kept in [reconnectTimerRef]. *)
Definition resetConnection (w : World) : World :=
  let w := disconnect w in
  setEnv (fun b => (Browser.setTimeout 100 b).1) w.

(** [sendWorkloadCommand]. *)
Definition sendWorkloadCommand (command workloadId : string) (w : World) : World :=
  match Hook.wsRef (refs w), Hook.ws_readyState (refs w) (env w) with
  | Some ws, Some Browser.OPEN =>
      setEnv (Browser.send ws (Browser.workload_command command workloadId)) w
  | _, _ => w
  end.

(** [createWorkload]; the request body plays no part here. *)
Definition createWorkload (o : UseOrchestratorOptions) : Proc World Workload.t Workload.t :=
  try_catch
    (fetch "POST" (apiUrl o +:+ "/orchestrator/workloads") (fun r =>
       match r with
       | NetworkError e => Throw e
       | Responded response =>
           if negb (ok response) then
             Throw ("Failed to create workload: " +:+ pretty (status response))
           else
             match body response with
             | None => Throw "Unexpected token in JSON"
             | Some newWorkload =>
                 Do (setState (fun s =>
                       set_workloads
                         (<[Workload.id newWorkload := newWorkload]> (workloads s)) s))
                    (Return newWorkload)
             end
       end))
    (fail "Create workload error: ").

(** [cancelWorkload]. *)
Definition cancelWorkload (o : UseOrchestratorOptions) (workloadId : string)
  : Proc World unit unit :=
  try_catch
    (fetch "POST" (apiUrl o +:+ "/orchestrator/workloads/" +:+ workloadId +:+ "/cancel")
       (fun r =>
          match r with
          | NetworkError e => Throw e
          | Responded response =>
              if negb (ok response) then
                Throw ("Failed to cancel workload: " +:+ pretty (status response))
              else
                Do (setState (fun s =>
                      match workloads s !! workloadId with
                      | Some workload =>
                          set_workloads
                            (<[workloadId := Workload.with_status "cancelled" workload]>
                               (workloads s)) s
                      | None => s
                      end))
                   (Do (sendWorkloadCommand "cancel" workloadId) (Return ()))
          end))
    (fail "Cancel workload error: ").

(** [retryWorkload]. *)
Definition retryWorkload (o : UseOrchestratorOptions) (workloadId : string)
  : Proc World unit unit :=
  try_catch
    (fetch "POST" (apiUrl o +:+ "/orchestrator/workloads/" +:+ workloadId +:+ "/retry")
       (fun r =>
          match r with
          | NetworkError e => Throw e
          | Responded response =>
              if negb (ok response) then
                Throw ("Failed to retry workload: " +:+ pretty (status response))
              else
                Do (setState (fun s =>
                      match workloads s !! workloadId with
                      | Some workload =>
                          set_workloads
                            (<[workloadId :=
                                 Workload.with_status_progress "pending" 0%Q workload]>
                               (workloads s)) s
                      | None => s
                      end))
                   (Do (sendWorkloadCommand "retry" workloadId) (Return ()))
          end))
    (fail "Retry workload error: ").

(** [clearError]. *)
Definition clearError (w : World) : World := setState (set_error None) w.

Definition fire (o : UseOrchestratorOptions) (t : positive) (w : World) : World :=
  connect o (setEnv (Browser.expire t) w).

Fixpoint run_timers (o : UseOrchestratorOptions) (fuel : nat) (w : World) : World :=
  match fuel with
  | O => w
  | S fuel' =>
      match Browser.next_due (Browser.clock (env w)) (Browser.timers (env w)) with
      | Some (t, _) => run_timers o fuel' (fire o t w)
      | None => w
      end
  end.

Definition advance (o : UseOrchestratorOptions) (dt : Z) (w : World) : World :=
  let w := setEnv (Browser.tick (Z.max 0 dt)) w in
  run_timers o (length (Browser.timers (env w))) w.

(** Everything that can happen to a mounted hook. *)
Inductive Event :=
| Mounted
| Unmounted
| Opened (ws : nat)
| Closed (ws : nat) (code : Z)
| Errored (ws : nat)
| Received (ws : nat) (payload : option OrchestratorEvent)
| Elapsed (dt : Z)
| Connect
| Disconnect
| ResetConnection
| RefreshData
| RefreshSettled (rejected : option string)
| FetchWorkloads
| FetchNodes
| FetchClusterMetrics
| WorkloadsSettled (r : FetchOutcome (ListBody Workload.t))
| NodesSettled (r : FetchOutcome (ListBody NodeHealth.t))
| MetricsSettled (r : FetchOutcome MetricsBody)
| CreateWorkload
| CreateSettled (r : FetchOutcome Workload.t)
| CancelWorkload (workloadId : string)
| CancelSettled (workloadId : string) (r : FetchOutcome unit)
| RetryWorkload (workloadId : string)
| RetrySettled (workloadId : string) (r : FetchOutcome unit)
| ClearError.

Definition react (o : UseOrchestratorOptions) (e : Event) (w : World) : World :=
  match e with
  | Mounted => if autoConnect o then connect o w else w
  | Unmounted => disconnect w
  | Opened ws =>
      if decide (Browser.readyState ws (env w) = Some Browser.CONNECTING)
      then ws_onopen o ws (setEnv (Browser.set_readyState ws Browser.OPEN) w)
      else w
  | Closed ws code =>
      match Browser.readyState ws (env w) with
      | Some Browser.CLOSED | None => w
      | Some _ => ws_onclose o code (setEnv (Browser.set_readyState ws Browser.CLOSED) w)
      end
  | Errored ws =>
      match Browser.readyState ws (env w) with
      | Some _ => ws_onerror w
      | None => w
      end
  | Received ws payload =>
      if decide (Browser.readyState ws (env w) = Some Browser.OPEN)
      then ws_onmessage payload w
      else w
  | Elapsed dt => advance o dt w
  | Connect => connect o w
  | Disconnect => disconnect w
  | ResetConnection => resetConnection w
  | RefreshData => fetchOrchestratorData_start o w
  | RefreshSettled rejected => fetchOrchestratorData_settled rejected w
  | FetchWorkloads => (start (fetchWorkloads o) w).1
  | FetchNodes => (start (fetchNodes o) w).1
  | FetchClusterMetrics => (start (fetchClusterMetrics o) w).1
  | WorkloadsSettled r => (settle (fetchWorkloads o) r w).1
  | NodesSettled r => (settle (fetchNodes o) r w).1
  | MetricsSettled r => (settle (fetchClusterMetrics o) r w).1
  | CreateWorkload => (start (createWorkload o) w).1
  | CreateSettled r => (settle (createWorkload o) r w).1
  | CancelWorkload workloadId => (start (cancelWorkload o workloadId) w).1
  | CancelSettled workloadId r => (settle (cancelWorkload o workloadId) r w).1
  | RetryWorkload workloadId => (start (retryWorkload o workloadId) w).1
  | RetrySettled workloadId r => (settle (retryWorkload o workloadId) r w).1
  | ClearError => clearError w
  end.

Definition run_events (o : UseOrchestratorOptions) (es : list Event) (w : World) : World :=
  foldl (fun w e => react o e w) w es.

End Orchestrator.

(** * Vocabulary of the properties *)

(** ** Entity stores *)

Module Store.

Section Merge.
Context {A V : Type}.
Variable key : A -> string.
Variable val : A -> V.
Variable keep : A -> bool.
Variable step : gmap string V -> A -> gmap string V.

(** A merge "never removes", as the specification has it: afterwards
    an entity of the snapshot sits under the key of every kept row, and
    every key no kept row carries is as it was. *)
Definition additive (received : list A) (before after : gmap string V) : Prop :=
  (forall a, a ∈ received -> keep a = true ->
     exists a', a' ∈ received /\ keep a' = true /\ key a' = key a
                /\ after !! key a = Some (val a'))
  /\ (forall k, (forall a, a ∈ received -> keep a = true -> key a <> k) ->
        after !! k = before !! k).

(** The row [a] is the last kept row of its key in [received]. *)
Definition last_of_key (a : A) (received : list A) : Prop :=
  keep a = true
  /\ exists l1 l2, received = (l1 ++ a :: l2)%list
                   /\ forall b, b ∈ l2 -> keep b = true -> key b <> key a.

(** What a snapshot loop does to a store: the key of every kept row
    holds the last kept row of that key, and every key no kept row
    carries is as it was. *)
Definition merged (received : list A) (before after : gmap string V) : Prop :=
  (forall a, a ∈ received -> keep a = true ->
     exists a', last_of_key a' received /\ key a' = key a
                /\ after !! key a = Some (val a'))
  /\ (forall a, last_of_key a received -> after !! key a = Some (val a))
  /\ (forall k, (forall a, a ∈ received -> keep a = true -> key a <> k) ->
        after !! k = before !! k).

End Merge.

(** Every entry sits under the identifier of its entity. *)
Definition keyed {V} (key : V -> string) (m : gmap string V) : Prop :=
  map_Forall (fun k v => key v = k) m.

(** No entry sits under the empty identifier. *)
Definition identified {V} (m : gmap string V) : Prop :=
  map_Forall (fun k (_ : V) => k <> "") m.

(** [list()]: the entities of a store. *)
Definition list_all {V} (m : gmap string V) : list V := (map_to_list m).*2.

End Store.

(** ** Snapshots: pushed ones are merged, fetched ones replace *)

Module Snapshot.
Import P2P.

Definition peer_key (peer : RawPeer.t) : string := NormalizedPeer.id (normalizePeer peer).

(** The guard [if (normalized.id)] of the peer loops. *)
Definition peer_kept (peer : RawPeer.t) : bool := Js.truthy (Some (peer_key peer)).

(** [message.peers || message.data?.peers || []]. *)
Definition pushed_peers (message : Message) : list RawPeer.t :=
  default [] (Js.or_obj (m_peers message) (data message ≫= d_peers)).

Definition always {A} (_ : A) : bool := true.

(** A store that knows peer [abc], and a snapshot without it. *)
Definition known : RawPeer.t :=
  {| RawPeer.id := None; RawPeer.peer_id := Some "abc"; RawPeer.name := None;
     RawPeer.display_name := Some "Alice"; RawPeer.reputation := RawPeer.absent;
     RawPeer.location := None; RawPeer.addresses := None |}.

Definition newcomer : RawPeer.t :=
  {| RawPeer.id := None; RawPeer.peer_id := Some "xyz"; RawPeer.name := None;
     RawPeer.display_name := Some "Bob"; RawPeer.reputation := RawPeer.absent;
     RawPeer.location := None; RawPeer.addresses := None |}.

Definition before : World :=
  setState (set_peers (put_peers [known] ∅)) (init (fun _ => true)).

Definition after : World :=
  (settle (fetchPeers default_options)
          (Responded {| ok := true; status := 200; body := Some [newcomer] |}) before).1.

End Snapshot.

(** ** What the events of useP2P do to the peers store *)

Module P2PStore.
Import P2P Snapshot.

(** The peer that [peer_joined] stores. *)
Definition joined (message : Message) : option RawPeer.t :=
  let peerInfo :=
    default (flat message) (Js.or_obj (peer_info message) (data message ≫= d_peer_info)) in
  if Js.truthy (find_peer_id message)
  then Some (RawPeer.with_id (default "" (find_peer_id message)) peerInfo)
  else None.

(** The raw peers an event brings to the store. *)
Definition carried (e : Event) : list RawPeer.t :=
  match e with
  | Received _ (Some message) =>
      if decide (type message = "peers_list") then pushed_peers message
      else if decide (type message = "peer_joined") then option_list (joined message)
      else []
  | PeersSettled (Responded response) => default [] (body response)
  | _ => []
  end.

End P2PStore.

(** ** What the events of useOrchestrator do to its two stores *)

Module OrchestratorStore.
Import Orchestrator.

(** The workloads and the nodes an event brings to the stores. *)
Definition carried_workloads (e : Event) : list Workload.t :=
  match e with
  | Received _ (Some (workload_list data)) => default [] data
  | Received _ (Some (workload_created w)) | Received _ (Some (workload_updated w))
  | Received _ (Some (workload_completed w)) | Received _ (Some (workload_failed w)) => [w]
  | WorkloadsSettled (Responded response) => default [] (list_of_body <$> body response)
  | CreateSettled (Responded response) => option_list (body response)
  | _ => []
  end.

Definition carried_nodes (e : Event) : list NodeHealth.t :=
  match e with
  | Received _ (Some (node_list data)) => default [] data
  | Received _ (Some (node_status n)) | Received _ (Some (node_joined n)) => [n]
  | NodesSettled (Responded response) => default [] (list_of_body <$> body response)
  | _ => []
  end.

Section Stores.
(** A property of an entry that only looks at its key and at the
    identifier of its entity. *)
Variable Q : string -> string -> Prop.

Definition workloads_ok (w : World) : Prop :=
  map_Forall (fun k v => Q k (Workload.id v)) (workloads (state w)).
Definition nodes_ok (w : World) : Prop :=
  map_Forall (fun k v => Q k (NodeHealth.nodeId v)) (nodes (state w)).
Definition stores_ok (w : World) : Prop := workloads_ok w /\ nodes_ok w.

Definition brings_ok (e : Event) : Prop :=
  (forall v, v ∈ carried_workloads e -> Q (Workload.id v) (Workload.id v))
  /\ (forall n, n ∈ carried_nodes e -> Q (NodeHealth.nodeId n) (NodeHealth.nodeId n)).

End Stores.

End OrchestratorStore.

(** ** Identifiers in the stores *)

Module Identifiers.

(** A workload without an identifier, as the server may push it. *)
Definition anonymous : Workload.t :=
  {| Workload.id := ""; Workload.status := "running"; Workload.progress := 0%Q;
     Workload.createdAt := "2025-01-01T00:00:00Z" |}.

Definition pushed_anonymous : list Orchestrator.Event :=
  [Orchestrator.Mounted; Orchestrator.Opened 0;
   Orchestrator.Received 0 (Some (Orchestrator.workload_created anonymous))].

Definition job : Workload.t :=
  {| Workload.id := "w-1"; Workload.status := "running"; Workload.progress := (1 # 2)%Q;
     Workload.createdAt := "2025-01-01T00:00:00Z" |}.

Definition pushed_job : list Orchestrator.Event :=
  [Orchestrator.Mounted; Orchestrator.Opened 0;
   Orchestrator.Received 0 (Some (Orchestrator.workload_created job))].

(** Every workload and node an event carries has an identifier. *)
Definition identified_event (e : Orchestrator.Event) : Prop :=
  OrchestratorStore.brings_ok (fun k _ => k <> "") e.

End Identifiers.

(** ** Reputation *)

Module Reputation.

Definition in_unit (q : Q) : Prop := (0 <= q)%Q /\ (q <= 1)%Q.

(** The reputation a payload gives, when it gives one, is in [0,1]. *)
Definition rated_in_unit (r : RawPeer.Reputation) : Prop :=
  match r with
  | RawPeer.number q => in_unit q
  | RawPeer.object (Some score) => in_unit score
  | RawPeer.object None | RawPeer.absent => True
  end.

Definition overrated : RawPeer.t :=
  {| RawPeer.id := Some "abc"; RawPeer.peer_id := None; RawPeer.name := Some "Alice";
     RawPeer.display_name := None; RawPeer.reputation := RawPeer.number 5;
     RawPeer.location := None; RawPeer.addresses := None |}.

Definition trusted : RawPeer.t :=
  {| RawPeer.id := Some "abc"; RawPeer.peer_id := None; RawPeer.name := Some "Alice";
     RawPeer.display_name := None; RawPeer.reputation := RawPeer.number (3 # 4);
     RawPeer.location := None; RawPeer.addresses := None |}.

Definition pushed_trusted : list P2P.Event :=
  [P2P.Mounted; P2P.Opened 0;
   P2P.Received 0 (Some
     {| P2P.type := "peers_list"; P2P.flat := Snapshot.known;
        P2P.m_peers := Some [trusted]; P2P.peer_info := None; P2P.data := None;
        P2P.m_chat := ChatMessage.mk "" "" "" None "" 0 |})].

Definition pushed_overrated : list P2P.Event :=
  [P2P.Mounted; P2P.Opened 0;
   P2P.Received 0 (Some
     {| P2P.type := "peers_list"; P2P.flat := Snapshot.known;
        P2P.m_peers := Some [overrated]; P2P.peer_info := None; P2P.data := None;
        P2P.m_chat := ChatMessage.mk "" "" "" None "" 0 |})].

End Reputation.

(** ** Frames without an identifier *)

Module Frames.

Definition nobody : RawPeer.t :=
  {| RawPeer.id := None; RawPeer.peer_id := None; RawPeer.name := Some "Alice";
     RawPeer.display_name := None; RawPeer.reputation := RawPeer.absent;
     RawPeer.location := None; RawPeer.addresses := None |}.

Definition no_chat : ChatMessage.t :=
  {| ChatMessage.id := ""; ChatMessage.from := ""; ChatMessage.from_name := "";
     ChatMessage.to := None; ChatMessage.content := ""; ChatMessage.timestamp := 0 |}.

(** [{ type: "peer_joined", name: "Alice", data: { } }]. *)
Definition joined_nobody : P2P.Message :=
  {| P2P.type := "peer_joined"; P2P.flat := nobody; P2P.m_peers := None;
     P2P.peer_info := None;
     P2P.data := Some {| P2P.d_peer_id := None; P2P.d_peers := None;
                         P2P.d_peer_info := None; P2P.d_chat := no_chat |};
     P2P.m_chat := no_chat |}.

(** A hook whose socket 0 is open. *)
Definition online : P2P.World :=
  P2P.run_events P2P.default_options [P2P.Mounted; P2P.Opened 0]
    (P2P.init (fun _ => true)).

(** The same hook once [/api/peers] has answered
    [[{ peer_id: "abc", display_name: "Alice" }]]. *)
Definition hydrated : P2P.World :=
  P2P.react P2P.default_options
    (P2P.PeersSettled
       (Responded {| ok := true; status := 200; body := Some [Snapshot.known] |}))
    online.

(** [{ type: "peer_left", peer_id: "abc" }]. *)
Definition left_abc : P2P.Message :=
  {| P2P.type := "peer_left";
     P2P.flat := {| RawPeer.id := None; RawPeer.peer_id := Some "abc";
                    RawPeer.name := None; RawPeer.display_name := None;
                    RawPeer.reputation := RawPeer.absent; RawPeer.location := None;
                    RawPeer.addresses := None |};
     P2P.m_peers := None; P2P.peer_info := None; P2P.data := None;
     P2P.m_chat := no_chat |}.

End Frames.

(** ** Chat *)

Module Chat.
Import P2P.

(** The message [sendChat] appends for itself. *)
Definition echo (content : string) (to : option string) (w : World) : ChatMessage.t :=
  let localId := default "unknown" (Js.or_str (localPeerId (state w)) None) in
  {| ChatMessage.id := "local-" +:+ pretty (Browser.clock (env w));
     ChatMessage.from := localId;
     ChatMessage.from_name := "Peer-" +:+ Js.slice0 8 localId +:+ " (you)";
     ChatMessage.to := Js.or_str to None;
     ChatMessage.content := content;
     ChatMessage.timestamp := Browser.clock (env w) |}.

(** The log after a local echo of [content]. *)
Definition echoed (content : string) (w w' : World) : Prop :=
  exists m : ChatMessage.t,
    messages (state w') = (Js.slice_last 99 (messages (state w)) ++ [m])%list
            /\ ChatMessage.content m = content
            /\ ChatMessage.from m
               = default "unknown" (Js.or_str (localPeerId (state w)) None).

(** A hook that is mounted but whose socket has not opened yet. *)
Definition offline : World :=
  run_events default_options [Mounted] (init (fun _ => true)).

End Chat.

(** ** Workload commands *)

Module Commands.
Import Orchestrator.

(** The updater of [cancelWorkload]. *)
Definition cancelled (workloadId : string) (s : OrchestratorState) : OrchestratorState :=
  match workloads s !! workloadId with
  | Some workload =>
      set_workloads (<[workloadId := Workload.with_status "cancelled" workload]>
                       (workloads s)) s
  | None => s
  end.

(** The updater of [retryWorkload]. *)
Definition retried (workloadId : string) (s : OrchestratorState) : OrchestratorState :=
  match workloads s !! workloadId with
  | Some workload =>
      set_workloads
        (<[workloadId := Workload.with_status_progress "pending" 0%Q workload]>
           (workloads s)) s
  | None => s
  end.




(** What the [catch] block of a REST call leaves behind. *)
Definition failed (what e : string) (w : World) : World :=
  setState (set_error (Some e)) (setEnv (Browser.emit (Browser.ConsoleError (what +:+ e))) w).

Definition requested (method url : string) (w : World) : World :=
  setEnv (Browser.emit (Browser.Fetch method url)) w.



End Commands.

(** ** Collection fetches that fail *)

Module Fetches.

(** A fetch "fails with an error": its promise rejects. *)
Definition rejects {W B R} (settled : W * Status W B R) : Prop :=
  exists message, settled.2 = Rejected message.

(** A hook that holds the socket 0, open, and knows peer [abc]. *)
Definition peered : P2P.World :=
  P2P.setState (P2P.set_peers (P2P.put_peers [Snapshot.known] ∅)) Frames.online.

(** Status 500 with a body that is not JSON. *)
Definition unavailable : FetchOutcome (list RawPeer.t) :=
  Responded {| ok := false; status := 500; body := None |}.

Definition logged (msg : string) (w : P2P.World) : P2P.World :=
  P2P.setEnv (Browser.emit (Browser.ConsoleError msg)) w.

Definition is_fetch (e : Browser.Effect) : bool :=
  match e with
  | Browser.Fetch _ _ => true
  | _ => false
  end.

(** The requests recorded in a trace. *)
Definition requests (tr : list Browser.Effect) : list Browser.Effect :=
  List.filter is_fetch tr.

End Fetches.

(** ** The reconnect budget *)

Module Budget.

(** The counting argument shared by the two hooks: between two
    successful opens the attempt counter goes up by one at every
    abnormal close, until it reaches the ceiling. *)
Section Counting.
Context {World Event : Type}.
Variable react : Event -> World -> World.
Variable attempts : World -> nat.
Variable ceiling : nat.
(** Events that do not reset the budget. *)
Variable quiet : Event -> bool.
(** The event is a close with a code other than 1000, delivered to a
    socket that was not closed yet. *)
Variable closes : Event -> World -> bool.
(** Not connecting and holding no socket. *)
Variable idle : World -> Prop.

Definition run (es : list Event) (w : World) : World :=
  foldl (fun w e => react e w) w es.

(** Abnormal closes delivered while [es] runs from [w]. *)
Fixpoint abnormal_closes (es : list Event) (w : World) : nat :=
  match es with
  | [] => 0
  | e :: es' => ((if closes e w then 1 else 0) + abnormal_closes es' (react e w))%nat
  end.

End Counting.

End Budget.

Module P2PConn.
Import P2P.

Definition attempts (w : World) : nat := Hook.reconnectAttemptsRef (refs w).

Definition idle (w : World) : Prop :=
  Hook.isConnectingRef (refs w) = false /\ Hook.wsRef (refs w) = None.

(** Events that leave the budget alone or spend it: all but a
    successful open and the calls that end in [disconnect]. *)
Definition quiet (e : Event) : bool :=
  match e with
  | Unmounted | Opened _ | Disconnect | ResetConnection => false
  | _ => true
  end.

(** The browser still has a close event to deliver to the socket. *)
Definition deliverable (ws : nat) (w : World) : bool :=
  match Browser.readyState ws (env w) with
  | Some Browser.CLOSED | None => false
  | Some _ => true
  end.

Definition closes (e : Event) (w : World) : bool :=
  match e with
  | Closed ws code => bool_decide (code <> 1000) && deliverable ws w
  | _ => false
  end.

Definition abnormal_closes (o : UseP2POptions) : list Event -> World -> nat :=
  Budget.abnormal_closes (react o) closes.

(** What [connect] does once the budget is spent: a warning. *)
Definition refusal (o : UseP2POptions) (w : World) : World :=
  setEnv (Browser.emit (Browser.ConsoleWarn
    ("P2P: Max reconnect attempts (" +:+ pretty (maxReconnectAttempts o)
     +:+ ") reached. Stopping reconnection."))) w.

End P2PConn.

Module OrchestratorConn.
Import Orchestrator.

Definition attempts (w : World) : nat := Hook.reconnectAttemptsRef (refs w).

Definition idle (w : World) : Prop :=
  Hook.isConnectingRef (refs w) = false /\ Hook.wsRef (refs w) = None.

Definition quiet (e : Event) : bool :=
  match e with
  | Unmounted | Opened _ | Disconnect | ResetConnection => false
  | _ => true
  end.

Definition deliverable (ws : nat) (w : World) : bool :=
  match Browser.readyState ws (env w) with
  | Some Browser.CLOSED | None => false
  | Some _ => true
  end.

Definition closes (e : Event) (w : World) : bool :=
  match e with
  | Closed ws code => bool_decide (code <> 1000) && deliverable ws w
  | _ => false
  end.

Definition abnormal_closes (o : UseOrchestratorOptions) : list Event -> World -> nat :=
  Budget.abnormal_closes (react o) closes.

(** What [connect] does once the budget is spent: a warning and the
    terminal error in the state. *)
Definition refusal (o : UseOrchestratorOptions) (w : World) : World :=
  setState (fun s =>
    set_error (Some ("Connection failed after " +:+ pretty (maxReconnectAttempts o)
                     +:+ " attempts. Server may be unavailable."))
              (set_loading false (set_connected false s)))
    (setEnv (Browser.emit (Browser.ConsoleWarn
      ("Orchestrator: Max reconnect attempts (" +:+ pretty (maxReconnectAttempts o)
       +:+ ") reached. Stopping reconnection."))) w).

End OrchestratorConn.

Module Exhaustion.

(** Five failed connections in a row, with the default options; the
    sixth timeout falls due at the end. *)
Definition p2p_outage : list P2P.Event :=
  [P2P.Mounted;
   P2P.Errored 0; P2P.Closed 0 1006; P2P.Elapsed 3000;
   P2P.Errored 1; P2P.Closed 1 1006; P2P.Elapsed 6000;
   P2P.Errored 2; P2P.Closed 2 1006; P2P.Elapsed 12000;
   P2P.Errored 3; P2P.Closed 3 1006; P2P.Elapsed 24000;
   P2P.Errored 4; P2P.Closed 4 1006].

Definition orchestrator_outage : list Orchestrator.Event :=
  [Orchestrator.Mounted;
   Orchestrator.Errored 0; Orchestrator.Closed 0 1006; Orchestrator.Elapsed 3000;
   Orchestrator.Errored 1; Orchestrator.Closed 1 1006; Orchestrator.Elapsed 6000;
   Orchestrator.Errored 2; Orchestrator.Closed 2 1006; Orchestrator.Elapsed 12000;
   Orchestrator.Errored 3; Orchestrator.Closed 3 1006; Orchestrator.Elapsed 24000;
   Orchestrator.Errored 4; Orchestrator.Closed 4 1006].

End Exhaustion.

(** ** Backoff *)

Module Backoff.

(** Two failed connections after mounting; the third close is next. *)
Definition p2p_two_down : list P2P.Event :=
  [P2P.Mounted; P2P.Closed 0 1006; P2P.Elapsed 3000; P2P.Closed 1 1006; P2P.Elapsed 6000].

Definition orchestrator_two_down : list Orchestrator.Event :=
  [Orchestrator.Mounted; Orchestrator.Closed 0 1006; Orchestrator.Elapsed 3000;
   Orchestrator.Closed 1 1006; Orchestrator.Elapsed 6000].

End Backoff.

(** ** Disconnecting while a reconnect is scheduled *)

Module Cancel.

(** No timeout is pending and the trace holds [n] connection attempts. *)
Definition calm (n : nat) (b : Browser.Env) : Prop :=
  Browser.timers b = [] /\ Browser.attempts (Browser.trace b) = n.

Definition harmless (e : Browser.Effect) : Prop := Browser.is_attempt e = false.

(** *** A cancelled timeout stays cancelled *)

Definition is_firing (t : positive) (e : Browser.Effect) : bool :=
  match e with
  | Browser.TimeoutFired t' => bool_decide (t' = t)
  | _ => false
  end.

(** How often the callback of timeout [t] has run. *)
Definition firings (t : positive) (tr : list Browser.Effect) : nat :=
  length (List.filter (is_firing t) tr).

(** The id [t] has been issued, is not pending, and its callback has run
    [n] times. *)
Definition dead (t : positive) (n : nat) (b : Browser.Env) : Prop :=
  (forall e, e ∈ Browser.timers b -> e.1 <> t)
  /\ (t < Browser.next_timer b)%positive
  /\ firings t (Browser.trace b) = n.

End Cancel.

Module P2PCancel.
Import P2P.

(** What may still happen to a hook nobody calls any more: time passes,
    its sockets report errors, frames and clean closes, and the fetches
    in flight settle. *)
Definition passive (e : Event) : bool :=
  match e with
  | Elapsed _ | Errored _ | Received _ _ | InfoSettled _ | PeersSettled _ => true
  | Closed _ code => bool_decide (code = 1000)
  | _ => false
  end.

End P2PCancel.

Module OrchestratorCancel.
Import Orchestrator.

Definition passive (e : Event) : bool :=
  match e with
  | Elapsed _ | Errored _ | Received _ _ | RefreshSettled _
  | WorkloadsSettled _ | NodesSettled _ | MetricsSettled _ | CreateSettled _
  | CancelSettled _ _ | RetrySettled _ _ => true
  | Closed _ code => bool_decide (code = 1000)
  | _ => false
  end.

End OrchestratorCancel.

Module Scheduled.

(** One failed connection after mounting: the first reconnect is
    scheduled, three seconds ahead. *)
Definition p2p_waiting : P2P.World :=
  P2P.run_events P2P.default_options [P2P.Mounted; P2P.Errored 0; P2P.Closed 0 1006]
    (P2P.init (fun _ => true)).

Definition orchestrator_waiting : Orchestrator.World :=
  Orchestrator.run_events Orchestrator.default_options
    [Orchestrator.Mounted; Orchestrator.Errored 0; Orchestrator.Closed 0 1006]
    (Orchestrator.init (fun _ => true)).

(** A connected hook is restarted with [resetConnection]; after its
    100 ms the second socket is built.  Then the connection of the first
    socket is found lost (its close event reports 1006) and the second
    socket fails to connect: each close schedules a reconnect, and the
    id of the second timeout takes the place of the first in
    [reconnectTimerRef]. *)
Definition p2p_overwritten : P2P.World :=
  P2P.run_events P2P.default_options
    [P2P.Mounted; P2P.Opened 0; P2P.ResetConnection; P2P.Elapsed 100;
     P2P.Closed 0 1006; P2P.Closed 1 1006]
    (P2P.init (fun _ => true)).

Definition orchestrator_overwritten : Orchestrator.World :=
  Orchestrator.run_events Orchestrator.default_options
    [Orchestrator.Mounted; Orchestrator.Opened 0; Orchestrator.ResetConnection;
     Orchestrator.Elapsed 100; Orchestrator.Closed 0 1006; Orchestrator.Closed 1 1006]
    (Orchestrator.init (fun _ => true)).

End Scheduled.

(** * Views of the stores *)

(** ** The peer graph *)

Module Graph.

(** The node [graphData] builds for a peer. *)
Record GraphNode := mkNode {
  id : string;
  name : string;
  reputation : Q;
  location : option string;
  isLocal : bool;
}.

(** The link [graphData] builds between two peers. *)
Record GraphLink := mkLink {
  source : string;
  target : string;
}.

(** [peer => ({ id: peer.id, ..., isLocal: peer.id === state.localPeerId })]. *)
Definition node_of (localPeerId : option string) (peer : NormalizedPeer.t) : GraphNode :=
  {| id := NormalizedPeer.id peer;
     name := NormalizedPeer.name peer;
     reputation := NormalizedPeer.reputation peer;
     location := NormalizedPeer.location peer;
     isLocal := bool_decide (Some (NormalizedPeer.id peer) = localPeerId) |}.

(** The two nested loops over [peerIds]: for every [i], the links from
    [peerIds[i]] to each later id, in order. *)
Fixpoint mesh (peerIds : list string) : list GraphLink :=
  match peerIds with
  | [] => []
  | a :: rest => (mkLink a <$> rest) ++ mesh rest
  end.

(** [graphData], given the entries of [state.peers] in the order the map
    iterates over them: nodes from [peers.values()], links from
    [peers.keys()]. *)
Definition graphData (entries : list (string * NormalizedPeer.t))
    (localPeerId : option string) : list GraphNode * list GraphLink :=
  (node_of localPeerId <$> entries.*2, mesh entries.*1).

(** An iteration order of a map: its entries, each once.  A JavaScript
    [Map] iterates in insertion order, which the stores of this
    development do not record; what is proved of a view holds for every
    order. *)
Definition iteration {V} (entries : list (string * V)) (m : gmap string V) : Prop :=
  entries ≡ₚ map_to_list m.

(** The two ends of every link are distinct nodes of the graph. *)
Definition closed (g : list GraphNode * list GraphLink) : Prop :=
  forall l, l ∈ g.2 ->
    source l <> target l /\ source l ∈ id <$> g.1 /\ target l ∈ id <$> g.1.

(** Any two distinct nodes are joined by exactly one link. *)
Definition complete (g : list GraphNode * list GraphLink) : Prop :=
  forall a b, a ∈ id <$> g.1 -> b ∈ id <$> g.1 -> a <> b ->
    (mkLink a b ∈ g.2 /\ mkLink b a ∉ g.2) \/ (mkLink b a ∈ g.2 /\ mkLink a b ∉ g.2).

End Graph.

(** ** Reputation tiers and colours *)

Module Tiers.

(** The keys of [tierConfig] (ReputationCard.tsx). *)
Inductive Tier := excellent | good | neutral | poor | untrusted.

(** [getTierFromScore] (ReputationCard.tsx); the decimal literals are
    read as the rationals they denote. *)
Definition getTierFromScore (score : Q) : Tier :=
  if Qle_bool (9 # 10) score then excellent
  else if Qle_bool (7 # 10) score then good
  else if Qle_bool (1 # 2) score then neutral
  else if Qle_bool (3 # 10) score then poor
  else untrusted.

(** The theme colours [getNodeColor] uses, read from the style sheet. *)
Record Colors := mkColors {
  glowCyan : string;
  glowGold : string;
  sporePurple : string;
  softGray : string;
}.

(** [getNodeColor] (PeerGraph.tsx). *)
Definition getNodeColor (colors : Colors) (node : Graph.GraphNode) : string :=
  if Graph.isLocal node then sporePurple colors
  else
    let score := Graph.reputation node in
    if Qle_bool (9 # 10) score then glowCyan colors
    else if Qle_bool (7 # 10) score then glowGold colors
    else if Qle_bool (1 # 2) score then softGray colors
    else if Qle_bool (3 # 10) score then "#f59e0b"
    else "#ef4444".

(** The five colours [getNodeColor] paints the nodes of other peers
    with. *)
Definition bands (colors : Colors) : list string :=
  [glowCyan colors; glowGold colors; softGray colors; "#f59e0b"; "#ef4444"].

(** The fallback colours of [getThemeColors] (PeerGraph.tsx). *)
Definition fallback : Colors :=
  {| glowCyan := "#00ffd5"; glowGold := "#ffd700"; sporePurple := "#b088f9";
     softGray := "#8a9a8f" |}.

(** Tiers from worst to best. *)
Definition rank (tier : Tier) : nat :=
  match tier with
  | untrusted => 0
  | poor => 1
  | neutral => 2
  | good => 3
  | excellent => 4
  end.

End Tiers.

(** ** The node inspector *)

Module NodeStatus.

Definition is_healthy (n : NodeHealth.t) : bool :=
  String.eqb (NodeHealth.status n) "healthy" || String.eqb (NodeHealth.status n) "Ready".

Definition is_unhealthy (n : NodeHealth.t) : bool :=
  String.eqb (NodeHealth.status n) "unhealthy" || String.eqb (NodeHealth.status n) "NotReady".

(** The filter step of [filteredNodes] for a value of [filterStatus]
    (['all'] or a status). *)
Definition shown (filterStatus : string) (n : NodeHealth.t) : bool :=
  if String.eqb filterStatus "all" then true
  else if String.eqb filterStatus "healthy" then is_healthy n
  else if String.eqb filterStatus "unhealthy" then is_unhealthy n
  else String.eqb (NodeHealth.status n) filterStatus.

Section Sorting.
(** [Array.prototype.sort] with the comparator on [statusOrder]. *)
Variable sort : list NodeHealth.t -> list NodeHealth.t.

(** [filteredNodes], on [Array.from(nodes.values())]. *)
Definition filteredNodes (filterStatus : string) (all : list NodeHealth.t)
  : list NodeHealth.t :=
  sort (List.filter (shown filterStatus) all).

End Sorting.

(** [stats]. *)
Record Stats := mkStats {
  total : nat;
  healthy : nat;
  degraded : nat;
  unhealthy : nat;
  offline : nat;
}.

Definition stats (all : list NodeHealth.t) : Stats :=
  {| total := length all;
     healthy := length (List.filter is_healthy all);
     degraded :=
       length (List.filter (fun n => String.eqb (NodeHealth.status n) "degraded") all);
     unhealthy := length (List.filter is_unhealthy all);
     offline :=
       length (List.filter (fun n => String.eqb (NodeHealth.status n) "offline") all) |}.

(** The statuses [stats] has a counter for. *)
Definition counted (n : NodeHealth.t) : bool :=
  is_healthy n || String.eqb (NodeHealth.status n) "degraded" || is_unhealthy n
  || String.eqb (NodeHealth.status n) "offline".

Definition fleet : list NodeHealth.t :=
  [ {| NodeHealth.nodeId := "node-a"; NodeHealth.status := "Ready" |};
    {| NodeHealth.nodeId := "node-b"; NodeHealth.status := "healthy" |};
    {| NodeHealth.nodeId := "node-c"; NodeHealth.status := "NotReady" |};
    {| NodeHealth.nodeId := "node-d"; NodeHealth.status := "Unknown" |} ].

End NodeStatus.

(** * Vocabulary of the further properties *)

(** ** Peers joining and leaving, the message log *)

Module Roster.
Import P2P.



(** [{ type: "pong" }]. *)
Definition pong : Message :=
  {| type := "pong"; flat := Frames.nobody; m_peers := None; peer_info := None;
     data := None; m_chat := Frames.no_chat |}.

(** [message.data || message], the entry a [chat_message] frame adds. *)
Definition incoming (message : Message) : ChatMessage.t :=
  match data message with
  | Some d => d_chat d
  | None => m_chat message
  end.

(** The entry an event adds to the message log, if it adds one: a
    [chat_message] frame delivered on an open socket, or the echo of a
    [sendChat] that goes through. *)
Definition appends (e : Event) (w : World) : option ChatMessage.t :=
  match e with
  | Received ws (Some message) =>
      if decide (Browser.readyState ws (env w) = Some Browser.OPEN) then
        if decide (type message = "chat_message") then Some (incoming message) else None
      else None
  | SendChat content to =>
      match Hook.wsRef (refs w), Hook.ws_readyState (refs w) (env w) with
      | Some _, Some Browser.OPEN => Some (Chat.echo content to w)
      | _, _ => None
      end
  | _ => None
  end.

Definition hello : ChatMessage.t :=
  {| ChatMessage.id := "m-1"; ChatMessage.from := "xyz"; ChatMessage.from_name := "Bob";
     ChatMessage.to := None; ChatMessage.content := "hello"; ChatMessage.timestamp := 1 |}.

(** [{ type: "chat_message", data: { ...hello } }]. *)
Definition chat_hello : Message :=
  {| type := "chat_message"; flat := Frames.nobody; m_peers := None; peer_info := None;
     data := Some {| d_peer_id := None; d_peers := None; d_peer_info := None;
                     d_chat := hello |};
     m_chat := Frames.no_chat |}.

End Roster.

(** ** Time spent waiting for reconnects *)

Module Waiting.

Definition delay_of (e : Browser.Effect) : Z :=
  match e with
  | Browser.SetTimeout _ delay => delay
  | _ => 0
  end.

(** The sum of the delays of all the timeouts requested in a trace. *)
Definition waited (tr : list Browser.Effect) : Z :=
  foldr (fun e acc => delay_of e + acc) 0 tr.

Definition p2p_waited (w : P2P.World) : Z := waited (Browser.trace (P2P.env w)).

Definition orchestrator_waited (w : Orchestrator.World) : Z :=
  waited (Browser.trace (Orchestrator.env w)).

End Waiting.

(** ** Reconnecting *)

Module Reconnect.

(** Some pending timeout is due once [dt] more milliseconds have passed. *)
Definition due_within (dt : Z) (b : Browser.Env) : Prop :=
  exists t d, (t, d) ∈ Browser.timers b /\ d <= Browser.clock b + Z.max 0 dt.

(** Between [b] and [b'] exactly one socket was constructed, for [url];
    it is still connecting. *)
Definition one_more_socket (url : string) (b b' : Browser.Env) : Prop :=
  Browser.attempts (Browser.trace b') = S (Browser.attempts (Browser.trace b))
  /\ Browser.next_socket b' = S (Browser.next_socket b)
  /\ Browser.readyState (Browser.next_socket b) b' = Some Browser.CONNECTING
  /\ Browser.NewWebSocket url (Browser.next_socket b) ∈ Browser.trace b'.

(** The refs of a hook that has just built the socket [ws]. *)
Definition connecting_on (ws : nat) (r : Hook.Refs) : Prop :=
  Hook.wsRef r = Some ws /\ Hook.isConnectingRef r = true.

(** A hook that has given up: five failed connections, budget spent. *)
Definition p2p_exhausted : P2P.World :=
  P2P.run_events P2P.default_options Exhaustion.p2p_outage (P2P.init (fun _ => true)).

(** What may reach a hook without spending budget, starting a connection
    or letting time pass: errors of its sockets, frames, clean closes,
    and the answers of the requests in flight. *)
Definition p2p_bystander (e : P2P.Event) : bool :=
  match e with
  | P2P.Errored _ | P2P.Received _ _ | P2P.InfoSettled _ | P2P.PeersSettled _ => true
  | P2P.Closed _ code => bool_decide (code = 1000)
  | _ => false
  end.

Definition orchestrator_bystander (e : Orchestrator.Event) : bool :=
  match e with
  | Orchestrator.Errored _ | Orchestrator.Received _ _ | Orchestrator.RefreshSettled _
  | Orchestrator.WorkloadsSettled _ | Orchestrator.NodesSettled _
  | Orchestrator.MetricsSettled _ | Orchestrator.CreateSettled _
  | Orchestrator.CancelSettled _ _ | Orchestrator.RetrySettled _ _ => true
  | Orchestrator.Closed _ code => bool_decide (code = 1000)
  | _ => false
  end.

(** Between [b] and [b'] no timeout was set, cleared or fired, no time
    passed and no socket was constructed. *)
Definition same_pending (b b' : Browser.Env) : Prop :=
  Browser.valid_url b' = Browser.valid_url b
  /\ Browser.timers b' = Browser.timers b
  /\ Browser.clock b' = Browser.clock b
  /\ Browser.next_socket b' = Browser.next_socket b
  /\ Browser.attempts (Browser.trace b') = Browser.attempts (Browser.trace b).

(** What reaches the exhausted hook between its restart and the end of
    the 100 ms: a fetch of the last session fails and the last socket
    reports an error. *)
Definition p2p_meanwhile : list P2P.Event :=
  [P2P.InfoSettled (NetworkError "Failed to fetch"); P2P.Errored 4].

End Reconnect.

(** ** Handlers that outlive their socket *)

Module Stale.

(** A hook that was connected on socket 0 and has been restarted with
    [resetConnection]: socket 0 is closing, the hook now holds socket 1. *)
Definition p2p_restarted : P2P.World :=
  P2P.run_events P2P.default_options
    [P2P.Mounted; P2P.Opened 0; P2P.ResetConnection; P2P.Elapsed 100]
    (P2P.init (fun _ => true)).

(** A connected hook, on socket 0. *)
Definition orchestrator_online : Orchestrator.World :=
  Orchestrator.run_events Orchestrator.default_options
    [Orchestrator.Mounted; Orchestrator.Opened 0] (Orchestrator.init (fun _ => true)).

End Stale.

Module LastChance.

(** Four failed connections in a row with the default options; the
    fifth socket is still connecting. *)
Definition p2p_four_down : P2P.World :=
  P2P.run_events P2P.default_options
    [P2P.Mounted;
     P2P.Closed 0 1006; P2P.Elapsed 3000;
     P2P.Closed 1 1006; P2P.Elapsed 6000;
     P2P.Closed 2 1006; P2P.Elapsed 12000;
     P2P.Closed 3 1006; P2P.Elapsed 24000]
    (P2P.init (fun _ => true)).

End LastChance.

(** ** What the connection life cycle leaves alone *)

Module Lifecycle.

(** Events that bring peers: a frame, and the answer of [/api/peers]. *)
Definition p2p_feeds (e : P2P.Event) : bool :=
  match e with
  | P2P.Received _ _ | P2P.PeersSettled _ => true
  | _ => false
  end.

(** Events that bring workloads, nodes or metrics: a frame, and the
    answers of the REST calls. *)
Definition orchestrator_feeds (e : Orchestrator.Event) : bool :=
  match e with
  | Orchestrator.Received _ _
  | Orchestrator.WorkloadsSettled _ | Orchestrator.NodesSettled _
  | Orchestrator.MetricsSettled _ | Orchestrator.CreateSettled _
  | Orchestrator.CancelSettled _ _ | Orchestrator.RetrySettled _ _ => true
  | _ => false
  end.

(** The three stores of [useOrchestrator]. *)
Definition stores (w : Orchestrator.World) :=
  (Orchestrator.workloads (Orchestrator.state w),
   Orchestrator.nodes (Orchestrator.state w),
   Orchestrator.clusterMetrics (Orchestrator.state w)).

(** A connection that is lost and found again: the socket closes
    abnormally, the reconnect fires, the new socket opens, and the user
    restarts the connection on top of it. *)
Definition p2p_bumpy : list P2P.Event :=
  [P2P.Errored 0; P2P.Closed 0 1006; P2P.Elapsed 3000; P2P.Opened 1;
   P2P.ResetConnection; P2P.Elapsed 100; P2P.Disconnect; P2P.Unmounted].

End Lifecycle.

(** ** Workload and node events *)

Module Upsert.
Import Orchestrator.

(** The four events that carry one workload. *)
Definition carriers : list (Workload.t -> OrchestratorEvent) :=
  [workload_created; workload_updated; workload_completed; workload_failed].

Definition done : Workload.t :=
  {| Workload.id := "w-1"; Workload.status := "completed"; Workload.progress := 1%Q;
     Workload.createdAt := "2024-01-01T00:00:00Z" |}.

Definition still_running : Workload.t :=
  {| Workload.id := "w-1"; Workload.status := "running"; Workload.progress := (1 # 2)%Q;
     Workload.createdAt := "2024-01-01T00:00:00Z" |}.

(** The frame [sendWorkloadCommand] writes when the socket the hook
    holds is open. *)
Definition command_frames (command workloadId : string) (w : World)
  : list Browser.Effect :=
  match Hook.wsRef (refs w), Hook.ws_readyState (refs w) (env w) with
  | Some ws, Some Browser.OPEN =>
      [Browser.WsSend ws (Browser.workload_command command workloadId)]
  | _, _ => []
  end.

Definition create_url (o : UseOrchestratorOptions) : string :=
  apiUrl o +:+ "/orchestrator/workloads".

End Upsert.

(** ** The local identity, and what an open sets off *)

Module Identity.

(** The requests [ws.onopen] issues, [useP2P]. *)
Definition p2p_resync (o : P2P.UseP2POptions) : list Browser.Effect :=
  [Browser.Fetch "GET" (P2P.apiUrl o +:+ "/api/info");
   Browser.Fetch "GET" (P2P.apiUrl o +:+ "/api/peers")].

(** The requests and frames [ws.onopen] issues on the socket [ws],
    [useOrchestrator]. *)
Definition orchestrator_resync (o : Orchestrator.UseOrchestratorOptions) (ws : nat)
  : list Browser.Effect :=
  [Browser.Fetch "GET" (Orchestrator.apiUrl o +:+ "/orchestrator/workloads");
   Browser.Fetch "GET" (Orchestrator.apiUrl o +:+ "/orchestrator/nodes");
   Browser.Fetch "GET" (Orchestrator.apiUrl o +:+ "/orchestrator/metrics");
   Browser.WsSend ws (Browser.subscribe "orchestrator");
   Browser.WsSend ws (Browser.subscribe "workloads");
   Browser.WsSend ws (Browser.subscribe "nodes");
   Browser.WsSend ws (Browser.subscribe "cluster")].

End Identity.

(** * Properties *)

Module AsyncFacts.

(** A call suspended on its fetch is resumed by [settle]. *)
Lemma settle_resume {W B R} (p : Proc W B R) (w w' : W) (o : FetchOutcome B) m u k :
  (start p w).2 = Suspended m u k -> settle p o w' = resume (start p w).2 o w'.
Proof.
  revert w. induction p as [r|e|f p IH|m' u' k' _]; intros w Hs; simpl in *.
  - discriminate.
  - discriminate.
  - unfold settle in *. simpl. by apply IH.
  - reflexivity.
Qed.

End AsyncFacts.

Module JsFacts.
Import Js.

Lemma truthy_Some_ne s : truthy (Some s) = true <-> s <> "".
Proof.
  unfold truthy. destruct (String.eqb_spec s ""); simpl; split; intros; congruence.
Qed.

Lemma truthy_is_Some v : truthy v = true -> exists s, v = Some s /\ s <> "".
Proof.
  destruct v as [s|]; [|discriminate].
  intros H. exists s. split; [reflexivity|]. by apply truthy_Some_ne.
Qed.

Lemma slice_last_length {A} n (l : list A) : (length (slice_last n l) <= n)%nat.
Proof. unfold slice_last. rewrite length_drop. lia. Qed.

End JsFacts.

Module StoreFacts.
Import Store.

Section Merge.
Context {A V : Type}.
Variable key : A -> string.
Variable val : A -> V.
Variable keep : A -> bool.
Variable step : gmap string V -> A -> gmap string V.
Hypothesis step_spec :
  forall m a, step m a = if keep a then <[key a := val a]> m else m.

Local Abbreviation merged := (Store.merged key val keep).

Lemma foldl_frame (received : list A) (m : gmap string V) k :
  (forall a, a ∈ received -> keep a = true -> key a <> k) ->
  foldl step m received !! k = m !! k.
Proof using step_spec.
  revert m. induction received as [|a l IH]; intros m Hk; [reflexivity|].
  simpl. rewrite IH.
  - rewrite step_spec. destruct (keep a) eqn:Ha; [|reflexivity].
    apply lookup_insert_ne. apply Hk; [left|exact Ha].
  - intros b Hb. apply Hk. by right.
Qed.

Lemma foldl_last (received : list A) (m : gmap string V) a :
  last_of_key key keep a received -> foldl step m received !! key a = Some (val a).
Proof using step_spec.
  intros (Ha & l1 & l2 & -> & Hl2).
  rewrite foldl_app. simpl. rewrite foldl_frame by exact Hl2.
  rewrite step_spec, Ha. apply lookup_insert_eq.
Qed.

(** Every kept row is followed by the last kept row of its key. *)
Lemma last_of_key_exists (received : list A) a :
  a ∈ received -> keep a = true ->
  exists a', last_of_key key keep a' received /\ key a' = key a.
Proof.
  revert a. induction received as [|b l IH]; intros a Hin Ha;
    [by apply elem_of_nil in Hin|].
  destruct (decide (Exists (fun c => keep c = true /\ key c = key a) l)) as [Hl|Hl].
  - apply Exists_exists in Hl as (c & Hc & Hkc & Hkey).
    destruct (IH c Hc Hkc) as (a' & (Hk & l1 & l2 & -> & Hl2) & Hkey').
    exists a'. split; [|congruence].
    split; [exact Hk|]. by exists (b :: l1), l2.
  - assert (a = b) as <-.
    { apply elem_of_cons in Hin as [->|Hin]; [done|].
      exfalso. apply Hl, Exists_exists. eauto. }
    exists a. split; [|reflexivity]. split; [exact Ha|].
    exists [], l. split; [reflexivity|].
    intros c Hc Hkc Heq. apply Hl, Exists_exists. eauto.
Qed.

Lemma foldl_merged (received : list A) (m : gmap string V) :
  merged received m (foldl step m received).
Proof using step_spec.
  split; [|split].
  - intros a Ha Hk. destruct (last_of_key_exists received a Ha Hk) as (a' & Hlast & Hkey).
    exists a'. split; [exact Hlast|]. split; [exact Hkey|].
    rewrite <- Hkey. by apply foldl_last.
  - intros a Ha. by apply foldl_last.
  - intros k Hk. by apply foldl_frame.
Qed.

Lemma merged_additive (received : list A) (before after : gmap string V) :
  merged received before after -> Store.additive key val keep received before after.
Proof.
  intros (Hp & _ & Hf). split; [|exact Hf].
  intros a Ha Hk. destruct (Hp a Ha Hk) as (a' & (Hk' & l1 & l2 & -> & _) & Hkey & Hlk).
  exists a'. split; [|done]. apply elem_of_app. right. left.
Qed.

(** A property of the entries that every kept row has survives the
    loop. *)
Lemma foldl_Forall (P : string -> V -> Prop) (received : list A) (m : gmap string V) :
  map_Forall P m ->
  (forall a, a ∈ received -> keep a = true -> P (key a) (val a)) ->
  map_Forall P (foldl step m received).
Proof using step_spec.
  revert m. induction received as [|a l IH]; intros m Hm Hl; [exact Hm|].
  simpl. apply IH.
  - rewrite step_spec. destruct (keep a) eqn:Ha; [|exact Hm].
    apply map_Forall_insert_2; [|exact Hm]. apply Hl; [left|exact Ha].
  - intros b Hb. apply Hl. by right.
Qed.

End Merge.

Lemma keyed_ids {V} (key : V -> string) (m : gmap string V) :
  keyed key m -> key <$> list_all m = (map_to_list m).*1.
Proof.
  intros Hm. unfold list_all. rewrite <- list_fmap_compose.
  apply list_fmap_ext. intros i [k v] Hkv. simpl.
  apply Hm. apply elem_of_map_to_list. by eapply list_elem_of_lookup_2.
Qed.

(** In a keyed store no two listed entities share an identifier. *)
Lemma keyed_NoDup {V} (key : V -> string) (m : gmap string V) :
  keyed key m -> NoDup (key <$> list_all m).
Proof. intros Hm. rewrite (keyed_ids key m Hm). apply NoDup_fst_map_to_list. Qed.

Lemma keyed_unique {V} (key : V -> string) (m : gmap string V) k1 k2 v1 v2 :
  keyed key m -> m !! k1 = Some v1 -> m !! k2 = Some v2 -> key v1 = key v2 -> k1 = k2.
Proof.
  intros Hm H1 H2 Heq. apply Hm in H1. apply Hm in H2. simpl in *. congruence.
Qed.

End StoreFacts.

Module SnapshotFacts.
Import P2P.
Import Snapshot.

Lemma put_peer_spec m peer :
  put_peer m peer = if peer_kept peer then <[peer_key peer := normalizePeer peer]> m else m.
Proof. reflexivity. Qed.

Lemma put_peers_merged received m :
  Store.merged peer_key normalizePeer peer_kept received m (put_peers received m).
Proof. apply StoreFacts.foldl_merged, put_peer_spec. Qed.

Lemma put_workloads_merged received m :
  Store.merged Workload.id (fun w => w) always received m
               (Orchestrator.put_workloads received m).
Proof. apply StoreFacts.foldl_merged. reflexivity. Qed.

Lemma put_nodes_merged received m :
  Store.merged NodeHealth.nodeId (fun n => n) always received m
               (Orchestrator.put_nodes received m).
Proof. apply StoreFacts.foldl_merged. reflexivity. Qed.

End SnapshotFacts.

(** C1, as the specification states it, fails on [fetchPeers]: peer [abc]
    is in the store before the fetch settles, the fetched snapshot does
    not mention it, and it is gone afterwards. *)
Lemma fetched_snapshot_drops_known_peer :
  ~ Store.additive Snapshot.peer_key P2P.normalizePeer Snapshot.peer_kept
      [Snapshot.newcomer]
      (P2P.peers (P2P.state Snapshot.before)) (P2P.peers (P2P.state Snapshot.after)).
Proof.
  intros [_ Hframe]. specialize (Hframe "abc").
  assert (P2P.peers (P2P.state Snapshot.after) !! "abc"
          = P2P.peers (P2P.state Snapshot.before) !! "abc") as Heq.
  { apply Hframe. intros a Ha _. apply list_elem_of_singleton in Ha. subst a.
    vm_compute. discriminate. }
  vm_compute in Heq. discriminate.
Qed.

(** C1 (amended).  A pushed collection snapshot ([peers_list],
    [workload_list], [node_list]) is merged into the store: afterwards an
    entity of the snapshot sits under every identifier the snapshot
    carries (for peers: every non-empty one; the last row of an identifier
    wins) and every entry whose identifier the snapshot does not carry is
    as before.  A fetched snapshot ([fetchPeers], [fetchWorkloads],
    [fetchNodes]) replaces the store: the result is the same merge, but
    into the empty store, so entries absent from the snapshot are gone. *)
Theorem snapshot_pushed_merges_fetched_replaces :
  (forall flat m_peers peer_info data m_chat w,
     let message := P2P.mkMessage "peers_list" flat m_peers peer_info data m_chat in
     Store.merged Snapshot.peer_key P2P.normalizePeer Snapshot.peer_kept
       (Snapshot.pushed_peers message)
       (P2P.peers (P2P.state w))
       (P2P.peers (P2P.state (P2P.handleMessage message w))))
  /\ (forall data w,
        Store.merged Workload.id (fun x => x) Snapshot.always (default [] data)
          (Orchestrator.workloads (Orchestrator.state w))
          (Orchestrator.workloads (Orchestrator.state
             (Orchestrator.handleMessage (Orchestrator.workload_list data) w))))
  /\ (forall data w,
        Store.merged NodeHealth.nodeId (fun x => x) Snapshot.always (default [] data)
          (Orchestrator.nodes (Orchestrator.state w))
          (Orchestrator.nodes (Orchestrator.state
             (Orchestrator.handleMessage (Orchestrator.node_list data) w))))
  /\ (forall o ok status received w,
        let after := (settle (P2P.fetchPeers o)
                        (Responded (mkResponse ok status (Some received))) w).1 in
        Store.merged Snapshot.peer_key P2P.normalizePeer Snapshot.peer_kept received
          ∅ (P2P.peers (P2P.state after)))
  /\ (forall o status data w,
        let after := (settle (Orchestrator.fetchWorkloads o)
                        (Responded (mkResponse true status (Some data))) w).1 in
        Store.merged Workload.id (fun x => x) Snapshot.always
          (Orchestrator.list_of_body data)
          ∅ (Orchestrator.workloads (Orchestrator.state after)))
  /\ (forall o status data w,
        let after := (settle (Orchestrator.fetchNodes o)
                        (Responded (mkResponse true status (Some data))) w).1 in
        Store.merged NodeHealth.nodeId (fun x => x) Snapshot.always
          (Orchestrator.list_of_body data)
          ∅ (Orchestrator.nodes (Orchestrator.state after))).
Proof.
  repeat match goal with |- _ /\ _ => split end; intros; cbn.
  - apply SnapshotFacts.put_peers_merged.
  - apply SnapshotFacts.put_workloads_merged.
  - apply SnapshotFacts.put_nodes_merged.
  - apply SnapshotFacts.put_peers_merged.
  - apply SnapshotFacts.put_workloads_merged.
  - apply SnapshotFacts.put_nodes_merged.
Qed.

Module P2PStoreFacts.
Import P2P Snapshot SnapshotFacts.
Import P2PStore.

Ltac crush :=
  repeat first
    [ progress (cbn [state refs env setState setRefs setEnv fst snd
                     set_connected set_localPeerId set_peers set_messages
                     connected localPeerId peers messages] in * )
    | case_decide | case_match | progress simplify_eq ].

Lemma connect_state o w : state (connect o w) = state w.
Proof. unfold connect. crush; reflexivity. Qed.

Lemma disconnect_state w : state (disconnect w) = state w.
Proof. unfold disconnect. crush; reflexivity. Qed.

Lemma run_timers_state o fuel w : state (run_timers o fuel w) = state w.
Proof.
  revert w. induction fuel as [|n IH]; intros w; [reflexivity|].
  simpl. destruct (Browser.next_due _ _) as [[t d]|]; [|reflexivity].
  rewrite IH. unfold fire. by rewrite connect_state.
Qed.

Lemma advance_state o dt w : state (advance o dt w) = state w.
Proof. unfold advance. by rewrite run_timers_state. Qed.

Lemma with_id_key v peer :
  Js.truthy (Some v) = true -> peer_key (RawPeer.with_id v peer) = v.
Proof.
  intros Hv. unfold peer_key, normalizePeer, RawPeer.with_id.
  cbn [RawPeer.id RawPeer.peer_id NormalizedPeer.id]. unfold Js.or_str at 1.
  by rewrite Hv.
Qed.

Lemma peer_kept_key peer : peer_kept peer = true -> peer_key peer <> "".
Proof. intros H. by apply JsFacts.truthy_Some_ne. Qed.

Lemma put_peers_Forall (P : string -> NormalizedPeer.t -> Prop) received m :
  map_Forall P m ->
  (forall peer, peer ∈ received -> peer_kept peer = true ->
     P (peer_key peer) (normalizePeer peer)) ->
  map_Forall P (put_peers received m).
Proof. apply (StoreFacts.foldl_Forall peer_key normalizePeer peer_kept), put_peer_spec. Qed.

Lemma handleMessage_peers (P : string -> NormalizedPeer.t -> Prop) ws message w :
  map_Forall P (peers (state w)) ->
  (forall peer, peer ∈ carried (Received ws (Some message)) -> peer_kept peer = true ->
     P (peer_key peer) (normalizePeer peer)) ->
  map_Forall P (peers (state (handleMessage message w))).
Proof.
  intros Hw He. unfold handleMessage. simpl in He.
  destruct (decide (type message = "peers_list")).
  { simpl. by apply put_peers_Forall. }
  destruct (decide (type message = "peer_joined")).
  { unfold joined in He.
    destruct (Js.truthy (find_peer_id message)) eqn:Hid; [|exact Hw].
    simpl. destruct (JsFacts.truthy_is_Some _ Hid) as (v & Hv & _).
    rewrite Hv in *. simpl in *.
    pose proof (with_id_key v
      (default (flat message)
         (Js.or_obj (peer_info message) (data message ≫= d_peer_info))) Hid) as Hkey.
    apply map_Forall_insert_2; [|exact Hw].
    rewrite <- Hkey at 1. apply He; [apply list_elem_of_singleton; reflexivity|].
    unfold peer_kept. by rewrite Hkey. }
  destruct (decide (type message = "peer_left")).
  { destruct (Js.truthy (find_peer_id message)); [|exact Hw].
    simpl. by apply map_Forall_delete. }
  destruct (decide (type message = "chat_message")); exact Hw.
Qed.

(** One event: a property of the entries of the peers store is kept
    when the peers the event carries have it. *)
Lemma react_peers (P : string -> NormalizedPeer.t -> Prop) o e w :
  map_Forall P (peers (state w)) ->
  (forall peer, peer ∈ carried e -> peer_kept peer = true ->
     P (peer_key peer) (normalizePeer peer)) ->
  map_Forall P (peers (state (react o e w))).
Proof.
  intros Hw He. destruct e; simpl react.
  - by rewrite connect_state.
  - by rewrite disconnect_state.
  - case_decide; [|exact Hw]. exact Hw.
  - unfold ws_onclose. crush; exact Hw.
  - unfold ws_onerror. crush; exact Hw.
  - case_decide; [|exact Hw]. destruct payload as [message|]; [|exact Hw].
    simpl. by eapply handleMessage_peers.
  - by rewrite advance_state.
  - destruct r as [msg|[okr st [info|]]]; exact Hw.
  - destruct r as [msg|[okr st [received|]]]; try exact Hw.
    simpl. apply put_peers_Forall; [apply map_Forall_empty|exact He].
  - unfold sendChat. crush; exact Hw.
  - by rewrite disconnect_state.
  - unfold resetConnection. simpl. by rewrite disconnect_state.
  - exact Hw.
Qed.

Lemma run_events_peers (P : string -> NormalizedPeer.t -> Prop) o es w :
  map_Forall P (peers (state w)) ->
  (forall e peer, e ∈ es -> peer ∈ carried e -> peer_kept peer = true ->
     P (peer_key peer) (normalizePeer peer)) ->
  map_Forall P (peers (state (run_events o es w))).
Proof.
  revert w. induction es as [|e es IH]; intros w Hw Hes; [exact Hw|].
  simpl. apply IH.
  - apply react_peers; [exact Hw|]. intros peer. apply Hes. left.
  - intros e' peer He'. apply Hes. by right.
Qed.

End P2PStoreFacts.

Module OrchestratorStoreFacts.
Import Orchestrator.
Import OrchestratorStore.

Ltac crush :=
  repeat first
    [ progress (cbn [state refs env setState setRefs setEnv fst snd
                     set_connected set_loading set_error set_workloads set_nodes
                     set_clusterMetrics connected loading error workloads nodes
                     clusterMetrics] in * )
    | case_decide | case_match | progress simplify_eq ].

Section Stores.
(** A property of an entry that only looks at its key and at the
    identifier of its entity. *)
Variable Q : string -> string -> Prop.

Local Abbreviation workloads_ok := (OrchestratorStore.workloads_ok Q).
Local Abbreviation nodes_ok := (OrchestratorStore.nodes_ok Q).
Local Abbreviation stores_ok := (OrchestratorStore.stores_ok Q).
Local Abbreviation brings_ok := (OrchestratorStore.brings_ok Q).

Lemma put_workloads_ok received m :
  map_Forall (fun k v => Q k (Workload.id v)) m ->
  (forall v, v ∈ received -> Q (Workload.id v) (Workload.id v)) ->
  map_Forall (fun k v => Q k (Workload.id v)) (put_workloads received m).
Proof.
  intros Hm Hr.
  apply (StoreFacts.foldl_Forall Workload.id (fun v => v) Snapshot.always); auto.
Qed.

Lemma put_nodes_ok received m :
  map_Forall (fun k v => Q k (NodeHealth.nodeId v)) m ->
  (forall v, v ∈ received -> Q (NodeHealth.nodeId v) (NodeHealth.nodeId v)) ->
  map_Forall (fun k v => Q k (NodeHealth.nodeId v)) (put_nodes received m).
Proof.
  intros Hm Hr.
  apply (StoreFacts.foldl_Forall NodeHealth.nodeId (fun v => v) Snapshot.always); auto.
Qed.

Lemma connect_stores o w : stores_ok w -> stores_ok (connect o w).
Proof. unfold connect, stores_ok, workloads_ok, nodes_ok. crush; auto. Qed.

Lemma disconnect_stores w : stores_ok w -> stores_ok (disconnect w).
Proof. unfold disconnect, stores_ok, workloads_ok, nodes_ok. crush; auto. Qed.

Lemma run_timers_stores o fuel w : stores_ok w -> stores_ok (run_timers o fuel w).
Proof.
  revert w. induction fuel as [|n IH]; intros w Hw; [exact Hw|].
  simpl. destruct (Browser.next_due _ _) as [[t d]|]; [|exact Hw].
  apply IH. unfold fire. apply connect_stores. exact Hw.
Qed.

Lemma handleMessage_stores ws event w :
  stores_ok w -> brings_ok (Received ws (Some event)) ->
  stores_ok (handleMessage event w).
Proof.
  intros [Hw Hn] [Hbw Hbn]. unfold stores_ok, workloads_ok, nodes_ok in *.
  destruct event; simpl in *; (split; [try exact Hw|try exact Hn]).
  - apply put_workloads_ok; auto.
  - apply map_Forall_insert_2; [apply Hbw; left|exact Hw].
  - apply map_Forall_insert_2; [apply Hbw; left|exact Hw].
  - apply map_Forall_insert_2; [apply Hbw; left|exact Hw].
  - apply map_Forall_insert_2; [apply Hbw; left|exact Hw].
  - apply put_nodes_ok; auto.
  - apply map_Forall_insert_2; [apply Hbn; left|exact Hn].
  - apply map_Forall_insert_2; [apply Hbn; left|exact Hn].
  - by apply map_Forall_delete.
Qed.

Lemma sendWorkloadCommand_state command workloadId w :
  state (sendWorkloadCommand command workloadId w) = state w.
Proof. unfold sendWorkloadCommand. crush; reflexivity. Qed.

(** The optimistic updates of [cancelWorkload] and [retryWorkload]
    rewrite an entry in place and keep its identifier. *)
Lemma restatus_stores (f : Workload.t -> Workload.t) command workloadId w :
  (forall v, Workload.id (f v) = Workload.id v) ->
  stores_ok w ->
  stores_ok
    (sendWorkloadCommand command workloadId
       (setState (fun s =>
          match workloads s !! workloadId with
          | Some workload => set_workloads (<[workloadId := f workload]> (workloads s)) s
          | None => s
          end) w)).
Proof.
  intros Hf [Hw Hn]. unfold stores_ok, workloads_ok, nodes_ok in *.
  rewrite sendWorkloadCommand_state. simpl.
  destruct (workloads (state w) !! workloadId) as [v|] eqn:Hv; [|by split].
  simpl. split; [|exact Hn].
  apply map_Forall_insert_2; [|exact Hw]. rewrite Hf. by apply Hw in Hv.
Qed.

Lemma react_stores o e w : stores_ok w -> brings_ok e -> stores_ok (react o e w).
Proof.
  intros Hw He. destruct e; simpl react.
  - destruct (autoConnect o); [by apply connect_stores|exact Hw].
  - by apply disconnect_stores.
  - case_decide; exact Hw.
  - unfold ws_onclose, stores_ok, workloads_ok, nodes_ok in *. crush; exact Hw.
  - destruct (Browser.readyState ws (env w)); exact Hw.
  - case_decide; [|exact Hw]. destruct payload as [event|]; [|exact Hw].
    simpl. destruct (for_orchestrator _); [|exact Hw].
    by eapply handleMessage_stores.
  - unfold advance. by apply run_timers_stores.
  - by apply connect_stores.
  - by apply disconnect_stores.
  - unfold resetConnection. apply disconnect_stores in Hw. exact Hw.
  - exact Hw.
  - destruct rejected; exact Hw.
  - exact Hw.
  - exact Hw.
  - exact Hw.
  - destruct Hw as [Hw Hn], He as [Hbw _].
    destruct r as [msg|[[] st [data|]]]; simpl in *; (split; [|exact Hn]); try exact Hw.
    apply put_workloads_ok; [apply map_Forall_empty|exact Hbw].
  - destruct Hw as [Hw Hn], He as [_ Hbn].
    destruct r as [msg|[[] st [data|]]]; simpl in *; (split; [exact Hw|]); try exact Hn.
    apply put_nodes_ok; [apply map_Forall_empty|exact Hbn].
  - destruct r as [msg|[[] st [data|]]]; exact Hw.
  - exact Hw.
  - destruct Hw as [Hw Hn], He as [Hbw _].
    destruct r as [msg|[[] st [v|]]]; simpl in *; (split; [|exact Hn]); try exact Hw.
    apply map_Forall_insert_2; [apply Hbw; left|exact Hw].
  - exact Hw.
  - destruct r as [msg|[[] st b]]; try exact Hw.
    by apply (restatus_stores (Workload.with_status "cancelled")).
  - exact Hw.
  - destruct r as [msg|[[] st b]]; try exact Hw.
    by apply (restatus_stores (Workload.with_status_progress "pending" 0%Q)).
  - exact Hw.
Qed.

Lemma run_events_stores o es w :
  stores_ok w -> Forall brings_ok es -> stores_ok (run_events o es w).
Proof.
  revert w. induction es as [|e es IH]; intros w Hw Hes; [exact Hw|].
  apply Forall_cons in Hes as [He Hes]. simpl. apply IH; [|exact Hes].
  by apply react_stores.
Qed.

End Stores.

End OrchestratorStoreFacts.

Module IdentifiersFacts.
Import Identifiers.

Lemma peers_keyed valid o es :
  map_Forall (fun k p => NormalizedPeer.id p = k /\ k <> "")
    (P2P.peers (P2P.state (P2P.run_events o es (P2P.init valid)))).
Proof.
  apply P2PStoreFacts.run_events_peers; [apply map_Forall_empty|].
  intros e peer _ _ Hkept. split; [reflexivity|]. by apply P2PStoreFacts.peer_kept_key.
Qed.

Lemma orchestrator_keyed valid o es :
  OrchestratorStore.stores_ok (fun k i => i = k)
    (Orchestrator.run_events o es (Orchestrator.init valid)).
Proof.
  apply OrchestratorStoreFacts.run_events_stores.
  - split; apply map_Forall_empty.
  - apply Forall_forall. intros e _. split; reflexivity.
Qed.

End IdentifiersFacts.

(** C8, as the specification states it, fails on the workloads store:
    the hook stores a pushed workload under whatever identifier it
    carries, the empty one included. *)
Lemma workloads_store_takes_empty_identifier :
  ~ Store.identified
      (Orchestrator.workloads (Orchestrator.state
         (Orchestrator.run_events Orchestrator.default_options Identifiers.pushed_anonymous
            (Orchestrator.init (fun _ => true))))).
Proof.
  intros H. specialize (H "" Identifiers.anonymous).
  apply H; [vm_compute|]; reflexivity.
Qed.

(** C8 (amended).  After every sequence of events, each store holds each
    entity under that entity's own identifier, so that no two listed
    entities share an identifier; the peers store holds no entity with an
    empty identifier; the workloads and nodes stores hold none either as
    long as no event carried one (these two stores keep the identifiers
    as received). *)
Theorem stores_keyed_by_identifier :
  (forall valid o es,
     let peers := P2P.peers (P2P.state (P2P.run_events o es (P2P.init valid))) in
     Store.keyed NormalizedPeer.id peers
     /\ Store.identified peers
     /\ NoDup (NormalizedPeer.id <$> Store.list_all peers))
  /\ (forall valid o es,
        let w := Orchestrator.run_events o es (Orchestrator.init valid) in
        let workloads := Orchestrator.workloads (Orchestrator.state w) in
        let nodes := Orchestrator.nodes (Orchestrator.state w) in
        Store.keyed Workload.id workloads
        /\ NoDup (Workload.id <$> Store.list_all workloads)
        /\ Store.keyed NodeHealth.nodeId nodes
        /\ NoDup (NodeHealth.nodeId <$> Store.list_all nodes))
  /\ (forall valid o es,
        Forall Identifiers.identified_event es ->
        let w := Orchestrator.run_events o es (Orchestrator.init valid) in
        Store.identified (Orchestrator.workloads (Orchestrator.state w))
        /\ Store.identified (Orchestrator.nodes (Orchestrator.state w))).
Proof.
  split; [|split].
  - intros valid o es peers.
    assert (Store.keyed NormalizedPeer.id peers) as Hkeyed.
    { intros k p Hp. by apply (IdentifiersFacts.peers_keyed valid o es) in Hp as [? _]. }
    split; [exact Hkeyed|]. split; [|by apply StoreFacts.keyed_NoDup].
    intros k p Hp. by apply (IdentifiersFacts.peers_keyed valid o es) in Hp as [_ ?].
  - intros valid o es w workloads nodes.
    destruct (IdentifiersFacts.orchestrator_keyed valid o es) as [Hw Hn].
    split; [exact Hw|]. split; [by apply StoreFacts.keyed_NoDup|].
    split; [exact Hn|]. by apply StoreFacts.keyed_NoDup.
  - intros valid o es Hes w.
    apply (OrchestratorStoreFacts.run_events_stores (fun k _ => k <> "")); [|exact Hes].
    split; apply map_Forall_empty.
Qed.

(** The conditional part at work: workload [w-1] is pushed to a
    connected hook. *)
Lemma stores_keyed_by_identifier_witness :
  Forall Identifiers.identified_event Identifiers.pushed_job
  /\ Store.identified
       (Orchestrator.workloads (Orchestrator.state
          (Orchestrator.run_events Orchestrator.default_options Identifiers.pushed_job
             (Orchestrator.init (fun _ => true))))).
Proof.
  assert (Forall Identifiers.identified_event Identifiers.pushed_job) as Hes.
  { repeat constructor; simpl; intros v Hv; try (by apply elem_of_nil in Hv).
    apply list_elem_of_singleton in Hv. subst v. simpl. discriminate. }
  split; [exact Hes|].
  exact (proj1 (proj2 (proj2 stores_keyed_by_identifier) (fun _ => true)
                  Orchestrator.default_options _ Hes)).
Defined.

Module ReputationFacts.
Import Reputation.

Lemma normalizePeer_in_unit peer :
  rated_in_unit (RawPeer.reputation peer) ->
  in_unit (NormalizedPeer.reputation (P2P.normalizePeer peer)).
Proof.
  unfold P2P.normalizePeer, rated_in_unit. simpl.
  destruct (RawPeer.reputation peer) as [q|[score|]|]; intros H; try exact H.
  all: split; unfold Qle; simpl; lia.
Qed.

End ReputationFacts.

(** C9, as the specification states it, fails: a numeric reputation is
    stored as received, here 5. *)
Lemma stored_reputation_above_one :
  ~ map_Forall (fun _ p => Reputation.in_unit (NormalizedPeer.reputation p))
      (P2P.peers (P2P.state
         (P2P.run_events P2P.default_options Reputation.pushed_overrated
            (P2P.init (fun _ => true))))).
Proof.
  intros H. specialize (H "abc" (P2P.normalizePeer Reputation.overrated)).
  destruct H as [_ H]; [vm_compute; reflexivity|].
  vm_compute in H. by apply H.
Qed.

(** C9 (amended).  The normalizer does not clamp: the reputation of a
    normalized peer is in [0,1] when the payload's numeric [reputation],
    or else its [reputation.score], is in [0,1] or is missing (it then
    defaults to 0.5); and the peers store holds only reputations in
    [0,1] as long as every peer the events carried was so rated. *)
Theorem reputation_in_unit_when_payload_is :
  (forall peer,
     Reputation.rated_in_unit (RawPeer.reputation peer) ->
     Reputation.in_unit (NormalizedPeer.reputation (P2P.normalizePeer peer)))
  /\ (forall peer,
        NormalizedPeer.reputation (P2P.normalizePeer peer)
        = match RawPeer.reputation peer with
          | RawPeer.number r => r
          | RawPeer.object (Some score) => score
          | RawPeer.object None | RawPeer.absent => (1 # 2)%Q
          end)
  /\ (forall valid o es,
        (forall e peer, e ∈ es -> peer ∈ P2PStore.carried e ->
           Reputation.rated_in_unit (RawPeer.reputation peer)) ->
        map_Forall (fun _ p => Reputation.in_unit (NormalizedPeer.reputation p))
          (P2P.peers (P2P.state (P2P.run_events o es (P2P.init valid))))).
Proof.
  split; [exact ReputationFacts.normalizePeer_in_unit|].
  split; [reflexivity|].
  intros valid o es Hes.
  apply P2PStoreFacts.run_events_peers; [apply map_Forall_empty|].
  intros e peer He Hpeer _. apply ReputationFacts.normalizePeer_in_unit. by eapply Hes.
Qed.

Lemma reputation_in_unit_when_payload_is_witness :
  Reputation.rated_in_unit (RawPeer.reputation Reputation.trusted)
  /\ Reputation.in_unit (NormalizedPeer.reputation (P2P.normalizePeer Reputation.trusted))
  /\ (forall e peer, e ∈ Reputation.pushed_trusted -> peer ∈ P2PStore.carried e ->
        Reputation.rated_in_unit (RawPeer.reputation peer))
  /\ map_Forall (fun _ p => Reputation.in_unit (NormalizedPeer.reputation p))
       (P2P.peers (P2P.state (P2P.run_events P2P.default_options Reputation.pushed_trusted
                                (P2P.init (fun _ => true))))).
Proof.
  assert (Reputation.rated_in_unit (RawPeer.reputation Reputation.trusted)) as H.
  { split; unfold Qle; simpl; lia. }
  assert (forall e peer, e ∈ Reputation.pushed_trusted -> peer ∈ P2PStore.carried e ->
            Reputation.rated_in_unit (RawPeer.reputation peer)) as Hes.
  { intros e peer He Hpeer. unfold Reputation.pushed_trusted in He.
    repeat (apply elem_of_cons in He as [->|He]); simpl in Hpeer;
      try (by apply elem_of_nil in Hpeer); try (by apply elem_of_nil in He).
    apply list_elem_of_singleton in Hpeer. subst peer. exact H. }
  split; [exact H|].
  split; [exact (proj1 reputation_in_unit_when_payload_is Reputation.trusted H)|].
  split; [exact Hes|].
  exact (proj2 (proj2 reputation_in_unit_when_payload_is) (fun _ => true)
           P2P.default_options Reputation.pushed_trusted Hes).
Defined.

(** The two scenarios of the specification: the fetched snapshot
    [[{ peer_id: "abc", display_name: "Alice" }]] leaves one peer, [abc]
    named [Alice]; the frame [{ type: "peer_left", peer_id: "abc" }]
    then leaves none. *)
Example scenario_hydrate :
  Store.list_all (P2P.peers (P2P.state Frames.hydrated))
  = [{| NormalizedPeer.id := "abc"; NormalizedPeer.name := "Alice";
        NormalizedPeer.reputation := (1 # 2)%Q; NormalizedPeer.location := None;
        NormalizedPeer.addresses := [] |}].
Proof. vm_compute. reflexivity. Qed.

Example scenario_peer_left :
  Store.list_all (P2P.peers (P2P.state
     (P2P.react P2P.default_options (P2P.Received 0 (Some Frames.left_abc))
        Frames.hydrated))) = [].
Proof. vm_compute. reflexivity. Qed.

(** C7.  A [peer_joined] or [peer_left] frame that has a peer identifier
    neither in its flat [peer_id] field nor under [data] is dropped:
    [handleMessage] leaves the whole world as it is (no store is touched,
    nothing is raised), and so does the delivery of the frame by
    [ws.onmessage]; the socket, its handle and the refs are untouched, so
    the channel goes on. *)
Theorem unidentified_frame_is_dropped :
  forall o ws (message : P2P.Message) w,
    P2P.type message = "peer_joined" \/ P2P.type message = "peer_left" ->
    RawPeer.peer_id (P2P.flat message) = None ->
    P2P.data message ≫= P2P.d_peer_id = None ->
    P2P.handleMessage message w = w
    /\ P2P.ws_onmessage (Some message) w = w
    /\ P2P.react o (P2P.Received ws (Some message)) w = w.
Proof.
  intros o ws message w Htype Hflat Hdata.
  assert (P2P.handleMessage message w = w) as Hdrop.
  { unfold P2P.handleMessage, P2P.find_peer_id. rewrite Hflat, Hdata. simpl.
    destruct Htype as [Ht|Ht]; rewrite Ht; reflexivity. }
  split; [exact Hdrop|]. split; [exact Hdrop|].
  simpl. case_decide; [exact Hdrop|reflexivity].
Qed.

Lemma unidentified_frame_is_dropped_witness :
  (P2P.type Frames.joined_nobody = "peer_joined"
   \/ P2P.type Frames.joined_nobody = "peer_left")
  /\ RawPeer.peer_id (P2P.flat Frames.joined_nobody) = None
  /\ P2P.data Frames.joined_nobody ≫= P2P.d_peer_id = None
  /\ P2P.react P2P.default_options (P2P.Received 0 (Some Frames.joined_nobody))
       Frames.online = Frames.online.
Proof.
  assert (P2P.type Frames.joined_nobody = "peer_joined"
          \/ P2P.type Frames.joined_nobody = "peer_left") as Htype.
  { left. reflexivity. }
  assert (RawPeer.peer_id (P2P.flat Frames.joined_nobody) = None) as Hflat.
  { reflexivity. }
  assert (P2P.data Frames.joined_nobody ≫= P2P.d_peer_id = None) as Hdata.
  { reflexivity. }
  split; [exact Htype|]. split; [exact Hflat|]. split; [exact Hdata|].
  exact (proj2 (proj2 (unidentified_frame_is_dropped P2P.default_options 0
                         Frames.joined_nobody Frames.online Htype Hflat Hdata))).
Defined.

(** C3, as the specification states it, fails: with the channel not open
    [sendChat] returns before the echo; the log stays empty. *)
Lemma sendChat_offline_appends_nothing :
  Hook.ws_readyState (P2P.refs Chat.offline) (P2P.env Chat.offline) <> Some Browser.OPEN
  /\ ~ Chat.echoed "hello" Chat.offline (P2P.sendChat "hello" None Chat.offline).
Proof.
  split; [vm_compute; discriminate|].
  intros (m & Hlog & _). vm_compute in Hlog. discriminate.
Qed.

(** C3 (amended).  While the push channel is not open [sendChat] sends
    nothing and appends nothing: the state (message log included) is as
    before and the only effect is a console warning.  While it is open,
    [sendChat] writes one [send_chat] frame to the socket and appends the
    local echo, tagged with [localPeerId] (or ['unknown']), to the log cut
    to its last 99 entries. *)
Theorem sendChat_echo_only_when_open :
  forall content to w,
    (Hook.ws_readyState (P2P.refs w) (P2P.env w) <> Some Browser.OPEN ->
       P2P.state (P2P.sendChat content to w) = P2P.state w
       /\ Browser.trace (P2P.env (P2P.sendChat content to w))
          = (Browser.trace (P2P.env w)
             ++ [Browser.ConsoleWarn "WebSocket not open! State:"])%list
       /\ Browser.sends (Browser.trace (P2P.env (P2P.sendChat content to w)))
          = Browser.sends (Browser.trace (P2P.env w)))
    /\ (forall ws,
          Hook.wsRef (P2P.refs w) = Some ws ->
          Browser.readyState ws (P2P.env w) = Some Browser.OPEN ->
          Browser.trace (P2P.env (P2P.sendChat content to w))
          = (Browser.trace (P2P.env w)
             ++ [Browser.WsSend ws (Browser.send_chat content to)])%list
          /\ P2P.messages (P2P.state (P2P.sendChat content to w))
             = (Js.slice_last 99 (P2P.messages (P2P.state w))
                ++ [Chat.echo content to w])%list
          /\ Chat.echoed content w (P2P.sendChat content to w)).
Proof.
  intros content to w. split.
  - intros Hclosed. unfold P2P.sendChat, Hook.ws_readyState in *.
    destruct (Hook.wsRef (P2P.refs w)) as [ws|];
      [destruct (Browser.readyState ws (P2P.env w)) as [[]|]; try congruence|];
      simpl; (split; [reflexivity|]); (split; [reflexivity|]);
      unfold Browser.sends; rewrite List.filter_app; simpl; by rewrite app_nil_r.
  - intros ws Href Hopen.
    assert (P2P.messages (P2P.state (P2P.sendChat content to w))
            = (Js.slice_last 99 (P2P.messages (P2P.state w))
               ++ [Chat.echo content to w])%list)
      as Hlog.
    { unfold P2P.sendChat, Hook.ws_readyState. rewrite Href, Hopen. reflexivity. }
    split; [|split; [exact Hlog|]].
    + unfold P2P.sendChat, Hook.ws_readyState. rewrite Href, Hopen. reflexivity.
    + exists (Chat.echo content to w). split; [exact Hlog|]. split; reflexivity.
Qed.

Lemma sendChat_echo_only_when_open_witness :
  Hook.ws_readyState (P2P.refs Chat.offline) (P2P.env Chat.offline) <> Some Browser.OPEN
  /\ P2P.state (P2P.sendChat "hello" None Chat.offline) = P2P.state Chat.offline
  /\ Hook.wsRef (P2P.refs Frames.online) = Some 0%nat
  /\ Browser.readyState 0 (P2P.env Frames.online) = Some Browser.OPEN
  /\ Chat.echoed "hello" Frames.online (P2P.sendChat "hello" None Frames.online).
Proof.
  assert (Hook.ws_readyState (P2P.refs Chat.offline) (P2P.env Chat.offline)
          <> Some Browser.OPEN) as Hoff.
  { vm_compute. discriminate. }
  assert (Hook.wsRef (P2P.refs Frames.online) = Some 0%nat) as Href.
  { vm_compute. reflexivity. }
  assert (Browser.readyState 0 (P2P.env Frames.online) = Some Browser.OPEN) as Hopen.
  { vm_compute. reflexivity. }
  split; [exact Hoff|].
  split; [exact (proj1 (proj1 (sendChat_echo_only_when_open "hello" None Chat.offline)
                          Hoff))|].
  split; [exact Href|]. split; [exact Hopen|].
  exact (proj2 (proj2 (proj2 (sendChat_echo_only_when_open "hello" None Frames.online)
                         0%nat Href Hopen))).
Defined.



Module FetchesFacts.
Import Fetches.

Lemma requests_failed what e w :
  requests (Browser.trace (Orchestrator.env (Commands.failed what e w)))
  = requests (Browser.trace (Orchestrator.env w)).
Proof. unfold requests. simpl. rewrite List.filter_app. simpl. by rewrite app_nil_r. Qed.

Lemma requests_logged msg w :
  requests (Browser.trace (P2P.env (logged msg w))) = requests (Browser.trace (P2P.env w)).
Proof. unfold requests. simpl. rewrite List.filter_app. simpl. by rewrite app_nil_r. Qed.

End FetchesFacts.

(** C10, as the specification states it, fails on [fetchPeers]: on status
    500 its promise is fulfilled, nothing reaches the caller. *)
Lemma fetchPeers_swallows_server_error :
  ~ Fetches.rejects
      (settle (P2P.fetchPeers P2P.default_options) Fetches.unavailable Fetches.peered).
Proof. intros [message H]. vm_compute in H. discriminate. Qed.

(** C10 (amended).  [fetchWorkloads] and [fetchNodes] reject on a
    non-success status, whatever the body, and on a network failure: the
    stores are left as they were, the message is recorded in [error] and
    handed to the caller with the rejection, and no further request is
    made.  [fetchPeers] never rejects on a network failure or on a body
    that cannot be read: it logs the failure, leaves the whole state as
    it was, fulfils its promise, and makes no further request. *)
Theorem collection_fetch_failures :
  (forall o status b b' w,
     settle (Orchestrator.fetchWorkloads o) (Responded (mkResponse false status b)) w
     = (Commands.failed "Failed to fetch workloads: "
          ("Failed to fetch workloads: " +:+ pretty status) w,
        Rejected ("Failed to fetch workloads: " +:+ pretty status))
     /\ settle (Orchestrator.fetchNodes o) (Responded (mkResponse false status b')) w
        = (Commands.failed "Failed to fetch nodes: "
             ("Failed to fetch nodes: " +:+ pretty status) w,
           Rejected ("Failed to fetch nodes: " +:+ pretty status)))
  /\ (forall o e w,
        settle (Orchestrator.fetchWorkloads o) (NetworkError e) w
        = (Commands.failed "Failed to fetch workloads: " e w, Rejected e)
        /\ settle (Orchestrator.fetchNodes o) (NetworkError e) w
           = (Commands.failed "Failed to fetch nodes: " e w, Rejected e))
  /\ (forall what e w,
        Orchestrator.workloads (Orchestrator.state (Commands.failed what e w))
        = Orchestrator.workloads (Orchestrator.state w)
        /\ Orchestrator.nodes (Orchestrator.state (Commands.failed what e w))
           = Orchestrator.nodes (Orchestrator.state w)
        /\ Orchestrator.error (Orchestrator.state (Commands.failed what e w)) = Some e
        /\ Fetches.requests (Browser.trace (Orchestrator.env (Commands.failed what e w)))
           = Fetches.requests (Browser.trace (Orchestrator.env w)))
  /\ (forall o e w,
        settle (P2P.fetchPeers o) (NetworkError e) w
        = (Fetches.logged ("Failed to fetch peers: " +:+ e) w, Fulfilled ()))
  /\ (forall o ok status w,
        settle (P2P.fetchPeers o) (Responded (mkResponse ok status None)) w
        = (Fetches.logged "Failed to fetch peers: Unexpected token in JSON" w, Fulfilled ()))
  /\ (forall msg w,
        P2P.state (Fetches.logged msg w) = P2P.state w
        /\ Fetches.requests (Browser.trace (P2P.env (Fetches.logged msg w)))
           = Fetches.requests (Browser.trace (P2P.env w))).
Proof.
  repeat (intros; match goal with |- _ /\ _ => split end); intros;
    try reflexivity.
  - apply FetchesFacts.requests_failed.
  - apply FetchesFacts.requests_logged.
Qed.

Module BudgetFacts.
Import Budget.

Section Counting.
Context {World Event : Type}.
Variable react : Event -> World -> World.
Variable attempts : World -> nat.
Variable ceiling : nat.
(** Events that do not reset the budget. *)
Variable quiet : Event -> bool.
(** The event is a close with a code other than 1000, delivered to a
    socket that was not closed yet. *)
Variable closes : Event -> World -> bool.
(** Not connecting and holding no socket. *)
Variable idle : World -> Prop.

Hypothesis attempts_react : forall e w,
  quiet e = true ->
  attempts (react e w)
  = if closes e w && (attempts w <? ceiling)%nat then S (attempts w) else attempts w.
Hypothesis idle_after_close : forall e w, closes e w = true -> idle (react e w).
Hypothesis idle_kept : forall e w,
  quiet e = true -> (ceiling <= attempts w)%nat -> idle w -> idle (react e w).

Local Abbreviation run := (Budget.run react).
Local Abbreviation abnormal_closes := (Budget.abnormal_closes react closes).

Lemma attempts_run es w :
  forallb quiet es = true ->
  attempts (run es w)
  = Nat.max (attempts w) (Nat.min ceiling (attempts w + abnormal_closes es w)).
Proof using attempts_react.
  revert w. induction es as [|e es IH]; intros w Hq; simpl.
  - lia.
  - apply andb_prop in Hq as [He Hes].
    change (foldl _ (react e w) es) with (run es (react e w)).
    rewrite (IH _ Hes), (attempts_react e w He).
    destruct (closes e w); simpl; [|reflexivity].
    destruct (Nat.ltb_spec (attempts w) ceiling); lia.
Qed.

Lemma exhausted_run es w :
  forallb quiet es = true ->
  ((ceiling <= attempts w)%nat /\ idle w)
  \/ ((1 <= abnormal_closes es w)%nat
      /\ (ceiling <= attempts w + abnormal_closes es w)%nat) ->
  (ceiling <= attempts (run es w))%nat /\ idle (run es w).
Proof using attempts_react idle_after_close idle_kept.
  revert w. induction es as [|e es IH]; intros w Hq Hw; simpl.
  - destruct Hw as [Hw|[Hn _]]; [exact Hw|simpl in Hn; lia].
  - apply andb_prop in Hq as [He Hes].
    change (foldl _ (react e w) es) with (run es (react e w)).
    apply (IH _ Hes). pose proof (attempts_react e w He) as Ha.
    destruct Hw as [[Hc Hi]|[Hn Hc]].
    + left. split; [|by apply idle_kept].
      rewrite Ha. destruct (closes e w && _); lia.
    + simpl in Hn, Hc. destruct (closes e w) eqn:Hcl; simpl in *.
      * destruct (Nat.ltb_spec (attempts w) ceiling).
        -- destruct (decide (ceiling <= S (attempts w))%nat).
           ++ left. split; [lia|]. by apply idle_after_close.
           ++ right. lia.
        -- left. split; [lia|]. by apply idle_after_close.
      * right. lia.
Qed.

End Counting.

End BudgetFacts.

Module P2PConnFacts.
Import P2P.
Import P2PConn.

Ltac crush :=
  repeat first
    [ progress (cbn [state refs env setState setRefs setEnv fst snd
                     Hook.wsRef Hook.reconnectTimerRef Hook.reconnectAttemptsRef
                     Hook.isConnectingRef Hook.set_wsRef Hook.set_reconnectTimerRef
                     Hook.set_reconnectAttemptsRef Hook.set_isConnectingRef] in * )
    | case_decide | case_match | progress simplify_eq ].

Lemma p2p_connect_attempts o w : attempts (connect o w) = attempts w.
Proof. unfold attempts, connect. crush; reflexivity. Qed.

Lemma p2p_connect_refusal o w :
  (maxReconnectAttempts o <= attempts w)%nat -> idle w -> connect o w = refusal o w.
Proof.
  intros Hmax [Hc Hws]. unfold connect, Hook.ws_readyState, attempts in *.
  rewrite Hc, Hws. simpl.
  destruct (Nat.leb_spec (maxReconnectAttempts o) (Hook.reconnectAttemptsRef (refs w)));
    [reflexivity|lia].
Qed.

Lemma p2p_handleMessage_refs message w : refs (handleMessage message w) = refs w.
Proof. unfold handleMessage. crush; reflexivity. Qed.

Lemma sendChat_refs content to w : refs (sendChat content to w) = refs w.
Proof. unfold sendChat. crush; reflexivity. Qed.

Lemma p2p_run_timers_attempts o fuel w : attempts (run_timers o fuel w) = attempts w.
Proof.
  revert w. induction fuel as [|n IH]; intros w; [reflexivity|].
  simpl. destruct (Browser.next_due _ _) as [[t d]|]; [|reflexivity].
  rewrite IH. unfold fire. by rewrite p2p_connect_attempts.
Qed.

Lemma p2p_run_timers_idle o fuel w :
  (maxReconnectAttempts o <= attempts w)%nat -> idle w -> idle (run_timers o fuel w).
Proof.
  revert w. induction fuel as [|n IH]; intros w Hmax Hidle; [exact Hidle|].
  simpl. destruct (Browser.next_due _ _) as [[t d]|]; [|exact Hidle].
  unfold fire. rewrite p2p_connect_refusal; [|exact Hmax|exact Hidle].
  apply IH; [exact Hmax|exact Hidle].
Qed.

Lemma p2p_attempts_react o e w :
  quiet e = true ->
  attempts (react o e w)
  = if closes e w && (attempts w <? maxReconnectAttempts o)%nat
    then S (attempts w) else attempts w.
Proof.
  intros Hq. destruct e; try discriminate Hq; simpl react; simpl closes.
  - apply p2p_connect_attempts.
  - unfold deliverable, ws_onclose, attempts.
    destruct (Browser.readyState ws (env w)) as [[]|];
      destruct (bool_decide (code <> 1000)); simpl; try reflexivity;
      destruct (_ <? _)%nat; reflexivity.
  - destruct (Browser.readyState ws (env w)); reflexivity.
  - case_decide; [|reflexivity]. destruct payload as [message|]; [|reflexivity].
    unfold attempts. simpl. by rewrite p2p_handleMessage_refs.
  - unfold advance. by rewrite p2p_run_timers_attempts.
  - destruct r as [msg|[okr st [b|]]]; reflexivity.
  - destruct r as [msg|[okr st [b|]]]; reflexivity.
  - unfold attempts. by rewrite sendChat_refs.
  - reflexivity.
Qed.

Lemma p2p_idle_after_close o e w : closes e w = true -> idle (react o e w).
Proof.
  destruct e; try discriminate. simpl. unfold deliverable, ws_onclose, idle.
  destruct (Browser.readyState ws (env w)) as [[]|];
    destruct (bool_decide (code <> 1000)); simpl; try discriminate; intros _;
    destruct (_ <? _)%nat; split; reflexivity.
Qed.

Lemma p2p_idle_kept o e w :
  quiet e = true -> (maxReconnectAttempts o <= attempts w)%nat -> idle w ->
  idle (react o e w).
Proof.
  intros Hq Hmax Hidle. destruct e; try discriminate Hq; simpl react.
  - by rewrite p2p_connect_refusal.
  - destruct (Browser.readyState ws (env w)) as [[]|]; try exact Hidle.
    all: unfold ws_onclose, idle; simpl;
      destruct (bool_decide (code <> 1000)); simpl;
      try destruct (_ <? _)%nat; split; reflexivity.
  - destruct (Browser.readyState ws (env w)); [|exact Hidle].
    destruct Hidle as [_ Hws]. split; [reflexivity|exact Hws].
  - case_decide; [|exact Hidle]. destruct payload as [message|]; [|exact Hidle].
    unfold idle. simpl. rewrite p2p_handleMessage_refs. exact Hidle.
  - unfold advance. apply p2p_run_timers_idle; [exact Hmax|exact Hidle].
  - destruct r as [msg|[okr st [b|]]]; exact Hidle.
  - destruct r as [msg|[okr st [b|]]]; exact Hidle.
  - unfold idle. rewrite sendChat_refs. exact Hidle.
  - exact Hidle.
Qed.

(** After as many abnormal closes as the ceiling, with no successful
    open in between, the hook is idle with its budget spent. *)
Lemma p2p_exhausted o es w :
  forallb quiet es = true ->
  (0 < maxReconnectAttempts o)%nat \/ idle w ->
  (maxReconnectAttempts o <= abnormal_closes o es w)%nat ->
  (maxReconnectAttempts o <= attempts (run_events o es w))%nat
  /\ idle (run_events o es w).
Proof.
  intros Hq Hpos Hn.
  apply (BudgetFacts.exhausted_run (react o) attempts (maxReconnectAttempts o) quiet closes idle
           (p2p_attempts_react o) (p2p_idle_after_close o) (p2p_idle_kept o) es w Hq).
  unfold abnormal_closes in Hn.
  destruct (decide (0 < maxReconnectAttempts o)%nat) as [Hlt|Hz]; [right; lia|].
  destruct Hpos as [Hlt|Hidle]; [lia|]. left. split; [lia|exact Hidle].
Qed.

End P2PConnFacts.

Module OrchestratorConnFacts.
Import Orchestrator.
Import OrchestratorConn.

Ltac crush :=
  repeat first
    [ progress (cbn [state refs env setState setRefs setEnv fst snd
                     Hook.wsRef Hook.reconnectTimerRef Hook.reconnectAttemptsRef
                     Hook.isConnectingRef Hook.set_wsRef Hook.set_reconnectTimerRef
                     Hook.set_reconnectAttemptsRef Hook.set_isConnectingRef] in * )
    | case_decide | case_match | progress simplify_eq ].

Lemma orch_connect_attempts o w : attempts (connect o w) = attempts w.
Proof. unfold attempts, connect. crush; reflexivity. Qed.

Lemma orch_connect_refusal o w :
  (maxReconnectAttempts o <= attempts w)%nat -> idle w -> connect o w = refusal o w.
Proof.
  intros Hmax [Hc Hws]. unfold connect, Hook.ws_readyState, attempts in *.
  rewrite Hc, Hws. simpl.
  destruct (Nat.leb_spec (maxReconnectAttempts o) (Hook.reconnectAttemptsRef (refs w)));
    [reflexivity|lia].
Qed.

Lemma orch_handleMessage_refs event w : refs (handleMessage event w) = refs w.
Proof. destruct event; reflexivity. Qed.

Lemma sendWorkloadCommand_refs command workloadId w :
  refs (sendWorkloadCommand command workloadId w) = refs w.
Proof. unfold sendWorkloadCommand. crush; reflexivity. Qed.

Lemma settled_refs o e w :
  match e with
  | WorkloadsSettled _ | NodesSettled _ | MetricsSettled _ | CreateSettled _
  | CancelSettled _ _ | RetrySettled _ _ => refs (react o e w) = refs w
  | _ => True
  end.
Proof.
  destruct e; try exact I; simpl.
  - destruct r as [msg|[[] st [b|]]]; reflexivity.
  - destruct r as [msg|[[] st [b|]]]; reflexivity.
  - destruct r as [msg|[[] st [b|]]]; reflexivity.
  - destruct r as [msg|[[] st [b|]]]; reflexivity.
  - destruct r as [msg|[[] st b]]; try reflexivity.
    unfold settle. simpl. by rewrite sendWorkloadCommand_refs.
  - destruct r as [msg|[[] st b]]; try reflexivity.
    unfold settle. simpl. by rewrite sendWorkloadCommand_refs.
Qed.

Lemma orch_run_timers_attempts o fuel w : attempts (run_timers o fuel w) = attempts w.
Proof.
  revert w. induction fuel as [|n IH]; intros w; [reflexivity|].
  simpl. destruct (Browser.next_due _ _) as [[t d]|]; [|reflexivity].
  rewrite IH. unfold fire. by rewrite orch_connect_attempts.
Qed.

Lemma orch_run_timers_idle o fuel w :
  (maxReconnectAttempts o <= attempts w)%nat -> idle w -> idle (run_timers o fuel w).
Proof.
  revert w. induction fuel as [|n IH]; intros w Hmax Hidle; [exact Hidle|].
  simpl. destruct (Browser.next_due _ _) as [[t d]|]; [|exact Hidle].
  unfold fire. rewrite orch_connect_refusal; [|exact Hmax|exact Hidle].
  apply IH; [exact Hmax|exact Hidle].
Qed.

Lemma orch_attempts_react o e w :
  quiet e = true ->
  attempts (react o e w)
  = if closes e w && (attempts w <? maxReconnectAttempts o)%nat
    then S (attempts w) else attempts w.
Proof.
  intros Hq. pose proof (settled_refs o e w) as Hs.
  destruct e; try discriminate Hq; simpl closes;
    try (unfold attempts; by rewrite Hs); simpl react.
  - destruct (autoConnect o); [apply orch_connect_attempts|reflexivity].
  - unfold deliverable, ws_onclose, attempts.
    destruct (Browser.readyState ws (env w)) as [[]|];
      destruct (bool_decide (code <> 1000)); simpl; try reflexivity;
      destruct (_ <? _)%nat; reflexivity.
  - destruct (Browser.readyState ws (env w)); reflexivity.
  - case_decide; [|reflexivity]. destruct payload as [event|]; [|reflexivity].
    simpl. destruct (for_orchestrator _); [|reflexivity].
    unfold attempts. by rewrite orch_handleMessage_refs.
  - unfold advance. by rewrite orch_run_timers_attempts.
  - apply orch_connect_attempts.
  - reflexivity.
  - destruct rejected; reflexivity.
  - reflexivity.
  - reflexivity.
  - reflexivity.
  - reflexivity.
  - reflexivity.
  - reflexivity.
  - reflexivity.
Qed.

Lemma orch_idle_after_close o e w : closes e w = true -> idle (react o e w).
Proof.
  destruct e; try discriminate. simpl. unfold deliverable, ws_onclose, idle.
  destruct (Browser.readyState ws (env w)) as [[]|];
    destruct (bool_decide (code <> 1000)); simpl; try discriminate; intros _;
    destruct (_ <? _)%nat; split; reflexivity.
Qed.

Lemma orch_idle_kept o e w :
  quiet e = true -> (maxReconnectAttempts o <= attempts w)%nat -> idle w ->
  idle (react o e w).
Proof.
  intros Hq Hmax Hidle. pose proof (settled_refs o e w) as Hs.
  destruct e; try discriminate Hq;
    try (unfold idle; by rewrite Hs); simpl react.
  - destruct (autoConnect o); [|exact Hidle]. by rewrite orch_connect_refusal.
  - destruct (Browser.readyState ws (env w)) as [[]|]; try exact Hidle.
    all: unfold ws_onclose, idle; simpl;
      destruct (bool_decide (code <> 1000)); simpl;
      try destruct (_ <? _)%nat; split; reflexivity.
  - destruct (Browser.readyState ws (env w)); [|exact Hidle].
    destruct Hidle as [_ Hws]. split; [reflexivity|exact Hws].
  - case_decide; [|exact Hidle]. destruct payload as [event|]; [|exact Hidle].
    simpl. destruct (for_orchestrator _); [|exact Hidle].
    unfold idle. rewrite orch_handleMessage_refs. exact Hidle.
  - unfold advance. apply orch_run_timers_idle; [exact Hmax|exact Hidle].
  - by rewrite orch_connect_refusal.
  - exact Hidle.
  - destruct rejected; exact Hidle.
  - exact Hidle.
  - exact Hidle.
  - exact Hidle.
  - exact Hidle.
  - exact Hidle.
  - exact Hidle.
  - exact Hidle.
Qed.

Lemma orch_exhausted o es w :
  forallb quiet es = true ->
  (0 < maxReconnectAttempts o)%nat \/ idle w ->
  (maxReconnectAttempts o <= abnormal_closes o es w)%nat ->
  (maxReconnectAttempts o <= attempts (run_events o es w))%nat
  /\ idle (run_events o es w).
Proof.
  intros Hq Hpos Hn.
  apply (BudgetFacts.exhausted_run (react o) attempts (maxReconnectAttempts o) quiet closes idle
           (orch_attempts_react o) (orch_idle_after_close o) (orch_idle_kept o) es w Hq).
  unfold abnormal_closes in Hn.
  destruct (decide (0 < maxReconnectAttempts o)%nat) as [Hlt|Hz]; [right; lia|].
  destruct Hpos as [Hlt|Hidle]; [lia|]. left. split; [lia|exact Hidle].
Qed.

End OrchestratorConnFacts.

Module ExhaustionFacts.
Import Exhaustion.

Lemma attempts_warn tr msg :
  Browser.attempts (tr ++ [Browser.ConsoleWarn msg]) = Browser.attempts tr.
Proof. unfold Browser.attempts. rewrite List.filter_app. simpl. by rewrite app_nil_r. Qed.

End ExhaustionFacts.

(** C4.  Once as many abnormal closes as [maxReconnectAttempts] have
    been delivered with no successful open (and no [disconnect]) in
    between, a call of [connect] opens no socket: the trace gains no
    connection attempt and [wsRef] stays empty.  Instead the exhaustion
    is reported: useP2P logs the "Max reconnect attempts" warning,
    useOrchestrator logs it too and puts the terminal "Connection failed
    after N attempts" error into its state, with [connected] and
    [loading] false. *)
Theorem connect_refuses_when_exhausted :
  (forall o es w,
     forallb P2PConn.quiet es = true ->
     (0 < P2P.maxReconnectAttempts o)%nat \/ P2PConn.idle w ->
     (P2P.maxReconnectAttempts o <= P2PConn.abnormal_closes o es w)%nat ->
     let w' := P2P.run_events o es w in
     P2P.connect o w' = P2PConn.refusal o w'
     /\ Browser.attempts (Browser.trace (P2P.env (P2P.connect o w')))
        = Browser.attempts (Browser.trace (P2P.env w'))
     /\ Hook.wsRef (P2P.refs (P2P.connect o w')) = None)
  /\ (forall o es w,
        forallb OrchestratorConn.quiet es = true ->
        (0 < Orchestrator.maxReconnectAttempts o)%nat \/ OrchestratorConn.idle w ->
        (Orchestrator.maxReconnectAttempts o
         <= OrchestratorConn.abnormal_closes o es w)%nat ->
        let w' := Orchestrator.run_events o es w in
        Orchestrator.connect o w' = OrchestratorConn.refusal o w'
        /\ Browser.attempts (Browser.trace (Orchestrator.env (Orchestrator.connect o w')))
           = Browser.attempts (Browser.trace (Orchestrator.env w'))
        /\ Hook.wsRef (Orchestrator.refs (Orchestrator.connect o w')) = None
        /\ Orchestrator.error (Orchestrator.state (Orchestrator.connect o w'))
           = Some ("Connection failed after "
                   +:+ pretty (Orchestrator.maxReconnectAttempts o)
                   +:+ " attempts. Server may be unavailable.")
        /\ Orchestrator.connected (Orchestrator.state (Orchestrator.connect o w')) = false
        /\ Orchestrator.loading (Orchestrator.state (Orchestrator.connect o w')) = false).
Proof.
  split.
  - intros o es w Hq Hpos Hn w'.
    destruct (P2PConnFacts.p2p_exhausted o es w Hq Hpos Hn) as [Hmax Hidle].
    fold w' in Hmax, Hidle.
    rewrite (P2PConnFacts.p2p_connect_refusal o w' Hmax Hidle).
    split; [reflexivity|]. split; [apply ExhaustionFacts.attempts_warn|apply Hidle].
  - intros o es w Hq Hpos Hn w'.
    destruct (OrchestratorConnFacts.orch_exhausted o es w Hq Hpos Hn) as [Hmax Hidle].
    fold w' in Hmax, Hidle.
    rewrite (OrchestratorConnFacts.orch_connect_refusal o w' Hmax Hidle).
    split; [reflexivity|]. split; [apply ExhaustionFacts.attempts_warn|].
    split; [apply Hidle|]. repeat split.
Qed.

Lemma connect_refuses_when_exhausted_witness :
  forallb P2PConn.quiet Exhaustion.p2p_outage = true
  /\ ((0 < P2P.maxReconnectAttempts P2P.default_options)%nat
      \/ P2PConn.idle (P2P.init (fun _ => true)))
  /\ (P2P.maxReconnectAttempts P2P.default_options
      <= P2PConn.abnormal_closes P2P.default_options Exhaustion.p2p_outage
           (P2P.init (fun _ => true)))%nat
  /\ Browser.attempts (Browser.trace (P2P.env
       (P2P.connect P2P.default_options
          (P2P.run_events P2P.default_options Exhaustion.p2p_outage
             (P2P.init (fun _ => true))))))
     = Browser.attempts (Browser.trace (P2P.env
         (P2P.run_events P2P.default_options Exhaustion.p2p_outage
            (P2P.init (fun _ => true)))))
  /\ forallb OrchestratorConn.quiet Exhaustion.orchestrator_outage = true
  /\ ((0 < Orchestrator.maxReconnectAttempts Orchestrator.default_options)%nat
      \/ OrchestratorConn.idle (Orchestrator.init (fun _ => true)))
  /\ (Orchestrator.maxReconnectAttempts Orchestrator.default_options
      <= OrchestratorConn.abnormal_closes Orchestrator.default_options
           Exhaustion.orchestrator_outage (Orchestrator.init (fun _ => true)))%nat
  /\ Hook.wsRef (Orchestrator.refs
       (Orchestrator.connect Orchestrator.default_options
          (Orchestrator.run_events Orchestrator.default_options
             Exhaustion.orchestrator_outage (Orchestrator.init (fun _ => true)))))
     = None.
Proof.
  assert (forallb P2PConn.quiet Exhaustion.p2p_outage = true) as Hq by reflexivity.
  assert ((0 < P2P.maxReconnectAttempts P2P.default_options)%nat
          \/ P2PConn.idle (P2P.init (fun _ => true))) as Hpos by (left; simpl; lia).
  assert (P2P.maxReconnectAttempts P2P.default_options
          <= P2PConn.abnormal_closes P2P.default_options Exhaustion.p2p_outage
               (P2P.init (fun _ => true)))%nat as Hn by (vm_compute; lia).
  assert (forallb OrchestratorConn.quiet Exhaustion.orchestrator_outage = true) as Hq'
    by reflexivity.
  assert ((0 < Orchestrator.maxReconnectAttempts Orchestrator.default_options)%nat
          \/ OrchestratorConn.idle (Orchestrator.init (fun _ => true))) as Hpos'
    by (left; simpl; lia).
  assert (Orchestrator.maxReconnectAttempts Orchestrator.default_options
          <= OrchestratorConn.abnormal_closes Orchestrator.default_options
               Exhaustion.orchestrator_outage (Orchestrator.init (fun _ => true)))%nat
    as Hn' by (vm_compute; lia).
  split; [exact Hq|]. split; [exact Hpos|]. split; [exact Hn|].
  split; [exact (proj1 (proj2 (proj1 connect_refuses_when_exhausted
                   P2P.default_options Exhaustion.p2p_outage
                   (P2P.init (fun _ => true)) Hq Hpos Hn)))|].
  split; [exact Hq'|]. split; [exact Hpos'|]. split; [exact Hn'|].
  exact (proj1 (proj2 (proj2 (proj2 connect_refuses_when_exhausted
           Orchestrator.default_options Exhaustion.orchestrator_outage
           (Orchestrator.init (fun _ => true)) Hq' Hpos' Hn')))).
Defined.

Module BackoffFacts.
Import Backoff.

(** What an abnormal close that finds budget left does, for the hook
    whose counter stands at [k - 1]: it schedules [connect] after
    [base * 2^(k-1)] and counts attempt [k]. *)
Lemma p2p_onclose o code w k :
  code <> 1000 ->
  (1 <= k <= P2P.maxReconnectAttempts o)%nat ->
  P2PConn.attempts w = (k - 1)%nat ->
  let w' := P2P.ws_onclose o code w in
  let delay := P2P.reconnectInterval o * 2 ^ (Z.of_nat k - 1) in
  Browser.trace (P2P.env w')
  = (Browser.trace (P2P.env w)
     ++ [Browser.SetTimeout (Browser.next_timer (P2P.env w)) delay])%list
  /\ Browser.timers (P2P.env w')
     = (Browser.timers (P2P.env w)
        ++ [(Browser.next_timer (P2P.env w), Browser.clock (P2P.env w) + delay)])%list
  /\ Hook.reconnectTimerRef (P2P.refs w') = Some (Browser.next_timer (P2P.env w))
  /\ P2PConn.attempts w' = k.
Proof.
  intros Hcode Hk Ha w' delay. subst w' delay.
  unfold P2P.ws_onclose, P2PConn.attempts in *. simpl.
  rewrite bool_decide_eq_true_2 by exact Hcode.
  destruct (Nat.ltb_spec (Hook.reconnectAttemptsRef (P2P.refs w))
              (P2P.maxReconnectAttempts o)) as [_|Hge]; [|lia].
  simpl. unfold Js.pow2.
  replace (Z.of_nat (S (Hook.reconnectAttemptsRef (P2P.refs w)))) with (Z.of_nat k) by lia.
  repeat split. lia.
Qed.

Lemma orchestrator_onclose o code w k :
  code <> 1000 ->
  (1 <= k <= Orchestrator.maxReconnectAttempts o)%nat ->
  OrchestratorConn.attempts w = (k - 1)%nat ->
  let w' := Orchestrator.ws_onclose o code w in
  let delay := Orchestrator.reconnectInterval o * 2 ^ (Z.of_nat k - 1) in
  Browser.trace (Orchestrator.env w')
  = (Browser.trace (Orchestrator.env w)
     ++ [Browser.SetTimeout (Browser.next_timer (Orchestrator.env w)) delay])%list
  /\ Browser.timers (Orchestrator.env w')
     = (Browser.timers (Orchestrator.env w)
        ++ [(Browser.next_timer (Orchestrator.env w),
             Browser.clock (Orchestrator.env w) + delay)])%list
  /\ Hook.reconnectTimerRef (Orchestrator.refs w')
     = Some (Browser.next_timer (Orchestrator.env w))
  /\ OrchestratorConn.attempts w' = k.
Proof.
  intros Hcode Hk Ha w' delay. subst w' delay.
  unfold Orchestrator.ws_onclose, OrchestratorConn.attempts in *. simpl.
  rewrite bool_decide_eq_true_2 by exact Hcode.
  destruct (Nat.ltb_spec (Hook.reconnectAttemptsRef (Orchestrator.refs w))
              (Orchestrator.maxReconnectAttempts o)) as [_|Hge]; [|lia].
  simpl. unfold Js.pow2.
  replace (Z.of_nat (S (Hook.reconnectAttemptsRef (Orchestrator.refs w))))
    with (Z.of_nat k) by lia.
  repeat split. lia.
Qed.

(** The counter after [k - 1] abnormal closes since it was zero. *)
Lemma p2p_attempts o es w k :
  P2PConn.attempts w = 0%nat ->
  forallb P2PConn.quiet es = true ->
  (1 <= k <= P2P.maxReconnectAttempts o)%nat ->
  P2PConn.abnormal_closes o es w = (k - 1)%nat ->
  P2PConn.attempts (P2P.run_events o es w) = (k - 1)%nat.
Proof.
  intros H0 Hq Hk Hn.
  pose proof (BudgetFacts.attempts_run (P2P.react o) P2PConn.attempts
                (P2P.maxReconnectAttempts o) P2PConn.quiet P2PConn.closes
                (P2PConnFacts.p2p_attempts_react o) es w Hq) as Ha.
  unfold Budget.run in Ha. unfold P2P.run_events. rewrite Ha.
  unfold P2PConn.abnormal_closes in Hn. rewrite Hn, H0. lia.
Qed.

Lemma orchestrator_attempts o es w k :
  OrchestratorConn.attempts w = 0%nat ->
  forallb OrchestratorConn.quiet es = true ->
  (1 <= k <= Orchestrator.maxReconnectAttempts o)%nat ->
  OrchestratorConn.abnormal_closes o es w = (k - 1)%nat ->
  OrchestratorConn.attempts (Orchestrator.run_events o es w) = (k - 1)%nat.
Proof.
  intros H0 Hq Hk Hn.
  pose proof (BudgetFacts.attempts_run (Orchestrator.react o) OrchestratorConn.attempts
                (Orchestrator.maxReconnectAttempts o) OrchestratorConn.quiet
                OrchestratorConn.closes (OrchestratorConnFacts.orch_attempts_react o)
                es w Hq) as Ha.
  unfold Budget.run in Ha. unfold Orchestrator.run_events. rewrite Ha.
  unfold OrchestratorConn.abnormal_closes in Hn. rewrite Hn, H0. lia.
Qed.

End BackoffFacts.

(** C5.  Count the abnormal closes delivered since the attempt counter
    was last zero, with no successful open in between: the [k]-th of
    them, for every [k] from 1 to [maxReconnectAttempts], schedules
    [connect] after exactly [reconnectInterval * 2^(k-1)] milliseconds
    (one [setTimeout], due at the present clock plus that delay, its id
    kept in [reconnectTimerRef]) and sets the counter to [k]; and every
    successful open sets the counter back to zero.  Both hooks. *)
Theorem backoff_delay_doubles :
  (forall o es w ws code k,
     P2PConn.attempts w = 0%nat ->
     forallb P2PConn.quiet es = true ->
     (1 <= k <= P2P.maxReconnectAttempts o)%nat ->
     P2PConn.abnormal_closes o es w = (k - 1)%nat ->
     let w1 := P2P.run_events o es w in
     P2PConn.closes (P2P.Closed ws code) w1 = true ->
     let w2 := P2P.react o (P2P.Closed ws code) w1 in
     let delay := P2P.reconnectInterval o * 2 ^ (Z.of_nat k - 1) in
     Browser.trace (P2P.env w2)
     = (Browser.trace (P2P.env w1)
        ++ [Browser.SetTimeout (Browser.next_timer (P2P.env w1)) delay])%list
     /\ Browser.timers (P2P.env w2)
        = (Browser.timers (P2P.env w1)
           ++ [(Browser.next_timer (P2P.env w1), Browser.clock (P2P.env w1) + delay)])%list
     /\ Hook.reconnectTimerRef (P2P.refs w2) = Some (Browser.next_timer (P2P.env w1))
     /\ P2PConn.attempts w2 = k)
  /\ (forall o ws w,
        Browser.readyState ws (P2P.env w) = Some Browser.CONNECTING ->
        P2PConn.attempts (P2P.react o (P2P.Opened ws) w) = 0%nat)
  /\ (forall o es w ws code k,
        OrchestratorConn.attempts w = 0%nat ->
        forallb OrchestratorConn.quiet es = true ->
        (1 <= k <= Orchestrator.maxReconnectAttempts o)%nat ->
        OrchestratorConn.abnormal_closes o es w = (k - 1)%nat ->
        let w1 := Orchestrator.run_events o es w in
        OrchestratorConn.closes (Orchestrator.Closed ws code) w1 = true ->
        let w2 := Orchestrator.react o (Orchestrator.Closed ws code) w1 in
        let delay := Orchestrator.reconnectInterval o * 2 ^ (Z.of_nat k - 1) in
        Browser.trace (Orchestrator.env w2)
        = (Browser.trace (Orchestrator.env w1)
           ++ [Browser.SetTimeout (Browser.next_timer (Orchestrator.env w1)) delay])%list
        /\ Browser.timers (Orchestrator.env w2)
           = (Browser.timers (Orchestrator.env w1)
              ++ [(Browser.next_timer (Orchestrator.env w1),
                   Browser.clock (Orchestrator.env w1) + delay)])%list
        /\ Hook.reconnectTimerRef (Orchestrator.refs w2)
           = Some (Browser.next_timer (Orchestrator.env w1))
        /\ OrchestratorConn.attempts w2 = k)
  /\ (forall o ws w,
        Browser.readyState ws (Orchestrator.env w) = Some Browser.CONNECTING ->
        OrchestratorConn.attempts (Orchestrator.react o (Orchestrator.Opened ws) w) = 0%nat).
Proof.
  split; [|split; [|split]].
  - intros o es w ws code k H0 Hq Hk Hn w1 Hclose w2 delay.
    pose proof (BackoffFacts.p2p_attempts o es w k H0 Hq Hk Hn) as Ha. fold w1 in Ha.
    subst w2. simpl in Hclose |- *. unfold P2PConn.deliverable in Hclose.
    apply andb_prop in Hclose as [Hcode Hws]. apply bool_decide_eq_true in Hcode.
    destruct (Browser.readyState ws (P2P.env w1)) as [[]|]; try discriminate Hws.
    all: exact (BackoffFacts.p2p_onclose o code
                  (P2P.setEnv (Browser.set_readyState ws Browser.CLOSED) w1) k Hcode Hk Ha).
  - intros o ws w Hws. simpl. rewrite decide_True by exact Hws. reflexivity.
  - intros o es w ws code k H0 Hq Hk Hn w1 Hclose w2 delay.
    pose proof (BackoffFacts.orchestrator_attempts o es w k H0 Hq Hk Hn) as Ha. fold w1 in Ha.
    subst w2. simpl in Hclose |- *. unfold OrchestratorConn.deliverable in Hclose.
    apply andb_prop in Hclose as [Hcode Hws]. apply bool_decide_eq_true in Hcode.
    destruct (Browser.readyState ws (Orchestrator.env w1)) as [[]|]; try discriminate Hws.
    all: exact (BackoffFacts.orchestrator_onclose o code
                  (Orchestrator.setEnv (Browser.set_readyState ws Browser.CLOSED) w1)
                  k Hcode Hk Ha).
  - intros o ws w Hws. simpl. rewrite decide_True by exact Hws. reflexivity.
Qed.

Lemma backoff_delay_doubles_witness :
  P2PConn.attempts (P2P.init (fun _ => true)) = 0%nat
  /\ forallb P2PConn.quiet Backoff.p2p_two_down = true
  /\ (1 <= 3 <= P2P.maxReconnectAttempts P2P.default_options)%nat
  /\ P2PConn.abnormal_closes P2P.default_options Backoff.p2p_two_down
       (P2P.init (fun _ => true)) = (3 - 1)%nat
  /\ P2PConn.closes (P2P.Closed 2 1006)
       (P2P.run_events P2P.default_options Backoff.p2p_two_down (P2P.init (fun _ => true)))
     = true
  /\ Browser.trace (P2P.env
       (P2P.react P2P.default_options (P2P.Closed 2 1006)
          (P2P.run_events P2P.default_options Backoff.p2p_two_down
             (P2P.init (fun _ => true)))))
     = (Browser.trace (P2P.env
          (P2P.run_events P2P.default_options Backoff.p2p_two_down
             (P2P.init (fun _ => true))))
        ++ [Browser.SetTimeout
              (Browser.next_timer (P2P.env
                 (P2P.run_events P2P.default_options Backoff.p2p_two_down
                    (P2P.init (fun _ => true)))))
              (P2P.reconnectInterval P2P.default_options * 2 ^ (Z.of_nat 3 - 1))])%list
  /\ Browser.readyState 2 (P2P.env
       (P2P.run_events P2P.default_options Backoff.p2p_two_down (P2P.init (fun _ => true))))
     = Some Browser.CONNECTING
  /\ P2PConn.attempts
       (P2P.react P2P.default_options (P2P.Opened 2)
          (P2P.run_events P2P.default_options Backoff.p2p_two_down
             (P2P.init (fun _ => true)))) = 0%nat
  /\ OrchestratorConn.attempts (Orchestrator.init (fun _ => true)) = 0%nat
  /\ forallb OrchestratorConn.quiet Backoff.orchestrator_two_down = true
  /\ (1 <= 3 <= Orchestrator.maxReconnectAttempts Orchestrator.default_options)%nat
  /\ OrchestratorConn.abnormal_closes Orchestrator.default_options
       Backoff.orchestrator_two_down (Orchestrator.init (fun _ => true)) = (3 - 1)%nat
  /\ OrchestratorConn.closes (Orchestrator.Closed 2 1006)
       (Orchestrator.run_events Orchestrator.default_options Backoff.orchestrator_two_down
          (Orchestrator.init (fun _ => true))) = true
  /\ OrchestratorConn.attempts
       (Orchestrator.react Orchestrator.default_options (Orchestrator.Closed 2 1006)
          (Orchestrator.run_events Orchestrator.default_options
             Backoff.orchestrator_two_down (Orchestrator.init (fun _ => true)))) = 3%nat
  /\ Browser.readyState 2 (Orchestrator.env
       (Orchestrator.run_events Orchestrator.default_options Backoff.orchestrator_two_down
          (Orchestrator.init (fun _ => true)))) = Some Browser.CONNECTING
  /\ OrchestratorConn.attempts
       (Orchestrator.react Orchestrator.default_options (Orchestrator.Opened 2)
          (Orchestrator.run_events Orchestrator.default_options
             Backoff.orchestrator_two_down (Orchestrator.init (fun _ => true)))) = 0%nat.
Proof.
  assert (P2PConn.attempts (P2P.init (fun _ => true)) = 0%nat) as H0 by reflexivity.
  assert (forallb P2PConn.quiet Backoff.p2p_two_down = true) as Hq by reflexivity.
  assert (1 <= 3 <= P2P.maxReconnectAttempts P2P.default_options)%nat as Hk
    by (simpl; lia).
  assert (P2PConn.abnormal_closes P2P.default_options Backoff.p2p_two_down
            (P2P.init (fun _ => true)) = (3 - 1)%nat) as Hn by (vm_compute; reflexivity).
  assert (P2PConn.closes (P2P.Closed 2 1006)
            (P2P.run_events P2P.default_options Backoff.p2p_two_down
               (P2P.init (fun _ => true))) = true) as Hc by (vm_compute; reflexivity).
  assert (Browser.readyState 2 (P2P.env
            (P2P.run_events P2P.default_options Backoff.p2p_two_down
               (P2P.init (fun _ => true)))) = Some Browser.CONNECTING) as Hws
    by (vm_compute; reflexivity).
  assert (OrchestratorConn.attempts (Orchestrator.init (fun _ => true)) = 0%nat) as H0'
    by reflexivity.
  assert (forallb OrchestratorConn.quiet Backoff.orchestrator_two_down = true) as Hq'
    by reflexivity.
  assert (1 <= 3 <= Orchestrator.maxReconnectAttempts Orchestrator.default_options)%nat
    as Hk' by (simpl; lia).
  assert (OrchestratorConn.abnormal_closes Orchestrator.default_options
            Backoff.orchestrator_two_down (Orchestrator.init (fun _ => true)) = (3 - 1)%nat)
    as Hn' by (vm_compute; reflexivity).
  assert (OrchestratorConn.closes (Orchestrator.Closed 2 1006)
            (Orchestrator.run_events Orchestrator.default_options
               Backoff.orchestrator_two_down (Orchestrator.init (fun _ => true))) = true)
    as Hc' by (vm_compute; reflexivity).
  assert (Browser.readyState 2 (Orchestrator.env
            (Orchestrator.run_events Orchestrator.default_options
               Backoff.orchestrator_two_down (Orchestrator.init (fun _ => true))))
          = Some Browser.CONNECTING) as Hws' by (vm_compute; reflexivity).
  destruct backoff_delay_doubles as (Hp & Hpo & Ho & Hoo).
  split; [exact H0|]. split; [exact Hq|]. split; [exact Hk|]. split; [exact Hn|].
  split; [exact Hc|].
  split; [exact (proj1 (Hp P2P.default_options Backoff.p2p_two_down
                          (P2P.init (fun _ => true)) 2%nat 1006 3%nat H0 Hq Hk Hn Hc))|].
  split; [exact Hws|].
  split; [exact (Hpo P2P.default_options 2%nat _ Hws)|].
  split; [exact H0'|]. split; [exact Hq'|]. split; [exact Hk'|]. split; [exact Hn'|].
  split; [exact Hc'|].
  split; [exact (proj2 (proj2 (proj2 (Ho Orchestrator.default_options
                   Backoff.orchestrator_two_down (Orchestrator.init (fun _ => true))
                   2%nat 1006 3%nat H0' Hq' Hk' Hn' Hc'))))|].
  split; [exact Hws'|].
  exact (Hoo Orchestrator.default_options 2%nat _ Hws').
Defined.

Module CancelFacts.
Import Cancel.

Lemma attempts_emit e tr :
  harmless e -> Browser.attempts (tr ++ [e]) = Browser.attempts tr.
Proof.
  unfold harmless, Browser.attempts. intros He.
  rewrite List.filter_app. simpl. rewrite He. by rewrite app_nil_r.
Qed.

Lemma calm_emit n e b : harmless e -> calm n b -> calm n (Browser.emit e b).
Proof.
  intros He [Ht Ha]. split; [exact Ht|]. simpl. by rewrite attempts_emit.
Qed.

Lemma calm_set_readyState n ws r b : calm n b -> calm n (Browser.set_readyState ws r b).
Proof. intros H. exact H. Qed.

Lemma calm_tick n dt b : calm n b -> calm n (Browser.tick dt b).
Proof. intros H. exact H. Qed.

Lemma calm_send n ws f b : calm n b -> calm n (Browser.send ws f b).
Proof. apply calm_emit. reflexivity. Qed.

Lemma filter_all_out (t : positive) (ts : list (positive * Z)) :
  (forall e, e ∈ ts -> e.1 = t) -> filter (fun e => e.1 <> t) ts = [].
Proof.
  induction ts as [|e ts IH]; intros Hall; [reflexivity|].
  rewrite filter_cons. rewrite decide_False.
  - apply IH. intros e' He'. apply Hall. by right.
  - intros Hne. apply Hne, Hall. left.
Qed.

Lemma calm_clearTimeout t b :
  (forall e, e ∈ Browser.timers b -> e.1 = t) ->
  calm (Browser.attempts (Browser.trace b)) (Browser.clearTimeout t b).
Proof.
  intros Hall. split.
  - simpl. by apply filter_all_out.
  - simpl. by rewrite attempts_emit.
Qed.

Lemma calm_close n ws code b : calm n b -> calm n (Browser.close ws code b).
Proof.
  intros H. unfold Browser.close. apply calm_emit; [reflexivity|].
  destruct (Browser.readyState ws b) as [[]|]; exact H.
Qed.

Lemma firings_emit t e tr :
  is_firing t e = false -> firings t (tr ++ [e]) = firings t tr.
Proof.
  unfold firings. intros He. rewrite List.filter_app. simpl. rewrite He.
  by rewrite app_nil_r.
Qed.

Lemma dead_emit t n e b : is_firing t e = false -> dead t n b -> dead t n (Browser.emit e b).
Proof.
  intros He (Hp & Hlt & Hn). split; [exact Hp|]. split; [exact Hlt|].
  simpl. by rewrite firings_emit.
Qed.

Lemma dead_set_readyState t n ws r b :
  dead t n b -> dead t n (Browser.set_readyState ws r b).
Proof. intros H. exact H. Qed.

Lemma dead_tick t n dt b : dead t n b -> dead t n (Browser.tick dt b).
Proof. intros H. exact H. Qed.

Lemma dead_send t n ws f b : dead t n b -> dead t n (Browser.send ws f b).
Proof. apply dead_emit. reflexivity. Qed.

Lemma dead_close t n ws code b : dead t n b -> dead t n (Browser.close ws code b).
Proof.
  intros H. unfold Browser.close. apply dead_emit; [reflexivity|].
  destruct (Browser.readyState ws b) as [[]|]; exact H.
Qed.

Lemma dead_newWebSocket t n url b :
  dead t n b -> dead t n (Browser.newWebSocket url b).1.
Proof.
  intros H. unfold Browser.newWebSocket.
  destruct (Browser.valid_url b url); simpl.
  - destruct H as (Hp & Hlt & Hn). split; [exact Hp|]. split; [exact Hlt|].
    simpl. by rewrite firings_emit.
  - by apply dead_emit.
Qed.

Lemma dead_setTimeout t n delay b :
  dead t n b -> dead t n (Browser.setTimeout delay b).1.
Proof.
  intros (Hp & Hlt & Hn). split; [|split]; simpl.
  - intros e He. apply elem_of_app in He as [He|He]; [by apply Hp|].
    apply list_elem_of_singleton in He. subst e. simpl. lia.
  - lia.
  - by rewrite firings_emit.
Qed.

Lemma dead_drop_timer t n t' b : dead t n b -> dead t n (Browser.drop_timer t' b).
Proof.
  intros (Hp & Hlt & Hn). split; [|split]; simpl; [|exact Hlt|exact Hn].
  intros e He. apply list_elem_of_filter in He as [_ He]. by apply Hp.
Qed.

Lemma dead_clearTimeout t n t' b : dead t n b -> dead t n (Browser.clearTimeout t' b).
Proof.
  intros H. unfold Browser.clearTimeout. apply dead_emit; [reflexivity|].
  by apply dead_drop_timer.
Qed.

Lemma dead_expire t n t' b : t' <> t -> dead t n b -> dead t n (Browser.expire t' b).
Proof.
  intros Hne H. unfold Browser.expire. apply dead_emit.
  - simpl. by apply bool_decide_eq_false.
  - by apply dead_drop_timer.
Qed.

(** Clearing [t] kills it, whatever else is pending. *)
Lemma clearTimeout_dead t b :
  (t < Browser.next_timer b)%positive ->
  dead t (firings t (Browser.trace b)) (Browser.clearTimeout t b).
Proof.
  intros Hlt. split; [|split]; simpl.
  - intros e He. by apply list_elem_of_filter in He as [He _].
  - exact Hlt.
  - by rewrite firings_emit.
Qed.

Lemma next_due_pending now ts t d :
  Browser.next_due now ts = Some (t, d) -> (t, d) ∈ ts.
Proof.
  revert t d. induction ts as [|[t' d'] ts IH]; intros t d; simpl; [discriminate|].
  destruct (Browser.next_due now ts) as [[t'' d'']|].
  - destruct (bool_decide (d' <= now) && bool_decide (d' <= d'')); intros [= <- <-].
    + left.
    + right. by apply IH.
  - destruct (bool_decide (d' <= now)); intros [= <- <-]. left.
Qed.

End CancelFacts.

Module P2PCancelFacts.
Import P2P.
Import P2PCancel.

Lemma p2p_handleMessage_env message w : env (handleMessage message w) = env w.
Proof. unfold handleMessage. P2PConnFacts.crush; reflexivity. Qed.

Lemma p2p_react_calm n o e w :
  passive e = true -> Cancel.calm n (env w) -> Cancel.calm n (env (react o e w)).
Proof.
  intros Hp Hw. destruct e; try discriminate Hp; simpl react.
  - apply bool_decide_eq_true in Hp. subst code.
    destruct (Browser.readyState ws (env w)) as [[]|]; exact Hw.
  - destruct (Browser.readyState ws (env w)); [|exact Hw].
    simpl. by apply CancelFacts.calm_emit.
  - case_decide; [|exact Hw]. destruct payload as [message|].
    + simpl. by rewrite p2p_handleMessage_env.
    + simpl. by apply CancelFacts.calm_emit.
  - unfold advance. simpl. destruct Hw as [Ht Ha]. rewrite Ht. simpl. by split.
  - destruct r as [msg|[okr st [b|]]]; simpl; try exact Hw; by apply CancelFacts.calm_emit.
  - destruct r as [msg|[okr st [b|]]]; simpl; try exact Hw; by apply CancelFacts.calm_emit.
Qed.

Lemma p2p_run_events_calm n o es w :
  forallb passive es = true -> Cancel.calm n (env w) ->
  Cancel.calm n (env (run_events o es w)).
Proof.
  revert w. induction es as [|e es IH]; intros w Hp Hw; [exact Hw|].
  apply andb_prop in Hp as [He Hes]. simpl. apply IH; [exact Hes|].
  by apply p2p_react_calm.
Qed.

Lemma p2p_disconnect_calm w t :
  Hook.reconnectTimerRef (refs w) = Some t ->
  (forall e, e ∈ Browser.timers (env w) -> e.1 = t) ->
  Cancel.calm (Browser.attempts (Browser.trace (env w))) (env (disconnect w)).
Proof.
  intros Ht Hall. unfold disconnect. rewrite Ht. simpl.
  destruct (Hook.wsRef (refs w)) as [ws|]; simpl.
  - apply CancelFacts.calm_close. by apply CancelFacts.calm_clearTimeout.
  - by apply CancelFacts.calm_clearTimeout.
Qed.

Lemma p2p_disconnect_refs w :
  refs (disconnect w)
  = {| Hook.wsRef := None; Hook.reconnectTimerRef := None;
       Hook.reconnectAttemptsRef := 0; Hook.isConnectingRef := false |}.
Proof.
  unfold disconnect.
  destruct (Hook.reconnectTimerRef (refs w)) as [t|] eqn:Ht; simpl;
    destruct (Hook.wsRef (refs w)) as [ws|] eqn:Hws; simpl;
    unfold Hook.set_isConnectingRef, Hook.set_reconnectAttemptsRef; simpl;
    rewrite ?Ht, ?Hws; reflexivity.
Qed.

Lemma p2p_disconnect_trace w t :
  Hook.reconnectTimerRef (refs w) = Some t ->
  Browser.trace (env (disconnect w))
  = (Browser.trace (env w) ++ [Browser.ClearTimeout t]
     ++ match Hook.wsRef (refs w) with
        | Some ws => [Browser.WsClose ws 1000]
        | None => []
        end)%list.
Proof.
  intros Ht. unfold disconnect. rewrite Ht. simpl.
  destruct (Hook.wsRef (refs w)) as [ws|]; simpl.
  - destruct (Browser.readyState ws _) as [[]|]; simpl; by rewrite <- app_assoc.
  - reflexivity.
Qed.

Lemma p2p_connect_dead t n o w :
  Cancel.dead t n (env w) -> Cancel.dead t n (env (connect o w)).
Proof.
  intros H. unfold connect.
  destruct (Hook.isConnectingRef (refs w)); [exact H|].
  case_decide; [exact H|]. case_decide; [exact H|].
  destruct (_ <=? _)%nat; [by apply CancelFacts.dead_emit|].
  cbn [env setRefs].
  pose proof (CancelFacts.dead_newWebSocket t n (url o) (env w) H) as Hn.
  destruct (Browser.newWebSocket (url o) (env w)) as [b [ws|]]; simpl in *;
    [exact Hn|by apply CancelFacts.dead_emit].
Qed.

Lemma p2p_run_timers_dead t n o fuel w :
  Cancel.dead t n (env w) -> Cancel.dead t n (env (run_timers o fuel w)).
Proof.
  revert w. induction fuel as [|k IH]; intros w H; [exact H|].
  simpl. destruct (Browser.next_due _ _) as [[t' d]|] eqn:Hdue; [|exact H].
  apply IH. unfold fire. apply p2p_connect_dead. simpl.
  apply CancelFacts.dead_expire; [|exact H].
  apply CancelFacts.next_due_pending in Hdue. destruct H as (Hp & _). by apply Hp in Hdue.
Qed.

Lemma p2p_disconnect_dead t n w :
  Cancel.dead t n (env w) -> Cancel.dead t n (env (disconnect w)).
Proof.
  intros H. unfold disconnect.
  destruct (Hook.reconnectTimerRef (refs w)) as [t'|]; simpl;
    destruct (Hook.wsRef (refs w)) as [ws|]; simpl;
    repeat first [exact H | apply CancelFacts.dead_close | apply CancelFacts.dead_clearTimeout].
Qed.

Lemma p2p_disconnect_kills t w :
  Hook.reconnectTimerRef (refs w) = Some t ->
  (t < Browser.next_timer (env w))%positive ->
  Cancel.dead t (Cancel.firings t (Browser.trace (env w))) (env (disconnect w)).
Proof.
  intros Ht Hlt. unfold disconnect. rewrite Ht. simpl.
  destruct (Hook.wsRef (refs w)) as [ws|]; simpl;
    [apply CancelFacts.dead_close|]; by apply CancelFacts.clearTimeout_dead.
Qed.

Lemma p2p_react_dead t n o e w :
  Cancel.dead t n (env w) -> Cancel.dead t n (env (react o e w)).
Proof.
  intros H. destruct e; simpl react.
  - by apply p2p_connect_dead.
  - by apply p2p_disconnect_dead.
  - case_decide; [|exact H]. simpl.
    apply CancelFacts.dead_emit; [reflexivity|]. by apply CancelFacts.dead_emit.
  - destruct (Browser.readyState ws (env w)) as [[]|]; try exact H.
    all: unfold ws_onclose; cbn [env refs setRefs setState setEnv];
      destruct (_ && _); [|exact H];
      pose proof (CancelFacts.dead_setTimeout t n
        (reconnectInterval o
         * Js.pow2 (Z.of_nat (S (Hook.reconnectAttemptsRef (refs w))) - 1))
        (Browser.set_readyState ws Browser.CLOSED (env w)) H) as Hs;
      exact Hs.
  - destruct (Browser.readyState ws (env w)); [|exact H]. by apply CancelFacts.dead_emit.
  - case_decide; [|exact H]. destruct payload as [message|]; simpl.
    + by rewrite p2p_handleMessage_env.
    + by apply CancelFacts.dead_emit.
  - unfold advance. by apply p2p_run_timers_dead.
  - destruct r as [msg|[okr st [b|]]]; simpl; try exact H; by apply CancelFacts.dead_emit.
  - destruct r as [msg|[okr st [b|]]]; simpl; try exact H; by apply CancelFacts.dead_emit.
  - unfold sendChat. destruct (Hook.wsRef (refs w)) as [ws|]; [|by apply CancelFacts.dead_emit].
    destruct (Hook.ws_readyState (refs w) (env w)) as [[]|]; simpl;
      first [by apply CancelFacts.dead_send | by apply CancelFacts.dead_emit].
  - by apply p2p_disconnect_dead.
  - unfold resetConnection. simpl. apply CancelFacts.dead_setTimeout.
    by apply p2p_disconnect_dead.
  - by apply CancelFacts.dead_emit.
Qed.

Lemma p2p_run_events_dead t n o es w :
  Cancel.dead t n (env w) -> Cancel.dead t n (env (run_events o es w)).
Proof.
  revert w. induction es as [|e es IH]; intros w H; [exact H|].
  simpl. apply IH. by apply p2p_react_dead.
Qed.

(** *** [advance] fires every timeout that is due *)

Lemma p2p_connect_pending o w :
  Browser.timers (env (connect o w)) = Browser.timers (env w)
  /\ Browser.clock (env (connect o w)) = Browser.clock (env w).
Proof.
  unfold connect.
  destruct (Hook.isConnectingRef (refs w)); [by split|].
  case_decide; [by split|]. case_decide; [by split|].
  destruct (_ <=? _)%nat; [by split|].
  cbn [env setRefs setState]. unfold Browser.newWebSocket.
  destruct (Browser.valid_url (env w) (url o)); by split.
Qed.

Lemma p2p_run_timers_done o fuel w :
  (length (Browser.timers (env w)) <= fuel)%nat ->
  Browser.next_due (Browser.clock (env (run_timers o fuel w)))
                   (Browser.timers (env (run_timers o fuel w))) = None.
Proof.
  revert w. induction fuel as [|k IH]; intros w Hlen.
  - simpl. destruct (Browser.timers (env w)); [reflexivity|simpl in Hlen; lia].
  - simpl.
    destruct (Browser.next_due (Browser.clock (env w)) (Browser.timers (env w)))
      as [[t d]|] eqn:Hdue; [|exact Hdue].
    apply IH. unfold fire.
    destruct (p2p_connect_pending o (setEnv (Browser.expire t) w)) as [-> _]. simpl.
    apply CancelFacts.next_due_pending in Hdue.
    pose proof (length_filter_lt (fun e : positive * Z => e.1 <> t)
                  (Browser.timers (env w)) (t, d) Hdue) as Hlt.
    simpl in Hlt. assert (~ t <> t) as Hnn by (intros Hne; by apply Hne).
    specialize (Hlt Hnn). lia.
Qed.

Lemma p2p_advance_done o dt w :
  Browser.next_due (Browser.clock (env (advance o dt w)))
                   (Browser.timers (env (advance o dt w))) = None.
Proof. unfold advance. by apply p2p_run_timers_done. Qed.

End P2PCancelFacts.

Module OrchestratorCancelFacts.
Import Orchestrator.
Import OrchestratorCancel.

Lemma orch_handleMessage_env event w : env (handleMessage event w) = env w.
Proof. destruct event; reflexivity. Qed.

Lemma sendWorkloadCommand_calm n command workloadId w :
  Cancel.calm n (env w) -> Cancel.calm n (env (sendWorkloadCommand command workloadId w)).
Proof.
  intros Hw. unfold sendWorkloadCommand.
  destruct (Hook.wsRef (refs w)) as [ws|]; [|exact Hw].
  destruct (Hook.ws_readyState (refs w) (env w)) as [[]|]; try exact Hw.
  simpl. by apply CancelFacts.calm_send.
Qed.

Lemma orch_react_calm n o e w :
  passive e = true -> Cancel.calm n (env w) -> Cancel.calm n (env (react o e w)).
Proof.
  intros Hp Hw. destruct e; try discriminate Hp; simpl react.
  - apply bool_decide_eq_true in Hp. subst code.
    destruct (Browser.readyState ws (env w)) as [[]|]; exact Hw.
  - destruct (Browser.readyState ws (env w)); [|exact Hw].
    simpl. by apply CancelFacts.calm_emit.
  - case_decide; [|exact Hw]. destruct payload as [event|].
    + simpl. destruct (for_orchestrator _); [|exact Hw]. by rewrite orch_handleMessage_env.
    + simpl. by apply CancelFacts.calm_emit.
  - unfold advance. simpl. destruct Hw as [Ht Ha]. rewrite Ht. simpl. by split.
  - destruct rejected; exact Hw.
  - destruct r as [msg|[[] st [b|]]]; simpl; try exact Hw; by apply CancelFacts.calm_emit.
  - destruct r as [msg|[[] st [b|]]]; simpl; try exact Hw; by apply CancelFacts.calm_emit.
  - destruct r as [msg|[[] st [b|]]]; simpl; try exact Hw; by apply CancelFacts.calm_emit.
  - destruct r as [msg|[[] st [b|]]]; simpl; try exact Hw; by apply CancelFacts.calm_emit.
  - destruct r as [msg|[[] st b]]; simpl; try (by apply CancelFacts.calm_emit).
    unfold settle. simpl. by apply sendWorkloadCommand_calm.
  - destruct r as [msg|[[] st b]]; simpl; try (by apply CancelFacts.calm_emit).
    unfold settle. simpl. by apply sendWorkloadCommand_calm.
Qed.

Lemma orch_run_events_calm n o es w :
  forallb passive es = true -> Cancel.calm n (env w) ->
  Cancel.calm n (env (run_events o es w)).
Proof.
  revert w. induction es as [|e es IH]; intros w Hp Hw; [exact Hw|].
  apply andb_prop in Hp as [He Hes]. simpl. apply IH; [exact Hes|].
  by apply orch_react_calm.
Qed.

Lemma orch_disconnect_calm w t :
  Hook.reconnectTimerRef (refs w) = Some t ->
  (forall e, e ∈ Browser.timers (env w) -> e.1 = t) ->
  Cancel.calm (Browser.attempts (Browser.trace (env w))) (env (disconnect w)).
Proof.
  intros Ht Hall. unfold disconnect. rewrite Ht. simpl.
  destruct (Hook.wsRef (refs w)) as [ws|]; simpl.
  - apply CancelFacts.calm_close. by apply CancelFacts.calm_clearTimeout.
  - by apply CancelFacts.calm_clearTimeout.
Qed.

Lemma orch_disconnect_refs w :
  refs (disconnect w)
  = {| Hook.wsRef := None; Hook.reconnectTimerRef := None;
       Hook.reconnectAttemptsRef := 0; Hook.isConnectingRef := false |}.
Proof.
  unfold disconnect.
  destruct (Hook.reconnectTimerRef (refs w)) as [t|] eqn:Ht; simpl;
    destruct (Hook.wsRef (refs w)) as [ws|] eqn:Hws; simpl;
    unfold Hook.set_isConnectingRef, Hook.set_reconnectAttemptsRef; simpl;
    rewrite ?Ht, ?Hws; reflexivity.
Qed.

Lemma orch_disconnect_trace w t :
  Hook.reconnectTimerRef (refs w) = Some t ->
  Browser.trace (env (disconnect w))
  = (Browser.trace (env w) ++ [Browser.ClearTimeout t]
     ++ match Hook.wsRef (refs w) with
        | Some ws => [Browser.WsClose ws 1000]
        | None => []
        end)%list.
Proof.
  intros Ht. unfold disconnect. rewrite Ht. simpl.
  destruct (Hook.wsRef (refs w)) as [ws|]; simpl.
  - destruct (Browser.readyState ws _) as [[]|]; simpl; by rewrite <- app_assoc.
  - reflexivity.
Qed.

Lemma orch_connect_dead t n o w :
  Cancel.dead t n (env w) -> Cancel.dead t n (env (connect o w)).
Proof.
  intros H. unfold connect.
  destruct (Hook.isConnectingRef (refs w)); [exact H|].
  case_decide; [exact H|]. case_decide; [exact H|].
  destruct (_ <=? _)%nat; [by apply CancelFacts.dead_emit|].
  cbn [env setRefs setState].
  pose proof (CancelFacts.dead_newWebSocket t n (wsUrl o) (env w) H) as Hn.
  destruct (Browser.newWebSocket (wsUrl o) (env w)) as [b [ws|]]; simpl in *;
    [exact Hn|by apply CancelFacts.dead_emit].
Qed.

Lemma orch_run_timers_dead t n o fuel w :
  Cancel.dead t n (env w) -> Cancel.dead t n (env (run_timers o fuel w)).
Proof.
  revert w. induction fuel as [|k IH]; intros w H; [exact H|].
  simpl. destruct (Browser.next_due _ _) as [[t' d]|] eqn:Hdue; [|exact H].
  apply IH. unfold fire. apply orch_connect_dead. simpl.
  apply CancelFacts.dead_expire; [|exact H].
  apply CancelFacts.next_due_pending in Hdue. destruct H as (Hp & _). by apply Hp in Hdue.
Qed.

Lemma orch_disconnect_dead t n w :
  Cancel.dead t n (env w) -> Cancel.dead t n (env (disconnect w)).
Proof.
  intros H. unfold disconnect.
  destruct (Hook.reconnectTimerRef (refs w)) as [t'|]; simpl;
    destruct (Hook.wsRef (refs w)) as [ws|]; simpl;
    repeat first [exact H | apply CancelFacts.dead_close | apply CancelFacts.dead_clearTimeout].
Qed.

Lemma orch_disconnect_kills t w :
  Hook.reconnectTimerRef (refs w) = Some t ->
  (t < Browser.next_timer (env w))%positive ->
  Cancel.dead t (Cancel.firings t (Browser.trace (env w))) (env (disconnect w)).
Proof.
  intros Ht Hlt. unfold disconnect. rewrite Ht. simpl.
  destruct (Hook.wsRef (refs w)) as [ws|]; simpl;
    [apply CancelFacts.dead_close|]; by apply CancelFacts.clearTimeout_dead.
Qed.

Lemma sendWorkloadCommand_dead t n command workloadId w :
  Cancel.dead t n (env w) ->
  Cancel.dead t n (env (sendWorkloadCommand command workloadId w)).
Proof.
  intros H. unfold sendWorkloadCommand.
  destruct (Hook.wsRef (refs w)) as [ws|]; [|exact H].
  destruct (Hook.ws_readyState (refs w) (env w)) as [[]|]; try exact H.
  simpl. by apply CancelFacts.dead_send.
Qed.

Lemma orch_react_dead t n o e w :
  Cancel.dead t n (env w) -> Cancel.dead t n (env (react o e w)).
Proof.
  intros H. destruct e; simpl react.
  - destruct (autoConnect o); [by apply orch_connect_dead|exact H].
  - by apply orch_disconnect_dead.
  - case_decide; [|exact H]. simpl.
    repeat (first [apply CancelFacts.dead_send | apply CancelFacts.dead_emit; [reflexivity|]]).
    exact H.
  - destruct (Browser.readyState ws (env w)) as [[]|]; try exact H.
    all: unfold ws_onclose; cbn [env refs setRefs setState setEnv];
      destruct (_ && _); [|exact H];
      pose proof (CancelFacts.dead_setTimeout t n
        (reconnectInterval o
         * Js.pow2 (Z.of_nat (S (Hook.reconnectAttemptsRef (refs w))) - 1))
        (Browser.set_readyState ws Browser.CLOSED (env w)) H) as Hs;
      exact Hs.
  - destruct (Browser.readyState ws (env w)); [|exact H]. by apply CancelFacts.dead_emit.
  - case_decide; [|exact H]. destruct payload as [event|]; simpl.
    + destruct (for_orchestrator _); [|exact H]. by rewrite orch_handleMessage_env.
    + by apply CancelFacts.dead_emit.
  - unfold advance. by apply orch_run_timers_dead.
  - by apply orch_connect_dead.
  - by apply orch_disconnect_dead.
  - unfold resetConnection. simpl. apply CancelFacts.dead_setTimeout.
    by apply orch_disconnect_dead.
  - simpl. repeat (apply CancelFacts.dead_emit; [reflexivity|]). exact H.
  - destruct rejected; exact H.
  - by apply CancelFacts.dead_emit.
  - by apply CancelFacts.dead_emit.
  - by apply CancelFacts.dead_emit.
  - destruct r as [msg|[[] st [b|]]]; simpl; try exact H; by apply CancelFacts.dead_emit.
  - destruct r as [msg|[[] st [b|]]]; simpl; try exact H; by apply CancelFacts.dead_emit.
  - destruct r as [msg|[[] st [b|]]]; simpl; try exact H; by apply CancelFacts.dead_emit.
  - by apply CancelFacts.dead_emit.
  - destruct r as [msg|[[] st [b|]]]; simpl; try exact H; by apply CancelFacts.dead_emit.
  - by apply CancelFacts.dead_emit.
  - destruct r as [msg|[[] st b]]; simpl; try (by apply CancelFacts.dead_emit).
    unfold settle. simpl. by apply sendWorkloadCommand_dead.
  - by apply CancelFacts.dead_emit.
  - destruct r as [msg|[[] st b]]; simpl; try (by apply CancelFacts.dead_emit).
    unfold settle. simpl. by apply sendWorkloadCommand_dead.
  - exact H.
Qed.

Lemma orch_run_events_dead t n o es w :
  Cancel.dead t n (env w) -> Cancel.dead t n (env (run_events o es w)).
Proof.
  revert w. induction es as [|e es IH]; intros w H; [exact H|].
  simpl. apply IH. by apply orch_react_dead.
Qed.

(** *** [advance] fires every timeout that is due *)

Lemma orch_connect_pending o w :
  Browser.timers (env (connect o w)) = Browser.timers (env w)
  /\ Browser.clock (env (connect o w)) = Browser.clock (env w).
Proof.
  unfold connect.
  destruct (Hook.isConnectingRef (refs w)); [by split|].
  case_decide; [by split|]. case_decide; [by split|].
  destruct (_ <=? _)%nat; [by split|].
  cbn [env setRefs setState]. unfold Browser.newWebSocket.
  destruct (Browser.valid_url (env w) (wsUrl o)); by split.
Qed.

Lemma orch_run_timers_done o fuel w :
  (length (Browser.timers (env w)) <= fuel)%nat ->
  Browser.next_due (Browser.clock (env (run_timers o fuel w)))
                   (Browser.timers (env (run_timers o fuel w))) = None.
Proof.
  revert w. induction fuel as [|k IH]; intros w Hlen.
  - simpl. destruct (Browser.timers (env w)); [reflexivity|simpl in Hlen; lia].
  - simpl.
    destruct (Browser.next_due (Browser.clock (env w)) (Browser.timers (env w)))
      as [[t d]|] eqn:Hdue; [|exact Hdue].
    apply IH. unfold fire.
    destruct (orch_connect_pending o (setEnv (Browser.expire t) w)) as [-> _]. simpl.
    apply CancelFacts.next_due_pending in Hdue.
    pose proof (length_filter_lt (fun e : positive * Z => e.1 <> t)
                  (Browser.timers (env w)) (t, d) Hdue) as Hlt.
    simpl in Hlt. assert (~ t <> t) as Hnn by (intros Hne; by apply Hne).
    specialize (Hlt Hnn). lia.
Qed.

Lemma orch_advance_done o dt w :
  Browser.next_due (Browser.clock (env (advance o dt w)))
                   (Browser.timers (env (advance o dt w))) = None.
Proof. unfold advance. by apply orch_run_timers_done. Qed.

End OrchestratorCancelFacts.

(** Left alone, the scheduled reconnect does fire: three seconds after
    the first failure the callback runs and a second socket is built. *)
Example scheduled_reconnect_fires :
  Cancel.firings 1 (Browser.trace (P2P.env
     (P2P.run_events P2P.default_options [P2P.Elapsed 3000] Scheduled.p2p_waiting))) = 1%nat
  /\ Browser.attempts (Browser.trace (P2P.env Scheduled.p2p_waiting)) = 1%nat
  /\ Browser.attempts (Browser.trace (P2P.env
       (P2P.run_events P2P.default_options [P2P.Elapsed 3000] Scheduled.p2p_waiting)))
     = 2%nat.
Proof. vm_compute. repeat split. Qed.

(** X23.  What [disconnect] does achieve.  Let it be called while
    [reconnectTimerRef] holds the id [t] of a scheduled reconnect.  Then
    [clearTimeout(t)] is called, the refs are back to their initial values (budget zero, no timer, no
    socket, not connecting), the socket the hook held, if it held one,
    has been asked to close with code 1000, [t] is no longer pending, and
    its callback never runs afterwards, whatever happens to the hook.
    If moreover that reconnect was the only pending timeout, nothing is
    pending any more and no connection attempt is made from then on,
    whatever time passes and whatever the sockets and the fetches in
    flight still deliver (errors, frames, clean closes, settlements).
    Both hooks. *)
Theorem disconnect_cancels_scheduled_reconnect :
  (forall o w t,
     Hook.reconnectTimerRef (P2P.refs w) = Some t ->
     (t < Browser.next_timer (P2P.env w))%positive ->
     let w' := P2P.disconnect w in
     Browser.trace (P2P.env w')
     = (Browser.trace (P2P.env w) ++ [Browser.ClearTimeout t]
        ++ match Hook.wsRef (P2P.refs w) with
           | Some ws => [Browser.WsClose ws 1000]
           | None => []
           end)%list
     /\ P2P.refs w' = Hook.init
     /\ (forall e, e ∈ Browser.timers (P2P.env w') -> e.1 <> t)
     /\ (forall es,
           Cancel.firings t (Browser.trace (P2P.env (P2P.run_events o es w')))
           = Cancel.firings t (Browser.trace (P2P.env w)))
     /\ ((forall e, e ∈ Browser.timers (P2P.env w) -> e.1 = t) ->
          Browser.timers (P2P.env w') = []
          /\ forall es,
               forallb P2PCancel.passive es = true ->
               Browser.attempts (Browser.trace (P2P.env (P2P.run_events o es w')))
               = Browser.attempts (Browser.trace (P2P.env w))))
  /\ (forall o w t,
        Hook.reconnectTimerRef (Orchestrator.refs w) = Some t ->
        (t < Browser.next_timer (Orchestrator.env w))%positive ->
        let w' := Orchestrator.disconnect w in
        Browser.trace (Orchestrator.env w')
        = (Browser.trace (Orchestrator.env w) ++ [Browser.ClearTimeout t]
           ++ match Hook.wsRef (Orchestrator.refs w) with
              | Some ws => [Browser.WsClose ws 1000]
              | None => []
              end)%list
        /\ Orchestrator.refs w' = Hook.init
        /\ (forall e, e ∈ Browser.timers (Orchestrator.env w') -> e.1 <> t)
        /\ (forall es,
              Cancel.firings t
                (Browser.trace (Orchestrator.env (Orchestrator.run_events o es w')))
              = Cancel.firings t (Browser.trace (Orchestrator.env w)))
        /\ ((forall e, e ∈ Browser.timers (Orchestrator.env w) -> e.1 = t) ->
             Browser.timers (Orchestrator.env w') = []
             /\ forall es,
                  forallb OrchestratorCancel.passive es = true ->
                  Browser.attempts
                    (Browser.trace (Orchestrator.env (Orchestrator.run_events o es w')))
                  = Browser.attempts (Browser.trace (Orchestrator.env w)))).
Proof.
  split.
  - intros o w t Ht Hlt w'.
    pose proof (P2PCancelFacts.p2p_disconnect_kills t w Ht Hlt) as Hdead. fold w' in Hdead.
    split; [by apply P2PCancelFacts.p2p_disconnect_trace|].
    split; [apply P2PCancelFacts.p2p_disconnect_refs|].
    split; [apply Hdead|].
    split; [intros es; by apply (P2PCancelFacts.p2p_run_events_dead t _ o es w' Hdead)|].
    intros Hall.
    pose proof (P2PCancelFacts.p2p_disconnect_calm w t Ht Hall) as Hcalm. fold w' in Hcalm.
    split; [apply Hcalm|].
    intros es Hes. by apply (P2PCancelFacts.p2p_run_events_calm _ o es w' Hes Hcalm).
  - intros o w t Ht Hlt w'.
    pose proof (OrchestratorCancelFacts.orch_disconnect_kills t w Ht Hlt) as Hdead.
    fold w' in Hdead.
    split; [by apply OrchestratorCancelFacts.orch_disconnect_trace|].
    split; [apply OrchestratorCancelFacts.orch_disconnect_refs|].
    split; [apply Hdead|].
    split; [intros es; by apply (OrchestratorCancelFacts.orch_run_events_dead t _ o es w' Hdead)|].
    intros Hall.
    pose proof (OrchestratorCancelFacts.orch_disconnect_calm w t Ht Hall) as Hcalm.
    fold w' in Hcalm.
    split; [apply Hcalm|].
    intros es Hes. by apply (OrchestratorCancelFacts.orch_run_events_calm _ o es w' Hes Hcalm).
Qed.

Lemma disconnect_cancels_scheduled_reconnect_witness :
  Hook.reconnectTimerRef (P2P.refs Scheduled.p2p_waiting) = Some 1%positive
  /\ (1 < Browser.next_timer (P2P.env Scheduled.p2p_waiting))%positive
  /\ (forall e, e ∈ Browser.timers (P2P.env Scheduled.p2p_waiting) -> e.1 = 1%positive)
  /\ Browser.attempts (Browser.trace (P2P.env
       (P2P.run_events P2P.default_options [P2P.Elapsed 3000; P2P.Elapsed 600000]
          (P2P.disconnect Scheduled.p2p_waiting))))
     = Browser.attempts (Browser.trace (P2P.env Scheduled.p2p_waiting))
  /\ Hook.reconnectTimerRef (Orchestrator.refs Scheduled.orchestrator_waiting)
     = Some 1%positive
  /\ (1 < Browser.next_timer (Orchestrator.env Scheduled.orchestrator_waiting))%positive
  /\ (forall e, e ∈ Browser.timers (Orchestrator.env Scheduled.orchestrator_waiting) ->
        e.1 = 1%positive)
  /\ Browser.attempts (Browser.trace (Orchestrator.env
       (Orchestrator.run_events Orchestrator.default_options
          [Orchestrator.Elapsed 3000; Orchestrator.Elapsed 600000]
          (Orchestrator.disconnect Scheduled.orchestrator_waiting))))
     = Browser.attempts (Browser.trace (Orchestrator.env Scheduled.orchestrator_waiting)).
Proof.
  assert (Hook.reconnectTimerRef (P2P.refs Scheduled.p2p_waiting) = Some 1%positive)
    as Ht by (vm_compute; reflexivity).
  assert (1 < Browser.next_timer (P2P.env Scheduled.p2p_waiting))%positive
    as Hlt by (vm_compute; reflexivity).
  assert (forall e, e ∈ Browser.timers (P2P.env Scheduled.p2p_waiting) -> e.1 = 1%positive)
    as Hall.
  { intros e He. vm_compute in He. apply list_elem_of_singleton in He. by subst e. }
  assert (Hook.reconnectTimerRef (Orchestrator.refs Scheduled.orchestrator_waiting)
          = Some 1%positive) as Ht' by (vm_compute; reflexivity).
  assert (1 < Browser.next_timer (Orchestrator.env Scheduled.orchestrator_waiting))%positive
    as Hlt' by (vm_compute; reflexivity).
  assert (forall e, e ∈ Browser.timers (Orchestrator.env Scheduled.orchestrator_waiting) ->
            e.1 = 1%positive) as Hall'.
  { intros e He. vm_compute in He. apply list_elem_of_singleton in He. by subst e. }
  destruct disconnect_cancels_scheduled_reconnect as [Hp Ho].
  split; [exact Ht|]. split; [exact Hlt|]. split; [exact Hall|].
  split; [exact (proj2 (proj2 (proj2 (proj2 (proj2
                   (Hp P2P.default_options Scheduled.p2p_waiting 1%positive Ht Hlt))))
                   Hall) [P2P.Elapsed 3000; P2P.Elapsed 600000] eq_refl)|].
  split; [exact Ht'|]. split; [exact Hlt'|]. split; [exact Hall'|].
  exact (proj2 (proj2 (proj2 (proj2 (proj2
           (Ho Orchestrator.default_options Scheduled.orchestrator_waiting 1%positive
               Ht' Hlt')))) Hall')
           [Orchestrator.Elapsed 3000; Orchestrator.Elapsed 600000] eq_refl).
Defined.

(** C6 fails on the code.  [disconnect] cancels the one timeout whose id
    is in [reconnectTimerRef], and [ws.onclose] puts a new id there
    without clearing the timeout whose id it replaces.  In the world
    below two reconnects are scheduled, 3000 and 6000 ms after the two
    closes, and the ref holds the second.  [disconnect] clears that one
    only; three seconds later the first fires, [connect] finds the refs
    reset and builds a third socket, on which the hook is connecting
    although it was disconnected.  Both hooks. *)
Theorem disconnect_misses_overwritten_reconnect :
  (let w := Scheduled.p2p_overwritten in
   let w' := P2P.run_events P2P.default_options [P2P.Disconnect; P2P.Elapsed 3000] w in
   Hook.reconnectTimerRef (P2P.refs w) = Some 3%positive
   /\ Browser.timers (P2P.env w) = [(2%positive, 3100); (3%positive, 6100)]
   /\ Browser.trace (P2P.env w')
      = (Browser.trace (P2P.env w)
           ++ [Browser.ClearTimeout 3; Browser.TimeoutFired 2;
               Browser.NewWebSocket (P2P.url P2P.default_options) 2])%list
   /\ Hook.wsRef (P2P.refs w') = Some 2%nat
   /\ Hook.isConnectingRef (P2P.refs w') = true)
  /\ (let w := Scheduled.orchestrator_overwritten in
      let w' := Orchestrator.run_events Orchestrator.default_options
                  [Orchestrator.Disconnect; Orchestrator.Elapsed 3000] w in
      Hook.reconnectTimerRef (Orchestrator.refs w) = Some 3%positive
      /\ Browser.timers (Orchestrator.env w) = [(2%positive, 3100); (3%positive, 6100)]
      /\ Browser.trace (Orchestrator.env w')
         = (Browser.trace (Orchestrator.env w)
              ++ [Browser.ClearTimeout 3; Browser.TimeoutFired 2;
                  Browser.NewWebSocket
                    (Orchestrator.wsUrl Orchestrator.default_options) 2])%list
      /\ Hook.wsRef (Orchestrator.refs w') = Some 2%nat
      /\ Hook.isConnectingRef (Orchestrator.refs w') = true).
Proof. vm_compute. repeat split. Qed.

(** * Further properties *)

(** ** The normalizer *)

Module NamingFacts.

Lemma slice0_prefix n s : String.prefix (Js.slice0 n s) s = true.
Proof.
  unfold Js.slice0. revert s. induction n as [|n IH]; intros [|c s]; simpl;
    try reflexivity.
  rewrite IH. by destruct (Ascii.ascii_dec c c).
Qed.

Lemma slice0_length n s : String.length (Js.slice0 n s) = Nat.min n (String.length s).
Proof.
  unfold Js.slice0. revert s. induction n as [|n IH]; intros [|c s]; simpl;
    try reflexivity.
  by rewrite IH.
Qed.

Lemma or_str_cases a b :
  (forall v, a = Some v -> v <> "" -> Js.or_str a b = Some v)
  /\ (Js.truthy a = false -> Js.or_str a b = b).
Proof.
  unfold Js.or_str. split.
  - intros v -> Hv. apply JsFacts.truthy_Some_ne in Hv. by rewrite Hv.
  - by intros ->.
Qed.

End NamingFacts.

(** X1.  How [normalizePeer] names and identifies a peer.  The id is
    the payload's [id] when that is a non-empty string, else its
    [peer_id] when that is one, else the empty string.  The name is the
    payload's [name] when non-empty, else its [display_name] when
    non-empty, else ["Peer-"] followed by the first twelve characters of
    the id (a prefix of the id, the whole of it when it is shorter).
    So every normalized peer has a name, and its id is empty exactly
    when the payload has neither a non-empty [id] nor a non-empty
    [peer_id]. *)
Theorem normalizePeer_names_every_peer :
  forall peer,
    let normalized := P2P.normalizePeer peer in
    let id := NormalizedPeer.id normalized in
    let name := NormalizedPeer.name normalized in
    (* the id *)
    (forall i, RawPeer.id peer = Some i -> i <> "" -> id = i)
    /\ (Js.truthy (RawPeer.id peer) = false ->
        forall p, RawPeer.peer_id peer = Some p -> id = p)
    /\ (Js.truthy (RawPeer.id peer) = false -> RawPeer.peer_id peer = None -> id = "")
    /\ (id = ""
        <-> Js.truthy (RawPeer.id peer) = false /\ Js.truthy (RawPeer.peer_id peer) = false)
    (* the name *)
    /\ (forall n, RawPeer.name peer = Some n -> n <> "" -> name = n)
    /\ (Js.truthy (RawPeer.name peer) = false ->
        forall d, RawPeer.display_name peer = Some d -> d <> "" -> name = d)
    /\ (Js.truthy (RawPeer.name peer) = false ->
        Js.truthy (RawPeer.display_name peer) = false ->
        name = "Peer-" +:+ Js.slice0 12 id)
    /\ String.prefix (Js.slice0 12 id) id = true
    /\ String.length (Js.slice0 12 id) = Nat.min 12 (String.length id)
    /\ name <> "".
Proof.
  intros peer normalized id name. subst normalized id name.
  unfold P2P.normalizePeer. cbn [NormalizedPeer.id NormalizedPeer.name].
  set (i := default "" (Js.or_str (RawPeer.id peer) (RawPeer.peer_id peer))).
  destruct (NamingFacts.or_str_cases (RawPeer.id peer) (RawPeer.peer_id peer)) as [Hi1 Hi2].
  destruct (NamingFacts.or_str_cases (RawPeer.name peer) (RawPeer.display_name peer))
    as [Hn1 Hn2].
  assert (Hname : forall v, Js.or_str (RawPeer.name peer) (RawPeer.display_name peer) = Some v ->
                    v <> "" ->
                    default ("Peer-" +:+ Js.slice0 12 i)
                      (Js.or_str (Js.or_str (RawPeer.name peer) (RawPeer.display_name peer))
                         None) = v).
  { intros v Hv Hne. rewrite Hv.
    destruct (NamingFacts.or_str_cases (Some v) None) as [H _].
    by rewrite (H v eq_refl Hne). }
  repeat match goal with |- _ /\ _ => split end.
  - intros v Hv Hne. subst i. by rewrite (Hi1 v Hv Hne).
  - intros Hf p Hp. subst i. by rewrite (Hi2 Hf), Hp.
  - intros Hf Hp. subst i. by rewrite (Hi2 Hf), Hp.
  - subst i. unfold Js.or_str. destruct (Js.truthy (RawPeer.id peer)) eqn:Hi.
    + destruct (JsFacts.truthy_is_Some _ Hi) as (v & -> & Hv). simpl.
      split; [intros ->; by destruct Hv|intros [? _]; discriminate].
    + destruct (RawPeer.peer_id peer) as [v|] eqn:Hp; simpl.
      * split.
        -- intros ->. by split.
        -- intros [_ Hf]. destruct (String.eqb_spec v ""); [done|discriminate].
      * by split.
  - intros n Hn Hne. apply Hname; [|exact Hne]. by apply Hn1.
  - intros Hf d Hd Hne. apply Hname; [|exact Hne]. by rewrite (Hn2 Hf).
  - intros Hf Hd. rewrite (Hn2 Hf). unfold Js.or_str at 1. by rewrite Hd.
  - apply NamingFacts.slice0_prefix.
  - apply NamingFacts.slice0_length.
  - destruct (Js.or_str (Js.or_str (RawPeer.name peer) (RawPeer.display_name peer)) None)
      as [n|] eqn:Hn; simpl.
    + unfold Js.or_str at 1 in Hn.
      destruct (Js.truthy (Js.or_str (RawPeer.name peer) (RawPeer.display_name peer)))
        eqn:Ht; [|discriminate].
      rewrite Hn in Ht. by apply JsFacts.truthy_Some_ne.
    + discriminate.
Qed.

(** X2.  A [peer_joined] or [peer_left] frame that carries the peer
    identifier under [data.peer_id] is handled exactly as the frame that
    carries it in its flat [peer_id] field. *)
Theorem identifier_paths_agree :
  forall id v name display_name reputation location addresses
         m_peers peer_info d_peers d_chat m_chat w,
    P2P.handleMessage
      (P2P.mkMessage "peer_joined"
         (RawPeer.mk id (Some v) name display_name reputation location addresses)
         m_peers peer_info None m_chat) w
    = P2P.handleMessage
        (P2P.mkMessage "peer_joined"
           (RawPeer.mk id None name display_name reputation location addresses)
           m_peers peer_info (Some (P2P.mkData (Some v) d_peers None d_chat)) m_chat) w
    /\ P2P.handleMessage
         (P2P.mkMessage "peer_left"
            (RawPeer.mk id (Some v) name display_name reputation location addresses)
            m_peers peer_info None m_chat) w
       = P2P.handleMessage
           (P2P.mkMessage "peer_left"
              (RawPeer.mk id None name display_name reputation location addresses)
              m_peers peer_info (Some (P2P.mkData (Some v) d_peers None d_chat)) m_chat) w.
Proof.
  intros. unfold P2P.handleMessage, P2P.find_peer_id, Js.or_str.
  cbn [P2P.type P2P.flat P2P.data P2P.peer_info P2P.d_peer_id P2P.d_peer_info
       RawPeer.peer_id mbind option_bind Js.or_obj].
  change (Js.truthy None) with false. cbv iota.
  split; repeat (destruct (decide _); try done; []).
  - destruct (Js.truthy (Some v)) eqn:E; rewrite ?E; [|reflexivity].
    destruct peer_info as [info|]; [reflexivity|].
    change (default "" (Some v)) with v.
    unfold P2P.normalizePeer, RawPeer.with_id, Js.or_str.
    cbn [RawPeer.id RawPeer.peer_id RawPeer.name RawPeer.display_name RawPeer.reputation
         RawPeer.location RawPeer.addresses Js.or_obj].
    rewrite !E. reflexivity.
  - destruct (Js.truthy (Some v)) eqn:E; rewrite ?E; reflexivity.
Qed.

(** ** Joining and leaving *)

Module RosterFacts.
Import P2P Roster P2PStoreFacts.



Lemma react_messages o e w :
  messages (state (react o e w))
  = match appends e w with
    | Some m => (Js.slice_last 99 (messages (state w)) ++ [m])%list
    | None => messages (state w)
    end.
Proof.
  destruct e; simpl react; simpl appends.
  - by rewrite connect_state.
  - by rewrite disconnect_state.
  - case_decide; reflexivity.
  - unfold ws_onclose. crush; reflexivity.
  - unfold ws_onerror. crush; reflexivity.
  - destruct payload as [message|]; [|case_decide; reflexivity].
    case_decide; [|reflexivity].
    simpl. unfold handleMessage, incoming.
    repeat (case_decide; try congruence); try reflexivity;
      destruct (Js.truthy _); reflexivity.
  - by rewrite advance_state.
  - destruct r as [msg|[okr st [info|]]]; reflexivity.
  - destruct r as [msg|[okr st [received|]]]; reflexivity.
  - unfold sendChat, Chat.echo. crush; reflexivity.
  - by rewrite disconnect_state.
  - unfold resetConnection. simpl. by rewrite disconnect_state.
  - reflexivity.
Qed.

Lemma slice_last_all {A} n (l : list A) : (length l <= n)%nat -> Js.slice_last n l = l.
Proof. intros H. unfold Js.slice_last. by replace (length l - n)%nat with 0%nat by lia. Qed.

Lemma slice_last_tail {A} n (x : A) (l : list A) :
  length l = n -> Js.slice_last n (x :: l) = l.
Proof.
  intros H. unfold Js.slice_last. simpl length.
  by replace (S (length l) - n)%nat with 1%nat by lia.
Qed.

End RosterFacts.



(** X4.  The message log never holds more than a hundred entries,
    whatever happens to the hook.  An incoming [chat_message] frame and
    the echo of a sent message are put at the end of the log; while the
    log holds fewer than a hundred entries nothing is dropped, and once
    it holds a hundred the oldest entry is dropped for the new one.  No
    other event changes the log. *)
Theorem message_log_bounded :
  (forall valid o es,
     (length (P2P.messages (P2P.state (P2P.run_events o es (P2P.init valid)))) <= 100)%nat)
  /\ (forall o e w m,
        Roster.appends e w = Some m ->
        (length (P2P.messages (P2P.state w)) < 100)%nat ->
        P2P.messages (P2P.state (P2P.react o e w)) = (P2P.messages (P2P.state w) ++ [m])%list)
  /\ (forall o e w m oldest rest,
        Roster.appends e w = Some m ->
        P2P.messages (P2P.state w) = oldest :: rest -> length rest = 99%nat ->
        P2P.messages (P2P.state (P2P.react o e w)) = (rest ++ [m])%list)
  /\ (forall o e w,
        Roster.appends e w = None ->
        P2P.messages (P2P.state (P2P.react o e w)) = P2P.messages (P2P.state w)).
Proof.
  repeat match goal with |- _ /\ _ => split end.
  - intros valid o es.
    assert (H : forall w, (length (P2P.messages (P2P.state w)) <= 100)%nat ->
                          (length (P2P.messages (P2P.state (P2P.run_events o es w))) <= 100)%nat).
    { induction es as [|e es IH]; intros w Hw; [exact Hw|].
      simpl. apply IH. rewrite RosterFacts.react_messages.
      destruct (Roster.appends e w); [|exact Hw].
      rewrite length_app. simpl.
      pose proof (JsFacts.slice_last_length 99 (P2P.messages (P2P.state w))). lia. }
    apply H. simpl. lia.
  - intros o e w m Hm Hlen. rewrite RosterFacts.react_messages, Hm.
    rewrite RosterFacts.slice_last_all; [reflexivity|lia].
  - intros o e w m oldest rest Hm Hw Hlen. rewrite RosterFacts.react_messages, Hm, Hw.
    by rewrite RosterFacts.slice_last_tail.
  - intros o e w Hm. by rewrite RosterFacts.react_messages, Hm.
Qed.

Lemma message_log_bounded_witness :
  let w := P2P.setEnv (Browser.set_readyState 0 Browser.OPEN)
             (P2P.connect P2P.default_options (P2P.init (fun _ => true))) in
  P2P.messages (P2P.state
     (P2P.react P2P.default_options (P2P.Received 0 (Some Roster.chat_hello)) w))
  = [Roster.hello].
Proof.
  intros w.
  exact (proj1 (proj2 message_log_bounded) P2P.default_options
           (P2P.Received 0 (Some Roster.chat_hello)) w Roster.hello
           eq_refl ltac:(simpl; lia)).
Defined.

(** X5.  Frames the hooks do not handle change nothing.  In [useP2P] a
    frame whose type is none of [peers_list], [peer_joined], [peer_left]
    and [chat_message] leaves the hook as it was, and a frame that is
    not JSON is only reported on the console.  In [useOrchestrator] the
    type test of [ws.onmessage] lets through every event
    [handleMessage] has a case for, so that the handler acts on a parsed
    frame exactly as [handleMessage] does, and a frame of any other type
    leaves the hook as it was. *)
Theorem unhandled_frames_change_nothing :
  (forall message w,
     P2P.type message <> "peers_list" -> P2P.type message <> "peer_joined" ->
     P2P.type message <> "peer_left" -> P2P.type message <> "chat_message" ->
     P2P.ws_onmessage (Some message) w = w)
  /\ (forall w,
        P2P.state (P2P.ws_onmessage None w) = P2P.state w
        /\ P2P.refs (P2P.ws_onmessage None w) = P2P.refs w
        /\ Browser.sockets (P2P.env (P2P.ws_onmessage None w)) = Browser.sockets (P2P.env w)
        /\ Browser.timers (P2P.env (P2P.ws_onmessage None w)) = Browser.timers (P2P.env w)
        /\ Browser.trace (P2P.env (P2P.ws_onmessage None w))
           = (Browser.trace (P2P.env w)
                ++ [Browser.ConsoleError "Failed to parse message:"])%list)
  /\ (forall event w,
        Orchestrator.ws_onmessage (Some event) w = Orchestrator.handleMessage event w)
  /\ (forall type w,
        Orchestrator.ws_onmessage (Some (Orchestrator.other type)) w = w)
  /\ (forall w,
        Orchestrator.state (Orchestrator.ws_onmessage None w) = Orchestrator.state w
        /\ Orchestrator.refs (Orchestrator.ws_onmessage None w) = Orchestrator.refs w
        /\ Browser.sockets (Orchestrator.env (Orchestrator.ws_onmessage None w))
           = Browser.sockets (Orchestrator.env w)
        /\ Browser.timers (Orchestrator.env (Orchestrator.ws_onmessage None w))
           = Browser.timers (Orchestrator.env w)).
Proof.
  split; [|split; [|split; [|split]]].
  - intros message w H1 H2 H3 H4. simpl. unfold P2P.handleMessage.
    repeat (destruct (decide _); try done).
  - intros w. repeat split; reflexivity.
  - intros event w. unfold Orchestrator.ws_onmessage.
    destruct event; try reflexivity.
    simpl. by destruct (Orchestrator.for_orchestrator type).
  - intros type w. unfold Orchestrator.ws_onmessage. simpl.
    by destruct (Orchestrator.for_orchestrator type).
  - intros w. repeat split; reflexivity.
Qed.

Lemma unhandled_frames_change_nothing_witness :
  P2P.ws_onmessage (Some Roster.pong) Frames.online = Frames.online.
Proof.
  apply (proj1 unhandled_frames_change_nothing Roster.pong Frames.online); discriminate.
Defined.

(** ** The reconnect budget over a whole run *)

Module WaitingFacts.
Import Waiting.

Lemma waited_app a b : waited (a ++ b) = waited a + waited b.
Proof. induction a as [|e a IH]; simpl; [reflexivity|]. rewrite IH. lia. Qed.

Lemma waited_emit e b :
  waited (Browser.trace (Browser.emit e b)) = waited (Browser.trace b) + delay_of e.
Proof. simpl. rewrite waited_app. simpl. lia. Qed.

Lemma waited_newWebSocket url b :
  waited (Browser.trace (Browser.newWebSocket url b).1) = waited (Browser.trace b).
Proof.
  unfold Browser.newWebSocket. destruct (Browser.valid_url b url); simpl;
    rewrite waited_app; simpl; lia.
Qed.

Lemma waited_close ws code b :
  waited (Browser.trace (Browser.close ws code b)) = waited (Browser.trace b).
Proof.
  unfold Browser.close. rewrite waited_emit.
  destruct (Browser.readyState ws b) as [[]|]; simpl; lia.
Qed.

Lemma waited_clearTimeout t b :
  waited (Browser.trace (Browser.clearTimeout t b)) = waited (Browser.trace b).
Proof. unfold Browser.clearTimeout. rewrite waited_emit. simpl. lia. Qed.

Lemma waited_expire t b :
  waited (Browser.trace (Browser.expire t b)) = waited (Browser.trace b).
Proof. unfold Browser.expire. rewrite waited_emit. simpl. lia. Qed.

Ltac trace_sum :=
  repeat first
    [ rewrite waited_app | rewrite waited_emit | rewrite waited_newWebSocket
    | rewrite waited_close | rewrite waited_clearTimeout | rewrite waited_expire
    | progress cbn [P2P.env P2P.refs P2P.setEnv P2P.setRefs P2P.setState
                    Orchestrator.env Orchestrator.refs Orchestrator.setEnv
                    Orchestrator.setRefs Orchestrator.setState fst snd]
    | progress simpl ];
  try lia.

(** *** useP2P *)

Lemma p2p_connect_waited o w : p2p_waited (P2P.connect o w) = p2p_waited w.
Proof.
  unfold p2p_waited, P2P.connect.
  destruct (Hook.isConnectingRef _); [reflexivity|].
  case_decide; [reflexivity|]. case_decide; [reflexivity|].
  destruct (_ <=? _)%nat; [trace_sum|].
  cbn [P2P.env P2P.setRefs].
  pose proof (waited_newWebSocket (P2P.url o) (P2P.env w)) as Hn.
  destruct (Browser.newWebSocket (P2P.url o) (P2P.env w)) as [b [ws|]]; simpl in *.
  - exact Hn.
  - rewrite waited_app, Hn. simpl. lia.
Qed.

Lemma p2p_disconnect_waited w : p2p_waited (P2P.disconnect w) = p2p_waited w.
Proof.
  unfold p2p_waited, P2P.disconnect.
  destruct (Hook.reconnectTimerRef _);
    cbn [P2P.env P2P.refs P2P.setEnv P2P.setRefs Hook.wsRef Hook.set_reconnectTimerRef
         Hook.set_reconnectAttemptsRef Hook.set_isConnectingRef];
    destruct (Hook.wsRef _); trace_sum.
Qed.

Lemma p2p_run_timers_waited o fuel w : p2p_waited (P2P.run_timers o fuel w) = p2p_waited w.
Proof.
  revert w. induction fuel as [|n IH]; intros w; [reflexivity|].
  simpl. destruct (Browser.next_due _ _) as [[t d]|]; [|reflexivity].
  rewrite IH. unfold P2P.fire. rewrite p2p_connect_waited.
  unfold p2p_waited. trace_sum.
Qed.

Lemma p2p_react_waited o e w :
  P2PConn.quiet e = true ->
  p2p_waited (P2P.react o e w)
  = p2p_waited w
    + (if P2PConn.closes e w && (P2PConn.attempts w <? P2P.maxReconnectAttempts o)%nat
       then P2P.reconnectInterval o * 2 ^ Z.of_nat (P2PConn.attempts w) else 0).
Proof.
  intros Hq. destruct e; try discriminate Hq; simpl P2P.react; simpl P2PConn.closes;
    rewrite ?Z.add_0_r.
  - apply p2p_connect_waited.
  - unfold P2PConn.deliverable, P2P.ws_onclose, P2PConn.attempts, p2p_waited.
    destruct (Browser.readyState ws (P2P.env w)) as [[]|];
      destruct (bool_decide (code <> 1000)); simpl; try lia;
      destruct (_ <? _)%nat; simpl; rewrite ?waited_app; simpl; unfold Js.pow2;
      try lia.
    all: replace (Z.of_nat (S (Hook.reconnectAttemptsRef (P2P.refs w))) - 1)
      with (Z.of_nat (Hook.reconnectAttemptsRef (P2P.refs w))) by lia; lia.
  - unfold P2P.ws_onerror, p2p_waited.
    destruct (Browser.readyState ws (P2P.env w)); trace_sum.
  - case_decide; [|reflexivity]. destruct payload as [message|].
    + simpl. unfold p2p_waited. by rewrite P2PCancelFacts.p2p_handleMessage_env.
    + unfold p2p_waited. trace_sum.
  - unfold P2P.advance. rewrite p2p_run_timers_waited. reflexivity.
  - unfold p2p_waited. destruct r as [msg|[okr st [info|]]]; trace_sum.
  - unfold p2p_waited. destruct r as [msg|[okr st [received|]]]; trace_sum.
  - unfold P2P.sendChat, p2p_waited.
    destruct (Hook.wsRef _); [destruct (Hook.ws_readyState _ _) as [[]|]|]; trace_sum.
  - unfold p2p_waited. trace_sum.
Qed.

Lemma p2p_run_waited o es w :
  forallb P2PConn.quiet es = true ->
  p2p_waited (P2P.run_events o es w)
  = p2p_waited w
    + P2P.reconnectInterval o
      * (2 ^ Z.of_nat (P2PConn.attempts (P2P.run_events o es w))
         - 2 ^ Z.of_nat (P2PConn.attempts w)).
Proof.
  revert w. induction es as [|e es IH]; intros w Hq; simpl.
  - lia.
  - apply andb_prop in Hq as [He Hes].
    change (foldl _ (P2P.react o e w) es) with (P2P.run_events o es (P2P.react o e w)).
    rewrite (IH _ Hes), (p2p_react_waited o e w He).
    rewrite (P2PConnFacts.p2p_attempts_react o e w He).
    destruct (P2PConn.closes e w && _); [|lia].
    rewrite Nat2Z.inj_succ, Z.pow_succ_r by lia. lia.
Qed.

Lemma p2p_react_ceiling o e w :
  (P2PConn.attempts w <= P2P.maxReconnectAttempts o)%nat ->
  (P2PConn.attempts (P2P.react o e w) <= P2P.maxReconnectAttempts o)%nat.
Proof.
  intros Hw. destruct (P2PConn.quiet e) eqn:Hq.
  - rewrite (P2PConnFacts.p2p_attempts_react o e w Hq).
    destruct (P2PConn.closes e w); simpl; [|exact Hw].
    destruct (Nat.ltb_spec (P2PConn.attempts w) (P2P.maxReconnectAttempts o)); lia.
  - destruct e; try discriminate Hq; simpl; unfold P2PConn.attempts, P2P.resetConnection;
      cbn [P2P.refs P2P.setEnv]; rewrite ?P2PCancelFacts.p2p_disconnect_refs; simpl;
      try lia.
    case_decide; [simpl; lia|exact Hw].
Qed.

Lemma p2p_run_ceiling o es w :
  (P2PConn.attempts w <= P2P.maxReconnectAttempts o)%nat ->
  (P2PConn.attempts (P2P.run_events o es w) <= P2P.maxReconnectAttempts o)%nat.
Proof.
  revert w. induction es as [|e es IH]; intros w Hw; [exact Hw|].
  simpl. apply IH. by apply p2p_react_ceiling.
Qed.

(** *** useOrchestrator *)

Lemma orch_connect_waited o w :
  orchestrator_waited (Orchestrator.connect o w) = orchestrator_waited w.
Proof.
  unfold orchestrator_waited, Orchestrator.connect.
  destruct (Hook.isConnectingRef _); [reflexivity|].
  case_decide; [reflexivity|]. case_decide; [reflexivity|].
  destruct (_ <=? _)%nat; [trace_sum|].
  cbn [Orchestrator.env Orchestrator.setRefs Orchestrator.setState].
  pose proof (waited_newWebSocket (Orchestrator.wsUrl o) (Orchestrator.env w)) as Hn.
  destruct (Browser.newWebSocket (Orchestrator.wsUrl o) (Orchestrator.env w)) as [b [ws|]];
    simpl in *.
  - exact Hn.
  - rewrite waited_app, Hn. simpl. lia.
Qed.

Lemma orch_run_timers_waited o fuel w :
  orchestrator_waited (Orchestrator.run_timers o fuel w) = orchestrator_waited w.
Proof.
  revert w. induction fuel as [|n IH]; intros w; [reflexivity|].
  simpl. destruct (Browser.next_due _ _) as [[t d]|]; [|reflexivity].
  rewrite IH. unfold Orchestrator.fire. rewrite orch_connect_waited.
  unfold orchestrator_waited. trace_sum.
Qed.

Lemma sendWorkloadCommand_waited command workloadId w :
  orchestrator_waited (Orchestrator.sendWorkloadCommand command workloadId w)
  = orchestrator_waited w.
Proof.
  unfold Orchestrator.sendWorkloadCommand, orchestrator_waited.
  destruct (Hook.wsRef _); [destruct (Hook.ws_readyState _ _) as [[]|]|]; trace_sum.
Qed.

Lemma orch_react_waited o e w :
  OrchestratorConn.quiet e = true ->
  orchestrator_waited (Orchestrator.react o e w)
  = orchestrator_waited w
    + (if OrchestratorConn.closes e w
          && (OrchestratorConn.attempts w <? Orchestrator.maxReconnectAttempts o)%nat
       then Orchestrator.reconnectInterval o * 2 ^ Z.of_nat (OrchestratorConn.attempts w)
       else 0).
Proof.
  intros Hq. destruct e; try discriminate Hq; simpl Orchestrator.react;
    simpl OrchestratorConn.closes; rewrite ?Z.add_0_r.
  - destruct (Orchestrator.autoConnect o); [apply orch_connect_waited|reflexivity].
  - unfold OrchestratorConn.deliverable, Orchestrator.ws_onclose, OrchestratorConn.attempts,
      orchestrator_waited.
    destruct (Browser.readyState ws (Orchestrator.env w)) as [[]|];
      destruct (bool_decide (code <> 1000)); simpl; try lia;
      destruct (_ <? _)%nat; simpl; rewrite ?waited_app; simpl; unfold Js.pow2;
      try lia.
    all: replace (Z.of_nat (S (Hook.reconnectAttemptsRef (Orchestrator.refs w))) - 1)
      with (Z.of_nat (Hook.reconnectAttemptsRef (Orchestrator.refs w))) by lia; lia.
  - unfold Orchestrator.ws_onerror, orchestrator_waited.
    destruct (Browser.readyState ws (Orchestrator.env w)); trace_sum.
  - case_decide; [|reflexivity]. destruct payload as [event|].
    + simpl. destruct (Orchestrator.for_orchestrator _); [|reflexivity].
      unfold orchestrator_waited. by rewrite OrchestratorCancelFacts.orch_handleMessage_env.
    + unfold orchestrator_waited. trace_sum.
  - unfold Orchestrator.advance. rewrite orch_run_timers_waited. reflexivity.
  - apply orch_connect_waited.
  - unfold orchestrator_waited. trace_sum.
  - destruct rejected; reflexivity.
  - unfold orchestrator_waited. trace_sum.
  - unfold orchestrator_waited. trace_sum.
  - unfold orchestrator_waited. trace_sum.
  - unfold orchestrator_waited. destruct r as [msg|[[] st [b|]]]; trace_sum.
  - unfold orchestrator_waited. destruct r as [msg|[[] st [b|]]]; trace_sum.
  - unfold orchestrator_waited. destruct r as [msg|[[] st [b|]]]; trace_sum.
  - unfold orchestrator_waited. trace_sum.
  - unfold orchestrator_waited. destruct r as [msg|[[] st [b|]]]; trace_sum.
  - unfold orchestrator_waited. trace_sum.
  - destruct r as [msg|[[] st b]];
      [unfold orchestrator_waited; trace_sum| |unfold orchestrator_waited; trace_sum].
    unfold settle. simpl. by rewrite sendWorkloadCommand_waited.
  - unfold orchestrator_waited. trace_sum.
  - destruct r as [msg|[[] st b]];
      [unfold orchestrator_waited; trace_sum| |unfold orchestrator_waited; trace_sum].
    unfold settle. simpl. by rewrite sendWorkloadCommand_waited.
  - reflexivity.
Qed.

Lemma orch_run_waited o es w :
  forallb OrchestratorConn.quiet es = true ->
  orchestrator_waited (Orchestrator.run_events o es w)
  = orchestrator_waited w
    + Orchestrator.reconnectInterval o
      * (2 ^ Z.of_nat (OrchestratorConn.attempts (Orchestrator.run_events o es w))
         - 2 ^ Z.of_nat (OrchestratorConn.attempts w)).
Proof.
  revert w. induction es as [|e es IH]; intros w Hq; simpl.
  - lia.
  - apply andb_prop in Hq as [He Hes].
    change (foldl _ (Orchestrator.react o e w) es)
      with (Orchestrator.run_events o es (Orchestrator.react o e w)).
    rewrite (IH _ Hes), (orch_react_waited o e w He).
    rewrite (OrchestratorConnFacts.orch_attempts_react o e w He).
    destruct (OrchestratorConn.closes e w && _); [|lia].
    rewrite Nat2Z.inj_succ, Z.pow_succ_r by lia. lia.
Qed.

Lemma orch_react_ceiling o e w :
  (OrchestratorConn.attempts w <= Orchestrator.maxReconnectAttempts o)%nat ->
  (OrchestratorConn.attempts (Orchestrator.react o e w)
   <= Orchestrator.maxReconnectAttempts o)%nat.
Proof.
  intros Hw. destruct (OrchestratorConn.quiet e) eqn:Hq.
  - rewrite (OrchestratorConnFacts.orch_attempts_react o e w Hq).
    destruct (OrchestratorConn.closes e w); simpl; [|exact Hw].
    destruct (Nat.ltb_spec (OrchestratorConn.attempts w)
                (Orchestrator.maxReconnectAttempts o)); lia.
  - destruct e; try discriminate Hq; simpl;
      unfold OrchestratorConn.attempts, Orchestrator.resetConnection;
      cbn [Orchestrator.refs Orchestrator.setEnv];
      rewrite ?OrchestratorCancelFacts.orch_disconnect_refs; simpl; try lia.
    case_decide; [simpl; lia|exact Hw].
Qed.

Lemma orch_run_ceiling o es w :
  (OrchestratorConn.attempts w <= Orchestrator.maxReconnectAttempts o)%nat ->
  (OrchestratorConn.attempts (Orchestrator.run_events o es w)
   <= Orchestrator.maxReconnectAttempts o)%nat.
Proof.
  revert w. induction es as [|e es IH]; intros w Hw; [exact Hw|].
  simpl. apply IH. by apply orch_react_ceiling.
Qed.

End WaitingFacts.

(** X6.  The attempt counter never exceeds [maxReconnectAttempts]:
    whatever happens to a hook after it is created (mounting, socket
    events, timeouts, fetches settling, calls of its methods, in any
    order), [reconnectAttemptsRef] stays between 0 and the ceiling.
    Both hooks. *)
Theorem attempts_never_exceed_ceiling :
  (forall valid o es,
     (P2PConn.attempts (P2P.run_events o es (P2P.init valid))
      <= P2P.maxReconnectAttempts o)%nat)
  /\ (forall valid o es,
        (OrchestratorConn.attempts (Orchestrator.run_events o es (Orchestrator.init valid))
         <= Orchestrator.maxReconnectAttempts o)%nat).
Proof.
  split; intros valid o es.
  - apply WaitingFacts.p2p_run_ceiling, Nat.le_0_l.
  - apply WaitingFacts.orch_run_ceiling, Nat.le_0_l.
Qed.

(** X7.  The total time a hook asks to wait for reconnects.  As long as
    no socket opens and nobody disconnects, the delays of all the
    timeouts requested add up to
    [reconnectInterval * (2^a' - 2^a)], where [a] and [a'] are the
    attempt counter before and after; so a hook that starts from
    nothing never asks for more than
    [reconnectInterval * (2^maxReconnectAttempts - 1)] milliseconds in
    total before it gives up (93 seconds with the defaults).  Both
    hooks. *)
Theorem total_backoff_is_geometric :
  (forall o es w,
     forallb P2PConn.quiet es = true ->
     Waiting.p2p_waited (P2P.run_events o es w)
     = Waiting.p2p_waited w
       + P2P.reconnectInterval o
         * (2 ^ Z.of_nat (P2PConn.attempts (P2P.run_events o es w))
            - 2 ^ Z.of_nat (P2PConn.attempts w)))
  /\ (forall valid o es,
        forallb P2PConn.quiet es = true -> 0 <= P2P.reconnectInterval o ->
        Waiting.p2p_waited (P2P.run_events o es (P2P.init valid))
        <= P2P.reconnectInterval o * (2 ^ Z.of_nat (P2P.maxReconnectAttempts o) - 1))
  /\ (forall o es w,
        forallb OrchestratorConn.quiet es = true ->
        Waiting.orchestrator_waited (Orchestrator.run_events o es w)
        = Waiting.orchestrator_waited w
          + Orchestrator.reconnectInterval o
            * (2 ^ Z.of_nat (OrchestratorConn.attempts (Orchestrator.run_events o es w))
               - 2 ^ Z.of_nat (OrchestratorConn.attempts w)))
  /\ (forall valid o es,
        forallb OrchestratorConn.quiet es = true -> 0 <= Orchestrator.reconnectInterval o ->
        Waiting.orchestrator_waited (Orchestrator.run_events o es (Orchestrator.init valid))
        <= Orchestrator.reconnectInterval o
           * (2 ^ Z.of_nat (Orchestrator.maxReconnectAttempts o) - 1)).
Proof.
  split; [|split; [|split]].
  - apply WaitingFacts.p2p_run_waited.
  - intros valid o es Hq Hi. rewrite (WaitingFacts.p2p_run_waited o es _ Hq).
    change (Waiting.p2p_waited (P2P.init valid)) with 0.
    change (P2PConn.attempts (P2P.init valid)) with 0%nat.
    pose proof (WaitingFacts.p2p_run_ceiling o es (P2P.init valid) (Nat.le_0_l _)) as Ha.
    assert (2 ^ Z.of_nat (P2PConn.attempts (P2P.run_events o es (P2P.init valid)))
            <= 2 ^ Z.of_nat (P2P.maxReconnectAttempts o))
      by (apply Z.pow_le_mono_r; lia).
    simpl (2 ^ Z.of_nat 0). nia.
  - apply WaitingFacts.orch_run_waited.
  - intros valid o es Hq Hi. rewrite (WaitingFacts.orch_run_waited o es _ Hq).
    change (Waiting.orchestrator_waited (Orchestrator.init valid)) with 0.
    change (OrchestratorConn.attempts (Orchestrator.init valid)) with 0%nat.
    pose proof (WaitingFacts.orch_run_ceiling o es (Orchestrator.init valid)
                  (Nat.le_0_l _)) as Ha.
    assert (2 ^ Z.of_nat (OrchestratorConn.attempts
                            (Orchestrator.run_events o es (Orchestrator.init valid)))
            <= 2 ^ Z.of_nat (Orchestrator.maxReconnectAttempts o))
      by (apply Z.pow_le_mono_r; lia).
    simpl (2 ^ Z.of_nat 0). nia.
Qed.

Lemma total_backoff_is_geometric_witness :
  Waiting.p2p_waited
    (P2P.run_events P2P.default_options Exhaustion.p2p_outage (P2P.init (fun _ => true)))
  <= 93000.
Proof.
  exact (proj1 (proj2 total_backoff_is_geometric) (fun _ => true) P2P.default_options
           Exhaustion.p2p_outage eq_refl ltac:(simpl; lia)).
Defined.

(** ** Reconnecting *)

Module ReconnectFacts.
Import Reconnect.

Lemma next_due_some now ts t d :
  (t, d) ∈ ts -> d <= now -> is_Some (Browser.next_due now ts).
Proof.
  induction ts as [|[t' d'] ts IH]; intros Hin Hd; [by apply elem_of_nil in Hin|].
  simpl. destruct (Browser.next_due now ts) as [[t'' d'']|] eqn:Hn.
  - destruct (_ && _); by eexists.
  - apply elem_of_cons in Hin as [[= <- <-]|Hin].
    + rewrite bool_decide_eq_true_2 by exact Hd. by eexists.
    + destruct (IH Hin Hd) as [x Hx]. discriminate.
Qed.

Lemma attempts_app a b :
  Browser.attempts (a ++ b) = (Browser.attempts a + Browser.attempts b)%nat.
Proof. unfold Browser.attempts. by rewrite List.filter_app, length_app. Qed.

(** *** useP2P *)

Lemma p2p_connect_busy o w :
  Hook.isConnectingRef (P2P.refs w) = true -> P2P.connect o w = w.
Proof. intros H. unfold P2P.connect. by rewrite H. Qed.

Lemma p2p_run_timers_busy o fuel w :
  Hook.isConnectingRef (P2P.refs w) = true ->
  let w' := P2P.run_timers o fuel w in
  P2P.refs w' = P2P.refs w
  /\ P2P.state w' = P2P.state w
  /\ Browser.attempts (Browser.trace (P2P.env w'))
     = Browser.attempts (Browser.trace (P2P.env w))
  /\ Browser.sockets (P2P.env w') = Browser.sockets (P2P.env w)
  /\ Browser.next_socket (P2P.env w') = Browser.next_socket (P2P.env w)
  /\ (forall e, e ∈ Browser.trace (P2P.env w) -> e ∈ Browser.trace (P2P.env w')).
Proof.
  revert w. induction fuel as [|n IH]; intros w Hc; simpl.
  - repeat split; auto.
  - destruct (Browser.next_due _ _) as [[t d]|]; [|repeat split; auto].
    unfold P2P.fire. rewrite p2p_connect_busy by exact Hc.
    destruct (IH (P2P.setEnv (Browser.expire t) w) Hc) as (H1 & H2 & H3 & H4 & H5 & H6).
    repeat split; [exact H1|exact H2| |exact H4|exact H5|].
    + rewrite H3. by apply (CancelFacts.attempts_emit (Browser.TimeoutFired t)).
    + intros e He. apply H6. simpl. apply elem_of_app. by left.
Qed.

Lemma p2p_connect_fresh o w :
  P2PConn.idle w ->
  (P2PConn.attempts w < P2P.maxReconnectAttempts o)%nat ->
  Browser.valid_url (P2P.env w) (P2P.url o) = true ->
  let w' := P2P.connect o w in
  one_more_socket (P2P.url o) (P2P.env w) (P2P.env w')
  /\ connecting_on (Browser.next_socket (P2P.env w)) (P2P.refs w')
  /\ P2PConn.attempts w' = P2PConn.attempts w
  /\ P2P.state w' = P2P.state w.
Proof.
  intros [Hc Hws] Hb Hv. unfold P2P.connect, Hook.ws_readyState, P2PConn.attempts in *.
  rewrite Hc, Hws. simpl.
  destruct (Nat.leb_spec (P2P.maxReconnectAttempts o)
              (Hook.reconnectAttemptsRef (P2P.refs w))); [lia|].
  unfold Browser.newWebSocket. simpl. rewrite Hv. simpl.
  unfold one_more_socket, connecting_on, Browser.readyState. simpl.
  rewrite attempts_app, lookup_insert_eq. simpl.
  repeat split.
  - change (Browser.attempts [Browser.NewWebSocket _ _]) with 1%nat. lia.
  - apply elem_of_app. right. by apply list_elem_of_singleton.
Qed.

Lemma p2p_run_timers_reconnects o fuel w t d :
  P2PConn.idle w ->
  (P2PConn.attempts w < P2P.maxReconnectAttempts o)%nat ->
  Browser.valid_url (P2P.env w) (P2P.url o) = true ->
  (t, d) ∈ Browser.timers (P2P.env w) -> d <= Browser.clock (P2P.env w) ->
  let w' := P2P.run_timers o (S fuel) w in
  one_more_socket (P2P.url o) (P2P.env w) (P2P.env w')
  /\ connecting_on (Browser.next_socket (P2P.env w)) (P2P.refs w')
  /\ P2PConn.attempts w' = P2PConn.attempts w
  /\ P2P.state w' = P2P.state w.
Proof.
  intros Hidle Hb Hv Hin Hd. simpl.
  destruct (next_due_some (Browser.clock (P2P.env w)) (Browser.timers (P2P.env w)) t d)
    as [[t' d'] ->]; [exact Hin|exact Hd|].
  unfold P2P.fire.
  set (w1 := P2P.setEnv (Browser.expire t') w).
  destruct (p2p_connect_fresh o w1) as ((A1 & A2 & A3 & A4) & (B1 & B2) & C & D);
    [exact Hidle|exact Hb|exact Hv|].
  destruct (p2p_run_timers_busy o fuel (P2P.connect o w1) B2)
    as (H1 & H2 & H3 & H4 & H5 & H6).
  unfold one_more_socket, connecting_on, P2PConn.attempts, Browser.readyState in *.
  rewrite H1, H2, H3, H4, H5.
  repeat split; try assumption.
  - rewrite A1. f_equal. by apply (CancelFacts.attempts_emit (Browser.TimeoutFired t')).
  - by apply H6.
Qed.

Lemma p2p_advance_reconnects o dt w :
  P2PConn.idle w ->
  (P2PConn.attempts w < P2P.maxReconnectAttempts o)%nat ->
  Browser.valid_url (P2P.env w) (P2P.url o) = true ->
  due_within dt (P2P.env w) ->
  let w' := P2P.advance o dt w in
  one_more_socket (P2P.url o) (P2P.env w) (P2P.env w')
  /\ connecting_on (Browser.next_socket (P2P.env w)) (P2P.refs w')
  /\ P2PConn.attempts w' = P2PConn.attempts w
  /\ P2P.state w' = P2P.state w.
Proof.
  intros Hidle Hb Hv (t & d & Hin & Hd). unfold P2P.advance.
  destruct (Browser.timers (P2P.env (P2P.setEnv (Browser.tick (Z.max 0 dt)) w)))
    as [|e ts] eqn:Hts; [simpl in Hts; rewrite Hts in Hin; by apply elem_of_nil in Hin|].
  cbn [length].
  exact (p2p_run_timers_reconnects o (length ts)
           (P2P.setEnv (Browser.tick (Z.max 0 dt)) w) t d Hidle Hb Hv Hin Hd).
Qed.

(** *** useOrchestrator *)

Lemma orch_connect_busy o w :
  Hook.isConnectingRef (Orchestrator.refs w) = true -> Orchestrator.connect o w = w.
Proof. intros H. unfold Orchestrator.connect. by rewrite H. Qed.

Lemma orch_run_timers_busy o fuel w :
  Hook.isConnectingRef (Orchestrator.refs w) = true ->
  let w' := Orchestrator.run_timers o fuel w in
  Orchestrator.refs w' = Orchestrator.refs w
  /\ Orchestrator.state w' = Orchestrator.state w
  /\ Browser.attempts (Browser.trace (Orchestrator.env w'))
     = Browser.attempts (Browser.trace (Orchestrator.env w))
  /\ Browser.sockets (Orchestrator.env w') = Browser.sockets (Orchestrator.env w)
  /\ Browser.next_socket (Orchestrator.env w') = Browser.next_socket (Orchestrator.env w)
  /\ (forall e, e ∈ Browser.trace (Orchestrator.env w) ->
                e ∈ Browser.trace (Orchestrator.env w')).
Proof.
  revert w. induction fuel as [|n IH]; intros w Hc; simpl.
  - repeat split; auto.
  - destruct (Browser.next_due _ _) as [[t d]|]; [|repeat split; auto].
    unfold Orchestrator.fire. rewrite orch_connect_busy by exact Hc.
    destruct (IH (Orchestrator.setEnv (Browser.expire t) w) Hc)
      as (H1 & H2 & H3 & H4 & H5 & H6).
    repeat split; [exact H1|exact H2| |exact H4|exact H5|].
    + rewrite H3. by apply (CancelFacts.attempts_emit (Browser.TimeoutFired t)).
    + intros e He. apply H6. simpl. apply elem_of_app. by left.
Qed.

Lemma orch_connect_fresh o w :
  OrchestratorConn.idle w ->
  (OrchestratorConn.attempts w < Orchestrator.maxReconnectAttempts o)%nat ->
  Browser.valid_url (Orchestrator.env w) (Orchestrator.wsUrl o) = true ->
  let w' := Orchestrator.connect o w in
  one_more_socket (Orchestrator.wsUrl o) (Orchestrator.env w) (Orchestrator.env w')
  /\ connecting_on (Browser.next_socket (Orchestrator.env w)) (Orchestrator.refs w')
  /\ OrchestratorConn.attempts w' = OrchestratorConn.attempts w
  /\ Orchestrator.state w'
     = Orchestrator.set_error None (Orchestrator.set_loading true (Orchestrator.state w)).
Proof.
  intros [Hc Hws] Hb Hv.
  unfold Orchestrator.connect, Hook.ws_readyState, OrchestratorConn.attempts in *.
  rewrite Hc, Hws. simpl.
  destruct (Nat.leb_spec (Orchestrator.maxReconnectAttempts o)
              (Hook.reconnectAttemptsRef (Orchestrator.refs w))); [lia|].
  unfold Browser.newWebSocket. simpl. rewrite Hv. simpl.
  unfold one_more_socket, connecting_on, Browser.readyState. simpl.
  rewrite attempts_app, lookup_insert_eq. simpl.
  repeat split.
  - change (Browser.attempts [Browser.NewWebSocket _ _]) with 1%nat. lia.
  - apply elem_of_app. right. by apply list_elem_of_singleton.
Qed.

Lemma orch_run_timers_reconnects o fuel w t d :
  OrchestratorConn.idle w ->
  (OrchestratorConn.attempts w < Orchestrator.maxReconnectAttempts o)%nat ->
  Browser.valid_url (Orchestrator.env w) (Orchestrator.wsUrl o) = true ->
  (t, d) ∈ Browser.timers (Orchestrator.env w) -> d <= Browser.clock (Orchestrator.env w) ->
  let w' := Orchestrator.run_timers o (S fuel) w in
  one_more_socket (Orchestrator.wsUrl o) (Orchestrator.env w) (Orchestrator.env w')
  /\ connecting_on (Browser.next_socket (Orchestrator.env w)) (Orchestrator.refs w')
  /\ OrchestratorConn.attempts w' = OrchestratorConn.attempts w
  /\ Orchestrator.state w'
     = Orchestrator.set_error None (Orchestrator.set_loading true (Orchestrator.state w)).
Proof.
  intros Hidle Hb Hv Hin Hd. simpl.
  destruct (next_due_some (Browser.clock (Orchestrator.env w))
              (Browser.timers (Orchestrator.env w)) t d)
    as [[t' d'] ->]; [exact Hin|exact Hd|].
  unfold Orchestrator.fire.
  set (w1 := Orchestrator.setEnv (Browser.expire t') w).
  destruct (orch_connect_fresh o w1) as ((A1 & A2 & A3 & A4) & (B1 & B2) & C & D);
    [exact Hidle|exact Hb|exact Hv|].
  destruct (orch_run_timers_busy o fuel (Orchestrator.connect o w1) B2)
    as (H1 & H2 & H3 & H4 & H5 & H6).
  unfold one_more_socket, connecting_on, OrchestratorConn.attempts, Browser.readyState in *.
  rewrite H1, H2, H3, H4, H5.
  repeat split; try assumption.
  - rewrite A1. f_equal. by apply (CancelFacts.attempts_emit (Browser.TimeoutFired t')).
  - by apply H6.
Qed.

Lemma orch_advance_reconnects o dt w :
  OrchestratorConn.idle w ->
  (OrchestratorConn.attempts w < Orchestrator.maxReconnectAttempts o)%nat ->
  Browser.valid_url (Orchestrator.env w) (Orchestrator.wsUrl o) = true ->
  due_within dt (Orchestrator.env w) ->
  let w' := Orchestrator.advance o dt w in
  one_more_socket (Orchestrator.wsUrl o) (Orchestrator.env w) (Orchestrator.env w')
  /\ connecting_on (Browser.next_socket (Orchestrator.env w)) (Orchestrator.refs w')
  /\ OrchestratorConn.attempts w' = OrchestratorConn.attempts w
  /\ Orchestrator.state w'
     = Orchestrator.set_error None (Orchestrator.set_loading true (Orchestrator.state w)).
Proof.
  intros Hidle Hb Hv (t & d & Hin & Hd). unfold Orchestrator.advance.
  destruct (Browser.timers
              (Orchestrator.env (Orchestrator.setEnv (Browser.tick (Z.max 0 dt)) w)))
    as [|e ts] eqn:Hts; [simpl in Hts; rewrite Hts in Hin; by apply elem_of_nil in Hin|].
  cbn [length].
  exact (orch_run_timers_reconnects o (length ts)
           (Orchestrator.setEnv (Browser.tick (Z.max 0 dt)) w) t d Hidle Hb Hv Hin Hd).
Qed.

End ReconnectFacts.



(** X9.  [connect] is idempotent: with budget left and a url the
    [WebSocket] constructor accepts, a second call right after the
    first changes nothing, so calling it twice never builds two
    sockets.  Both hooks. *)
Theorem connect_is_idempotent :
  (forall o w,
     (P2PConn.attempts w < P2P.maxReconnectAttempts o)%nat ->
     Browser.valid_url (P2P.env w) (P2P.url o) = true ->
     P2P.connect o (P2P.connect o w) = P2P.connect o w)
  /\ (forall o w,
        (OrchestratorConn.attempts w < Orchestrator.maxReconnectAttempts o)%nat ->
        Browser.valid_url (Orchestrator.env w) (Orchestrator.wsUrl o) = true ->
        Orchestrator.connect o (Orchestrator.connect o w) = Orchestrator.connect o w).
Proof.
  split; intros o w Hb Hv.
  - assert (H : P2P.connect o w = w
                \/ Hook.isConnectingRef (P2P.refs (P2P.connect o w)) = true).
    { unfold P2P.connect, P2PConn.attempts in *.
      destruct (Hook.isConnectingRef (P2P.refs w)); [by left|].
      case_decide; [by left|]. case_decide; [by left|].
      destruct (Nat.leb_spec (P2P.maxReconnectAttempts o)
                  (Hook.reconnectAttemptsRef (P2P.refs w))); [lia|].
      unfold Browser.newWebSocket. simpl. rewrite Hv. by right. }
    destruct H as [H|H]; [by rewrite !H|by apply ReconnectFacts.p2p_connect_busy].
  - assert (H : Orchestrator.connect o w = w
                \/ Hook.isConnectingRef (Orchestrator.refs (Orchestrator.connect o w))
                   = true).
    { unfold Orchestrator.connect, OrchestratorConn.attempts in *.
      destruct (Hook.isConnectingRef (Orchestrator.refs w)); [by left|].
      case_decide; [by left|]. case_decide; [by left|].
      destruct (Nat.leb_spec (Orchestrator.maxReconnectAttempts o)
                  (Hook.reconnectAttemptsRef (Orchestrator.refs w))); [lia|].
      unfold Browser.newWebSocket. simpl. rewrite Hv. by right. }
    destruct H as [H|H]; [by rewrite !H|by apply ReconnectFacts.orch_connect_busy].
Qed.

Lemma connect_is_idempotent_witness :
  P2P.connect P2P.default_options
    (P2P.connect P2P.default_options (P2P.init (fun _ => true)))
  = P2P.connect P2P.default_options (P2P.init (fun _ => true)).
Proof.
  apply (proj1 connect_is_idempotent P2P.default_options (P2P.init (fun _ => true))).
  - vm_compute. lia.
  - reflexivity.
Defined.

Module RestartFacts.
Import Reconnect.

Lemma attempts_close ws code b :
  Browser.attempts (Browser.trace (Browser.close ws code b))
  = Browser.attempts (Browser.trace b).
Proof.
  unfold Browser.close. simpl. rewrite CancelFacts.attempts_emit by reflexivity.
  by destruct (Browser.readyState ws b) as [[]|].
Qed.

Lemma close_static ws code b :
  Browser.valid_url (Browser.close ws code b) = Browser.valid_url b
  /\ Browser.next_socket (Browser.close ws code b) = Browser.next_socket b
  /\ Browser.clock (Browser.close ws code b) = Browser.clock b
  /\ Browser.timers (Browser.close ws code b) = Browser.timers b
  /\ Browser.next_timer (Browser.close ws code b) = Browser.next_timer b.
Proof. unfold Browser.close. by destruct (Browser.readyState ws b) as [[]|]. Qed.

Lemma close_readyState ws code b :
  Browser.readyState ws (Browser.close ws code b)
  = match Browser.readyState ws b with
    | Some Browser.CONNECTING | Some Browser.OPEN => Some Browser.CLOSING
    | r => r
    end.
Proof.
  unfold Browser.close, Browser.readyState.
  destruct (Browser.sockets b !! ws) as [[]|] eqn:H; simpl; rewrite ?lookup_insert_eq;
    try reflexivity; exact H.
Qed.

Lemma attempts_clearTimeout t b :
  Browser.attempts (Browser.trace (Browser.clearTimeout t b))
  = Browser.attempts (Browser.trace b).
Proof. simpl. by rewrite CancelFacts.attempts_emit. Qed.

(** *** useP2P *)

Lemma p2p_disconnect_static w :
  Browser.valid_url (P2P.env (P2P.disconnect w)) = Browser.valid_url (P2P.env w)
  /\ Browser.next_socket (P2P.env (P2P.disconnect w)) = Browser.next_socket (P2P.env w)
  /\ Browser.clock (P2P.env (P2P.disconnect w)) = Browser.clock (P2P.env w)
  /\ Browser.attempts (Browser.trace (P2P.env (P2P.disconnect w)))
     = Browser.attempts (Browser.trace (P2P.env w)).
Proof.
  unfold P2P.disconnect.
  destruct (Hook.reconnectTimerRef (P2P.refs w)) as [t|];
    cbn [P2P.env P2P.refs P2P.setEnv P2P.setRefs Hook.wsRef Hook.set_reconnectTimerRef
         Hook.set_reconnectAttemptsRef Hook.set_isConnectingRef];
    destruct (Hook.wsRef (P2P.refs w)) as [ws|];
    cbn [P2P.env P2P.refs P2P.setEnv P2P.setRefs].
  - destruct (close_static ws 1000 (Browser.clearTimeout t (P2P.env w)))
      as (-> & -> & -> & _).
    rewrite attempts_close, attempts_clearTimeout. by repeat split.
  - rewrite attempts_clearTimeout. by repeat split.
  - destruct (close_static ws 1000 (P2P.env w)) as (-> & -> & -> & _).
    rewrite attempts_close. by repeat split.
  - by repeat split.
Qed.

Lemma p2p_disconnect_idle w : P2PConn.idle (P2P.disconnect w).
Proof. unfold P2PConn.idle. by rewrite P2PCancelFacts.p2p_disconnect_refs. Qed.

(** *** useOrchestrator *)

Lemma orch_disconnect_static w :
  Browser.valid_url (Orchestrator.env (Orchestrator.disconnect w))
  = Browser.valid_url (Orchestrator.env w)
  /\ Browser.next_socket (Orchestrator.env (Orchestrator.disconnect w))
     = Browser.next_socket (Orchestrator.env w)
  /\ Browser.clock (Orchestrator.env (Orchestrator.disconnect w))
     = Browser.clock (Orchestrator.env w)
  /\ Browser.attempts (Browser.trace (Orchestrator.env (Orchestrator.disconnect w)))
     = Browser.attempts (Browser.trace (Orchestrator.env w)).
Proof.
  unfold Orchestrator.disconnect.
  destruct (Hook.reconnectTimerRef (Orchestrator.refs w)) as [t|];
    cbn [Orchestrator.env Orchestrator.refs Orchestrator.setEnv Orchestrator.setRefs
         Hook.wsRef Hook.set_reconnectTimerRef
         Hook.set_reconnectAttemptsRef Hook.set_isConnectingRef];
    destruct (Hook.wsRef (Orchestrator.refs w)) as [ws|];
    cbn [Orchestrator.env Orchestrator.refs Orchestrator.setEnv Orchestrator.setRefs].
  - destruct (close_static ws 1000 (Browser.clearTimeout t (Orchestrator.env w)))
      as (-> & -> & -> & _).
    rewrite attempts_close, attempts_clearTimeout. by repeat split.
  - rewrite attempts_clearTimeout. by repeat split.
  - destruct (close_static ws 1000 (Orchestrator.env w)) as (-> & -> & -> & _).
    rewrite attempts_close. by repeat split.
  - by repeat split.
Qed.

Lemma orch_disconnect_idle w : OrchestratorConn.idle (Orchestrator.disconnect w).
Proof.
  unfold OrchestratorConn.idle. by rewrite OrchestratorCancelFacts.orch_disconnect_refs.
Qed.

End RestartFacts.

(** ** Handlers that outlive their socket *)

Module StaleFacts.
Import Reconnect.

(** *** useP2P *)

Lemma p2p_disconnect_closing ws w :
  Hook.wsRef (P2P.refs w) = Some ws -> P2PConn.deliverable ws w = true ->
  Browser.readyState ws (P2P.env (P2P.disconnect w)) = Some Browser.CLOSING.
Proof.
  unfold P2PConn.deliverable, P2P.disconnect. intros Hws Hd.
  destruct (Hook.reconnectTimerRef (P2P.refs w)) as [t|];
    cbn [P2P.env P2P.refs P2P.setEnv P2P.setRefs Hook.wsRef Hook.set_reconnectTimerRef
         Hook.set_reconnectAttemptsRef Hook.set_isConnectingRef];
    rewrite Hws; cbn [P2P.env P2P.setEnv P2P.setRefs];
    rewrite RestartFacts.close_readyState.
  - change (Browser.readyState ws (Browser.clearTimeout t (P2P.env w)))
      with (Browser.readyState ws (P2P.env w)).
    by destruct (Browser.readyState ws (P2P.env w)) as [[]|].
  - by destruct (Browser.readyState ws (P2P.env w)) as [[]|].
Qed.

Lemma p2p_late_close o ws code w :
  Hook.wsRef (P2P.refs w) = Some ws -> P2PConn.deliverable ws w = true ->
  code <> 1000 -> (0 < P2P.maxReconnectAttempts o)%nat ->
  let w1 := P2P.disconnect w in
  let w2 := P2P.react o (P2P.Closed ws code) w1 in
  P2P.refs w1 = Hook.init
  /\ Hook.reconnectTimerRef (P2P.refs w2) = Some (Browser.next_timer (P2P.env w1))
  /\ (Browser.next_timer (P2P.env w1), Browser.clock (P2P.env w1) + P2P.reconnectInterval o)
       ∈ Browser.timers (P2P.env w2)
  /\ P2PConn.attempts w2 = 1%nat
  /\ P2PConn.idle w2
  /\ Browser.valid_url (P2P.env w2) = Browser.valid_url (P2P.env w)
  /\ Browser.clock (P2P.env w2) = Browser.clock (P2P.env w1)
  /\ Browser.next_socket (P2P.env w2) = Browser.next_socket (P2P.env w).
Proof.
  intros Hws Hd Hcode Hmax w1 w2.
  pose proof (P2PCancelFacts.p2p_disconnect_refs w) as Hrefs. fold w1 in Hrefs.
  pose proof (p2p_disconnect_closing ws w Hws Hd) as Hcl. fold w1 in Hcl.
  destruct (RestartFacts.p2p_disconnect_static w) as (S1 & S2 & S3 & S4).
  fold w1 in S1, S2, S3, S4.
  split; [exact Hrefs|].
  subst w2. simpl P2P.react. rewrite Hcl.
  set (w1' := P2P.setEnv (Browser.set_readyState ws Browser.CLOSED) w1).
  destruct (BackoffFacts.p2p_onclose o code w1' 1 Hcode) as (T1 & T2 & T3 & T4).
  { lia. }
  { unfold P2PConn.attempts. subst w1'. simpl. by rewrite Hrefs. }
  change (2 ^ (Z.of_nat 1 - 1)) with 1 in T2. rewrite Z.mul_1_r in T2.
  repeat split.
  - exact T3.
  - rewrite T2. apply elem_of_app. right. by apply list_elem_of_singleton.
  - exact T4.
  - unfold P2P.ws_onclose. simpl. destruct (_ && _); reflexivity.
  - unfold P2P.ws_onclose. simpl. destruct (_ && _); reflexivity.
  - rewrite <- S1. unfold P2P.ws_onclose. simpl. destruct (_ && _); reflexivity.
  - unfold P2P.ws_onclose. simpl. destruct (_ && _); reflexivity.
  - rewrite <- S2. unfold P2P.ws_onclose. simpl. destruct (_ && _); reflexivity.
Qed.

Lemma p2p_stale_close o ws ws' code w :
  Hook.wsRef (P2P.refs w) = Some ws' -> ws <> ws' -> P2PConn.deliverable ws w = true ->
  let w1 := P2P.react o (P2P.Closed ws code) w in
  Hook.wsRef (P2P.refs w1) = None
  /\ P2P.connected (P2P.state w1) = false
  /\ Browser.readyState ws' (P2P.env w1) = Browser.readyState ws' (P2P.env w).
Proof.
  unfold P2PConn.deliverable. intros Hws Hne Hd. simpl.
  assert (Hk : forall b, Browser.readyState ws' (Browser.set_readyState ws Browser.CLOSED b)
                         = Browser.readyState ws' b).
  { intros b. unfold Browser.readyState. simpl. by rewrite lookup_insert_ne. }
  destruct (Browser.readyState ws (P2P.env w)) as [[]|]; try discriminate Hd.
  all: unfold P2P.ws_onclose; simpl; destruct (_ && _); simpl;
    repeat split; apply Hk.
Qed.

(** *** useOrchestrator *)

Lemma orch_disconnect_closing ws w :
  Hook.wsRef (Orchestrator.refs w) = Some ws -> OrchestratorConn.deliverable ws w = true ->
  Browser.readyState ws (Orchestrator.env (Orchestrator.disconnect w))
  = Some Browser.CLOSING.
Proof.
  unfold OrchestratorConn.deliverable, Orchestrator.disconnect. intros Hws Hd.
  destruct (Hook.reconnectTimerRef (Orchestrator.refs w)) as [t|];
    cbn [Orchestrator.env Orchestrator.refs Orchestrator.setEnv Orchestrator.setRefs
         Hook.wsRef Hook.set_reconnectTimerRef
         Hook.set_reconnectAttemptsRef Hook.set_isConnectingRef];
    rewrite Hws; cbn [Orchestrator.env Orchestrator.setEnv Orchestrator.setRefs];
    rewrite RestartFacts.close_readyState.
  - change (Browser.readyState ws (Browser.clearTimeout t (Orchestrator.env w)))
      with (Browser.readyState ws (Orchestrator.env w)).
    by destruct (Browser.readyState ws (Orchestrator.env w)) as [[]|].
  - by destruct (Browser.readyState ws (Orchestrator.env w)) as [[]|].
Qed.

Lemma orch_late_close o ws code w :
  Hook.wsRef (Orchestrator.refs w) = Some ws -> OrchestratorConn.deliverable ws w = true ->
  code <> 1000 -> (0 < Orchestrator.maxReconnectAttempts o)%nat ->
  let w1 := Orchestrator.disconnect w in
  let w2 := Orchestrator.react o (Orchestrator.Closed ws code) w1 in
  Orchestrator.refs w1 = Hook.init
  /\ Hook.reconnectTimerRef (Orchestrator.refs w2)
     = Some (Browser.next_timer (Orchestrator.env w1))
  /\ (Browser.next_timer (Orchestrator.env w1),
      Browser.clock (Orchestrator.env w1) + Orchestrator.reconnectInterval o)
       ∈ Browser.timers (Orchestrator.env w2)
  /\ OrchestratorConn.attempts w2 = 1%nat
  /\ OrchestratorConn.idle w2
  /\ Browser.valid_url (Orchestrator.env w2) = Browser.valid_url (Orchestrator.env w)
  /\ Browser.clock (Orchestrator.env w2) = Browser.clock (Orchestrator.env w1)
  /\ Browser.next_socket (Orchestrator.env w2) = Browser.next_socket (Orchestrator.env w).
Proof.
  intros Hws Hd Hcode Hmax w1 w2.
  pose proof (OrchestratorCancelFacts.orch_disconnect_refs w) as Hrefs. fold w1 in Hrefs.
  pose proof (orch_disconnect_closing ws w Hws Hd) as Hcl. fold w1 in Hcl.
  destruct (RestartFacts.orch_disconnect_static w) as (S1 & S2 & S3 & S4).
  fold w1 in S1, S2, S3, S4.
  split; [exact Hrefs|].
  subst w2. simpl Orchestrator.react. rewrite Hcl.
  set (w1' := Orchestrator.setEnv (Browser.set_readyState ws Browser.CLOSED) w1).
  destruct (BackoffFacts.orchestrator_onclose o code w1' 1 Hcode) as (T1 & T2 & T3 & T4).
  { lia. }
  { unfold OrchestratorConn.attempts. subst w1'. simpl. by rewrite Hrefs. }
  change (2 ^ (Z.of_nat 1 - 1)) with 1 in T2. rewrite Z.mul_1_r in T2.
  repeat split.
  - exact T3.
  - rewrite T2. apply elem_of_app. right. by apply list_elem_of_singleton.
  - exact T4.
  - unfold Orchestrator.ws_onclose. simpl. destruct (_ && _); reflexivity.
  - unfold Orchestrator.ws_onclose. simpl. destruct (_ && _); reflexivity.
  - rewrite <- S1. unfold Orchestrator.ws_onclose. simpl. destruct (_ && _); reflexivity.
  - unfold Orchestrator.ws_onclose. simpl. destruct (_ && _); reflexivity.
  - rewrite <- S2. unfold Orchestrator.ws_onclose. simpl. destruct (_ && _); reflexivity.
Qed.

Lemma orch_stale_close o ws ws' code w :
  Hook.wsRef (Orchestrator.refs w) = Some ws' -> ws <> ws' ->
  OrchestratorConn.deliverable ws w = true ->
  let w1 := Orchestrator.react o (Orchestrator.Closed ws code) w in
  Hook.wsRef (Orchestrator.refs w1) = None
  /\ Orchestrator.connected (Orchestrator.state w1) = false
  /\ Browser.readyState ws' (Orchestrator.env w1)
     = Browser.readyState ws' (Orchestrator.env w).
Proof.
  unfold OrchestratorConn.deliverable. intros Hws Hne Hd. simpl.
  assert (Hk : forall b, Browser.readyState ws' (Browser.set_readyState ws Browser.CLOSED b)
                         = Browser.readyState ws' b).
  { intros b. unfold Browser.readyState. simpl. by rewrite lookup_insert_ne. }
  destruct (Browser.readyState ws (Orchestrator.env w)) as [[]|]; try discriminate Hd.
  all: unfold Orchestrator.ws_onclose; simpl; destruct (_ && _); simpl;
    repeat split; apply Hk.
Qed.

End StaleFacts.

(** X11.  [disconnect] does not detach the handlers of the socket it
    closes.  If the close event that follows reports a code other than
    1000 (the connection was lost before the closing handshake
    completed), [ws.onclose] treats it as an abnormal close: although
    [disconnect] had reset every ref, a reconnect is scheduled
    [reconnectInterval] ms ahead and the attempt counter goes to 1.
    With a ceiling above 1 and a url the constructor accepts, that
    timeout then builds a new socket: the hook reconnects after it was
    told to disconnect.  Both hooks. *)
Theorem abnormal_close_after_disconnect_reconnects :
  (forall o ws code w,
     Hook.wsRef (P2P.refs w) = Some ws -> P2PConn.deliverable ws w = true ->
     code <> 1000 -> (0 < P2P.maxReconnectAttempts o)%nat ->
     let w1 := P2P.react o P2P.Disconnect w in
     let w2 := P2P.react o (P2P.Closed ws code) w1 in
     P2P.refs w1 = Hook.init
     /\ Hook.reconnectTimerRef (P2P.refs w2) = Some (Browser.next_timer (P2P.env w1))
     /\ (Browser.next_timer (P2P.env w1),
         Browser.clock (P2P.env w1) + P2P.reconnectInterval o)
          ∈ Browser.timers (P2P.env w2)
     /\ P2PConn.attempts w2 = 1%nat
     /\ ((1 < P2P.maxReconnectAttempts o)%nat ->
         Browser.valid_url (P2P.env w) (P2P.url o) = true ->
         forall dt, P2P.reconnectInterval o <= dt ->
           let w3 := P2P.react o (P2P.Elapsed dt) w2 in
           Reconnect.one_more_socket (P2P.url o) (P2P.env w2) (P2P.env w3)
           /\ Reconnect.connecting_on (Browser.next_socket (P2P.env w)) (P2P.refs w3)))
  /\ (forall o ws code w,
        Hook.wsRef (Orchestrator.refs w) = Some ws ->
        OrchestratorConn.deliverable ws w = true ->
        code <> 1000 -> (0 < Orchestrator.maxReconnectAttempts o)%nat ->
        let w1 := Orchestrator.react o Orchestrator.Disconnect w in
        let w2 := Orchestrator.react o (Orchestrator.Closed ws code) w1 in
        Orchestrator.refs w1 = Hook.init
        /\ Hook.reconnectTimerRef (Orchestrator.refs w2)
           = Some (Browser.next_timer (Orchestrator.env w1))
        /\ (Browser.next_timer (Orchestrator.env w1),
            Browser.clock (Orchestrator.env w1) + Orchestrator.reconnectInterval o)
             ∈ Browser.timers (Orchestrator.env w2)
        /\ OrchestratorConn.attempts w2 = 1%nat
        /\ ((1 < Orchestrator.maxReconnectAttempts o)%nat ->
            Browser.valid_url (Orchestrator.env w) (Orchestrator.wsUrl o) = true ->
            forall dt, Orchestrator.reconnectInterval o <= dt ->
              let w3 := Orchestrator.react o (Orchestrator.Elapsed dt) w2 in
              Reconnect.one_more_socket (Orchestrator.wsUrl o)
                (Orchestrator.env w2) (Orchestrator.env w3)
              /\ Reconnect.connecting_on (Browser.next_socket (Orchestrator.env w))
                   (Orchestrator.refs w3))).
Proof.
  split.
  - intros o ws code w Hws Hd Hcode Hmax w1 w2.
    destruct (StaleFacts.p2p_late_close o ws code w Hws Hd Hcode Hmax)
      as (H1 & H2 & H3 & H4 & H5 & H6 & H7 & H8).
    subst w1 w2. change (P2P.react o P2P.Disconnect w) with (P2P.disconnect w).
    split; [exact H1|]. split; [exact H2|]. split; [exact H3|]. split; [exact H4|].
    intros Hmax' Hv dt Hdt w3.
    destruct (ReconnectFacts.p2p_advance_reconnects o dt _ H5) as (A & B & _).
    + rewrite H4. exact Hmax'.
    + by rewrite H6.
    + eexists _, _. split; [exact H3|]. rewrite H7. lia.
    + split; [exact A|]. rewrite <- H8. exact B.
  - intros o ws code w Hws Hd Hcode Hmax w1 w2.
    destruct (StaleFacts.orch_late_close o ws code w Hws Hd Hcode Hmax)
      as (H1 & H2 & H3 & H4 & H5 & H6 & H7 & H8).
    subst w1 w2.
    change (Orchestrator.react o Orchestrator.Disconnect w)
      with (Orchestrator.disconnect w).
    split; [exact H1|]. split; [exact H2|]. split; [exact H3|]. split; [exact H4|].
    intros Hmax' Hv dt Hdt w3.
    destruct (ReconnectFacts.orch_advance_reconnects o dt _ H5) as (A & B & _).
    + rewrite H4. exact Hmax'.
    + by rewrite H6.
    + eexists _, _. split; [exact H3|]. rewrite H7. lia.
    + split; [exact A|]. rewrite <- H8. exact B.
Qed.

Lemma abnormal_close_after_disconnect_reconnects_witness :
  let w1 := P2P.react P2P.default_options P2P.Disconnect Frames.online in
  let w2 := P2P.react P2P.default_options (P2P.Closed 0 1006) w1 in
  P2P.refs w1 = Hook.init /\ P2PConn.attempts w2 = 1%nat.
Proof.
  intros w1 w2.
  pose proof (proj1 abnormal_close_after_disconnect_reconnects P2P.default_options
                0%nat 1006 Frames.online eq_refl eq_refl ltac:(discriminate)
                ltac:(vm_compute; lia)) as H.
  split; [exact (proj1 H)|exact (proj1 (proj2 (proj2 (proj2 H))))].
Defined.

(** X12.  [ws.onclose] does not check which socket it belongs to.  When
    the close event of an older socket is delivered while the hook
    holds another one, the handler clears [wsRef] and [connected] all
    the same: the hook forgets the socket it holds, which stays as it
    was (open, if it was open), and from then on [sendChat] sends and
    records nothing and [sendWorkloadCommand] sends nothing.  Both
    hooks. *)
Theorem close_of_old_socket_forgets_current :
  (forall o ws ws' code w,
     Hook.wsRef (P2P.refs w) = Some ws' -> ws <> ws' -> P2PConn.deliverable ws w = true ->
     let w1 := P2P.react o (P2P.Closed ws code) w in
     Hook.wsRef (P2P.refs w1) = None
     /\ P2P.connected (P2P.state w1) = false
     /\ Browser.readyState ws' (P2P.env w1) = Browser.readyState ws' (P2P.env w)
     /\ (forall content to,
           P2P.state (P2P.sendChat content to w1) = P2P.state w1
           /\ Browser.sends (Browser.trace (P2P.env (P2P.sendChat content to w1)))
              = Browser.sends (Browser.trace (P2P.env w1))))
  /\ (forall o ws ws' code w,
        Hook.wsRef (Orchestrator.refs w) = Some ws' -> ws <> ws' ->
        OrchestratorConn.deliverable ws w = true ->
        let w1 := Orchestrator.react o (Orchestrator.Closed ws code) w in
        Hook.wsRef (Orchestrator.refs w1) = None
        /\ Orchestrator.connected (Orchestrator.state w1) = false
        /\ Browser.readyState ws' (Orchestrator.env w1)
           = Browser.readyState ws' (Orchestrator.env w)
        /\ (forall command workloadId,
              Orchestrator.sendWorkloadCommand command workloadId w1 = w1)).
Proof.
  split.
  - intros o ws ws' code w Hws Hne Hd w1.
    destruct (StaleFacts.p2p_stale_close o ws ws' code w Hws Hne Hd) as (H1 & H2 & H3).
    fold w1 in H1, H2, H3. repeat split; try assumption.
    all: unfold P2P.sendChat; rewrite H1; simpl; try reflexivity.
    unfold Browser.sends. rewrite List.filter_app. simpl. by rewrite app_nil_r.
  - intros o ws ws' code w Hws Hne Hd w1.
    destruct (StaleFacts.orch_stale_close o ws ws' code w Hws Hne Hd) as (H1 & H2 & H3).
    fold w1 in H1, H2, H3. repeat split; try assumption.
    intros command workloadId. unfold Orchestrator.sendWorkloadCommand. by rewrite H1.
Qed.

Lemma close_of_old_socket_forgets_current_witness :
  let w1 := P2P.react P2P.default_options (P2P.Closed 0 1000) Stale.p2p_restarted in
  Hook.wsRef (P2P.refs Stale.p2p_restarted) = Some 1%nat
  /\ Hook.wsRef (P2P.refs w1) = None
  /\ Browser.readyState 1 (P2P.env w1) = Some Browser.CONNECTING.
Proof.
  intros w1. split; [reflexivity|].
  pose proof (proj1 close_of_old_socket_forgets_current P2P.default_options
                0%nat 1%nat 1000 Stale.p2p_restarted eq_refl ltac:(discriminate) eq_refl)
    as H.
  split; [exact (proj1 H)|].
  exact (eq_trans (proj1 (proj2 (proj2 H))) eq_refl).
Defined.

(** ** The last unit of budget *)

Module LastChanceFacts.

Lemma p2p_run_timers_spent o fuel w :
  (P2P.maxReconnectAttempts o <= P2PConn.attempts w)%nat -> P2PConn.idle w ->
  Browser.attempts (Browser.trace (P2P.env (P2P.run_timers o fuel w)))
  = Browser.attempts (Browser.trace (P2P.env w)).
Proof.
  revert w. induction fuel as [|n IH]; intros w Hmax Hidle; [reflexivity|].
  simpl. destruct (Browser.next_due _ _) as [[t d]|]; [|reflexivity].
  unfold P2P.fire. rewrite P2PConnFacts.p2p_connect_refusal; [|exact Hmax|exact Hidle].
  rewrite IH; [|exact Hmax|exact Hidle].
  simpl. by rewrite !CancelFacts.attempts_emit.
Qed.

Lemma p2p_onclose_attempts o code w :
  Browser.attempts (Browser.trace (P2P.env (P2P.ws_onclose o code w)))
  = Browser.attempts (Browser.trace (P2P.env w)).
Proof.
  unfold P2P.ws_onclose.
  cbn [P2P.refs P2P.env P2P.setRefs P2P.setState P2P.setEnv Hook.reconnectAttemptsRef
       Hook.set_isConnectingRef Hook.set_wsRef Hook.set_reconnectAttemptsRef].
  destruct (bool_decide (code <> 1000) && _); [|reflexivity].
  simpl. by apply (CancelFacts.attempts_emit (Browser.SetTimeout _ _)).
Qed.

Lemma p2p_last_close o ws code dt w :
  P2PConn.closes (P2P.Closed ws code) w = true ->
  S (P2PConn.attempts w) = P2P.maxReconnectAttempts o ->
  let w1 := P2P.react o (P2P.Closed ws code) w in
  let w2 := P2P.react o (P2P.Elapsed dt) w1 in
  Waiting.p2p_waited w1
  = Waiting.p2p_waited w + P2P.reconnectInterval o * 2 ^ Z.of_nat (P2PConn.attempts w)
  /\ Browser.attempts (Browser.trace (P2P.env w2))
     = Browser.attempts (Browser.trace (P2P.env w))
  /\ P2PConn.attempts w2 = P2P.maxReconnectAttempts o
  /\ P2PConn.idle w2.
Proof.
  intros Hc Hs w1 w2.
  pose proof (WaitingFacts.p2p_react_waited o (P2P.Closed ws code) w eq_refl) as Hw.
  pose proof (P2PConnFacts.p2p_attempts_react o (P2P.Closed ws code) w eq_refl) as Ha.
  pose proof (P2PConnFacts.p2p_idle_after_close o (P2P.Closed ws code) w Hc) as Hi.
  rewrite Hc in Hw, Ha.
  destruct (Nat.ltb_spec (P2PConn.attempts w) (P2P.maxReconnectAttempts o)); [|lia].
  cbn [andb] in Hw, Ha. fold w1 in Hw, Ha, Hi.
  assert (Hmax : (P2P.maxReconnectAttempts o <= P2PConn.attempts w1)%nat) by lia.
  split; [exact Hw|].
  assert (Ht : Browser.attempts (Browser.trace (P2P.env w1))
               = Browser.attempts (Browser.trace (P2P.env w))).
  { subst w1. simpl P2P.react.
    destruct (Browser.readyState ws (P2P.env w)) as [[]|]; try reflexivity;
      exact (p2p_onclose_attempts o code
               (P2P.setEnv (Browser.set_readyState ws Browser.CLOSED) w)). }
  subst w2. simpl P2P.react. unfold P2P.advance.
  repeat split.
  - rewrite p2p_run_timers_spent; [exact Ht|exact Hmax|exact Hi].
  - rewrite P2PConnFacts.p2p_run_timers_attempts. unfold P2PConn.attempts in *.
    simpl. lia.
  - apply P2PConnFacts.p2p_run_timers_idle; [exact Hmax|exact Hi].
  - apply P2PConnFacts.p2p_run_timers_idle; [exact Hmax|exact Hi].
Qed.

Lemma orch_run_timers_spent o fuel w :
  (Orchestrator.maxReconnectAttempts o <= OrchestratorConn.attempts w)%nat ->
  OrchestratorConn.idle w ->
  Browser.attempts (Browser.trace (Orchestrator.env (Orchestrator.run_timers o fuel w)))
  = Browser.attempts (Browser.trace (Orchestrator.env w)).
Proof.
  revert w. induction fuel as [|n IH]; intros w Hmax Hidle; [reflexivity|].
  simpl. destruct (Browser.next_due _ _) as [[t d]|]; [|reflexivity].
  unfold Orchestrator.fire.
  rewrite OrchestratorConnFacts.orch_connect_refusal; [|exact Hmax|exact Hidle].
  rewrite IH; [|exact Hmax|exact Hidle].
  simpl. by rewrite !CancelFacts.attempts_emit.
Qed.

Lemma orch_onclose_attempts o code w :
  Browser.attempts (Browser.trace (Orchestrator.env (Orchestrator.ws_onclose o code w)))
  = Browser.attempts (Browser.trace (Orchestrator.env w)).
Proof.
  unfold Orchestrator.ws_onclose.
  cbn [Orchestrator.refs Orchestrator.env Orchestrator.setRefs Orchestrator.setState
       Orchestrator.setEnv Hook.reconnectAttemptsRef
       Hook.set_isConnectingRef Hook.set_wsRef Hook.set_reconnectAttemptsRef].
  destruct (bool_decide (code <> 1000) && _); [|reflexivity].
  simpl. by apply (CancelFacts.attempts_emit (Browser.SetTimeout _ _)).
Qed.

Lemma orch_last_close o ws code dt w :
  OrchestratorConn.closes (Orchestrator.Closed ws code) w = true ->
  S (OrchestratorConn.attempts w) = Orchestrator.maxReconnectAttempts o ->
  let w1 := Orchestrator.react o (Orchestrator.Closed ws code) w in
  let w2 := Orchestrator.react o (Orchestrator.Elapsed dt) w1 in
  Waiting.orchestrator_waited w1
  = Waiting.orchestrator_waited w
    + Orchestrator.reconnectInterval o * 2 ^ Z.of_nat (OrchestratorConn.attempts w)
  /\ Browser.attempts (Browser.trace (Orchestrator.env w2))
     = Browser.attempts (Browser.trace (Orchestrator.env w))
  /\ OrchestratorConn.attempts w2 = Orchestrator.maxReconnectAttempts o
  /\ OrchestratorConn.idle w2.
Proof.
  intros Hc Hs w1 w2.
  pose proof (WaitingFacts.orch_react_waited o (Orchestrator.Closed ws code) w eq_refl)
    as Hw.
  pose proof (OrchestratorConnFacts.orch_attempts_react o (Orchestrator.Closed ws code) w
                eq_refl) as Ha.
  pose proof (OrchestratorConnFacts.orch_idle_after_close o (Orchestrator.Closed ws code)
                w Hc) as Hi.
  rewrite Hc in Hw, Ha.
  destruct (Nat.ltb_spec (OrchestratorConn.attempts w)
              (Orchestrator.maxReconnectAttempts o)); [|lia].
  cbn [andb] in Hw, Ha. fold w1 in Hw, Ha, Hi.
  assert (Hmax : (Orchestrator.maxReconnectAttempts o <= OrchestratorConn.attempts w1)%nat)
    by lia.
  split; [exact Hw|].
  assert (Ht : Browser.attempts (Browser.trace (Orchestrator.env w1))
               = Browser.attempts (Browser.trace (Orchestrator.env w))).
  { subst w1. simpl Orchestrator.react.
    destruct (Browser.readyState ws (Orchestrator.env w)) as [[]|]; try reflexivity;
      exact (orch_onclose_attempts o code
               (Orchestrator.setEnv (Browser.set_readyState ws Browser.CLOSED) w)). }
  subst w2. simpl Orchestrator.react. unfold Orchestrator.advance.
  repeat split.
  - rewrite orch_run_timers_spent; [exact Ht|exact Hmax|exact Hi].
  - rewrite OrchestratorConnFacts.orch_run_timers_attempts.
    unfold OrchestratorConn.attempts in *. simpl. lia.
  - apply OrchestratorConnFacts.orch_run_timers_idle; [exact Hmax|exact Hi].
  - apply OrchestratorConnFacts.orch_run_timers_idle; [exact Hmax|exact Hi].
Qed.

End LastChanceFacts.

(** X13.  The last scheduled reconnect connects nothing.  The abnormal
    close that raises the attempt counter to [maxReconnectAttempts]
    still schedules [connect], after
    [reconnectInterval * 2^(maxReconnectAttempts - 1)] ms; but when
    that timeout fires, [connect] finds the budget spent and refuses.
    So however much time passes afterwards no socket is constructed:
    a ceiling of [n] allows [n - 1] reconnects.  Both hooks. *)
Theorem last_scheduled_reconnect_is_refused :
  (forall o ws code dt w,
     P2PConn.closes (P2P.Closed ws code) w = true ->
     S (P2PConn.attempts w) = P2P.maxReconnectAttempts o ->
     let w1 := P2P.react o (P2P.Closed ws code) w in
     let w2 := P2P.react o (P2P.Elapsed dt) w1 in
     Waiting.p2p_waited w1
     = Waiting.p2p_waited w + P2P.reconnectInterval o * 2 ^ Z.of_nat (P2PConn.attempts w)
     /\ Browser.attempts (Browser.trace (P2P.env w2))
        = Browser.attempts (Browser.trace (P2P.env w))
     /\ P2PConn.attempts w2 = P2P.maxReconnectAttempts o
     /\ P2PConn.idle w2)
  /\ (forall o ws code dt w,
        OrchestratorConn.closes (Orchestrator.Closed ws code) w = true ->
        S (OrchestratorConn.attempts w) = Orchestrator.maxReconnectAttempts o ->
        let w1 := Orchestrator.react o (Orchestrator.Closed ws code) w in
        let w2 := Orchestrator.react o (Orchestrator.Elapsed dt) w1 in
        Waiting.orchestrator_waited w1
        = Waiting.orchestrator_waited w
          + Orchestrator.reconnectInterval o * 2 ^ Z.of_nat (OrchestratorConn.attempts w)
        /\ Browser.attempts (Browser.trace (Orchestrator.env w2))
           = Browser.attempts (Browser.trace (Orchestrator.env w))
        /\ OrchestratorConn.attempts w2 = Orchestrator.maxReconnectAttempts o
        /\ OrchestratorConn.idle w2).
Proof.
  split.
  - intros o ws code dt w. apply LastChanceFacts.p2p_last_close.
  - intros o ws code dt w. apply LastChanceFacts.orch_last_close.
Qed.

Lemma last_scheduled_reconnect_is_refused_witness :
  let w1 := P2P.react P2P.default_options (P2P.Closed 4 1006) LastChance.p2p_four_down in
  let w2 := P2P.react P2P.default_options (P2P.Elapsed 48000) w1 in
  Waiting.p2p_waited w1 = Waiting.p2p_waited LastChance.p2p_four_down + 48000
  /\ Browser.attempts (Browser.trace (P2P.env w2)) = 5%nat.
Proof.
  intros w1 w2.
  pose proof (proj1 last_scheduled_reconnect_is_refused P2P.default_options
                4%nat 1006 48000 LastChance.p2p_four_down eq_refl eq_refl) as H.
  split; [exact (proj1 H)|exact (eq_trans (proj1 (proj2 H)) eq_refl)].
Defined.

(** ** Restarting *)

Module RecoveryFacts.
Import Reconnect.

Lemma same_pending_refl b : same_pending b b.
Proof. by repeat split. Qed.

Lemma same_pending_trans b1 b2 b3 :
  same_pending b1 b2 -> same_pending b2 b3 -> same_pending b1 b3.
Proof.
  intros (A1 & A2 & A3 & A4 & A5) (B1 & B2 & B3 & B4 & B5).
  repeat split; congruence.
Qed.

Lemma same_pending_emit e b :
  Cancel.harmless e -> same_pending b (Browser.emit e b).
Proof.
  intros He. repeat split. simpl. by apply CancelFacts.attempts_emit.
Qed.

Lemma same_pending_set_readyState ws r b :
  same_pending b (Browser.set_readyState ws r b).
Proof. by repeat split. Qed.

(** *** useP2P *)

Lemma p2p_bystander_env o e w :
  p2p_bystander e = true -> same_pending (P2P.env w) (P2P.env (P2P.react o e w)).
Proof.
  intros Hb. destruct e; try discriminate Hb; simpl P2P.react.
  - apply bool_decide_eq_true in Hb. subst code.
    destruct (Browser.readyState ws (P2P.env w)) as [[]|];
      try apply same_pending_refl; apply same_pending_set_readyState.
  - destruct (Browser.readyState ws (P2P.env w)); [|apply same_pending_refl].
    by apply same_pending_emit.
  - case_decide; [|apply same_pending_refl]. destruct payload as [message|].
    + simpl. rewrite P2PCancelFacts.p2p_handleMessage_env. apply same_pending_refl.
    + by apply same_pending_emit.
  - destruct r as [msg|[okr st [info|]]]; try apply same_pending_refl;
      by apply same_pending_emit.
  - destruct r as [msg|[okr st [received|]]]; try apply same_pending_refl;
      by apply same_pending_emit.
Qed.

Lemma p2p_bystander_refs o e w :
  p2p_bystander e = true -> P2PConn.idle w ->
  P2PConn.idle (P2P.react o e w) /\ P2PConn.attempts (P2P.react o e w) = P2PConn.attempts w.
Proof.
  intros Hb [Hc Hws]. unfold P2PConn.idle, P2PConn.attempts.
  destruct e; try discriminate Hb; simpl P2P.react.
  - apply bool_decide_eq_true in Hb. subst code.
    destruct (Browser.readyState ws (P2P.env w)) as [[]|]; by repeat split.
  - destruct (Browser.readyState ws (P2P.env w)); by repeat split.
  - case_decide; [|by repeat split]. destruct payload as [message|]; [|by repeat split].
    simpl. rewrite P2PConnFacts.p2p_handleMessage_refs. by repeat split.
  - destruct r as [msg|[okr st [info|]]]; by repeat split.
  - destruct r as [msg|[okr st [received|]]]; by repeat split.
Qed.

Lemma p2p_bystanders_run o es w :
  forallb p2p_bystander es = true -> P2PConn.idle w ->
  same_pending (P2P.env w) (P2P.env (P2P.run_events o es w))
  /\ P2PConn.idle (P2P.run_events o es w)
  /\ P2PConn.attempts (P2P.run_events o es w) = P2PConn.attempts w.
Proof.
  revert w. induction es as [|e es IH]; intros w Hes Hidle.
  - split; [apply same_pending_refl|by split].
  - simpl in Hes. apply andb_prop in Hes as [He Hes].
    destruct (p2p_bystander_refs o e w He Hidle) as [Hi Ha].
    destruct (IH (P2P.react o e w) Hes Hi) as (H1 & H2 & H3).
    simpl. split; [|split; [exact H2|congruence]].
    eapply same_pending_trans; [by apply p2p_bystander_env|exact H1].
Qed.

Lemma p2p_reset_state w :
  let w1 := P2P.resetConnection w in
  P2P.refs w1 = Hook.init
  /\ Browser.valid_url (P2P.env w1) = Browser.valid_url (P2P.env w)
  /\ Browser.next_socket (P2P.env w1) = Browser.next_socket (P2P.env w)
  /\ Browser.attempts (Browser.trace (P2P.env w1))
     = Browser.attempts (Browser.trace (P2P.env w))
  /\ exists t, (t, Browser.clock (P2P.env w1) + 100) ∈ Browser.timers (P2P.env w1).
Proof.
  intros w1. destruct (RestartFacts.p2p_disconnect_static w) as (S1 & S2 & S3 & S4).
  subst w1. unfold P2P.resetConnection. simpl.
  split; [apply P2PCancelFacts.p2p_disconnect_refs|].
  split; [exact S1|]. split; [exact S2|]. split.
  - rewrite CancelFacts.attempts_emit by reflexivity. exact S4.
  - eexists. apply elem_of_app. right. by apply list_elem_of_singleton.
Qed.

Lemma p2p_reset_recovers o es dt w :
  (0 < P2P.maxReconnectAttempts o)%nat ->
  Browser.valid_url (P2P.env w) (P2P.url o) = true ->
  forallb p2p_bystander es = true ->
  100 <= dt ->
  let w3 := P2P.run_events o (P2P.ResetConnection :: es ++ [P2P.Elapsed dt]) w in
  one_more_socket (P2P.url o) (P2P.env w) (P2P.env w3)
  /\ connecting_on (Browser.next_socket (P2P.env w)) (P2P.refs w3)
  /\ P2PConn.attempts w3 = 0%nat.
Proof.
  intros Hmax Hv Hes Hdt w3. subst w3.
  unfold P2P.run_events. simpl foldl. rewrite foldl_app. simpl foldl.
  change (P2P.react o P2P.ResetConnection w) with (P2P.resetConnection w).
  destruct (p2p_reset_state w) as (R1 & R2 & R3 & R4 & t & R5).
  set (w1 := P2P.resetConnection w) in *.
  assert (Hidle : P2PConn.idle w1) by (unfold P2PConn.idle; by rewrite R1).
  destruct (p2p_bystanders_run o es w1 Hes Hidle) as ((E1 & E2 & E3 & E4 & E5) & I2 & A2).
  change (foldl (fun w e => P2P.react o e w) w1 es) with (P2P.run_events o es w1).
  set (w2 := P2P.run_events o es w1) in *.
  assert (Ha2 : P2PConn.attempts w2 = 0%nat).
  { rewrite A2. unfold P2PConn.attempts. by rewrite R1. }
  destruct (ReconnectFacts.p2p_advance_reconnects o dt w2 I2)
    as ((A1 & A3 & A4 & A5) & B & C & D).
  - rewrite Ha2. exact Hmax.
  - by rewrite E1, R2.
  - exists t, (Browser.clock (P2P.env w1) + 100). rewrite E2, E3. split; [exact R5|lia].
  - simpl P2P.react. unfold one_more_socket.
    rewrite E4, E5, R3, R4 in *. repeat split; try assumption; try apply B.
    by rewrite C.
Qed.

Lemma p2p_reset_starved o ws code dt w :
  Hook.wsRef (P2P.refs w) = Some ws -> P2PConn.deliverable ws w = true ->
  code <> 1000 -> P2P.maxReconnectAttempts o = 1%nat ->
  let w3 := P2P.run_events o [P2P.ResetConnection; P2P.Closed ws code; P2P.Elapsed dt] w in
  Browser.attempts (Browser.trace (P2P.env w3)) = Browser.attempts (Browser.trace (P2P.env w))
  /\ P2PConn.idle w3
  /\ P2PConn.attempts w3 = 1%nat.
Proof.
  intros Hws Hd Hcode Hmax w3. subst w3.
  change (P2P.run_events o [P2P.ResetConnection; P2P.Closed ws code; P2P.Elapsed dt] w)
    with (P2P.react o (P2P.Elapsed dt)
            (P2P.react o (P2P.Closed ws code) (P2P.resetConnection w))).
  destruct (p2p_reset_state w) as (R1 & R2 & R3 & R4 & _).
  set (w1 := P2P.resetConnection w) in *.
  assert (Hcl : P2PConn.closes (P2P.Closed ws code) w1 = true).
  { simpl. rewrite bool_decide_eq_true_2 by exact Hcode. simpl.
    unfold P2PConn.deliverable.
    change (Browser.readyState ws (P2P.env w1))
      with (Browser.readyState ws (P2P.env (P2P.disconnect w))).
    by rewrite (StaleFacts.p2p_disconnect_closing ws w Hws Hd). }
  assert (Ha : S (P2PConn.attempts w1) = P2P.maxReconnectAttempts o).
  { unfold P2PConn.attempts. by rewrite R1, Hmax. }
  destruct (LastChanceFacts.p2p_last_close o ws code dt w1 Hcl Ha) as (_ & L2 & L3 & L4).
  split; [by rewrite L2, R4|]. split; [exact L4|]. by rewrite L3, Hmax.
Qed.

(** *** useOrchestrator *)

Lemma orch_bystander_env o e w :
  orchestrator_bystander e = true ->
  same_pending (Orchestrator.env w) (Orchestrator.env (Orchestrator.react o e w)).
Proof.
  intros Hb. destruct e; try discriminate Hb; simpl Orchestrator.react.
  - apply bool_decide_eq_true in Hb. subst code.
    destruct (Browser.readyState ws (Orchestrator.env w)) as [[]|];
      try apply same_pending_refl; apply same_pending_set_readyState.
  - destruct (Browser.readyState ws (Orchestrator.env w)); [|apply same_pending_refl].
    by apply same_pending_emit.
  - case_decide; [|apply same_pending_refl]. destruct payload as [event|].
    + simpl. destruct (Orchestrator.for_orchestrator _); [|apply same_pending_refl].
      rewrite OrchestratorCancelFacts.orch_handleMessage_env. apply same_pending_refl.
    + by apply same_pending_emit.
  - destruct rejected; apply same_pending_refl.
  - destruct r as [msg|[[] st [b|]]]; try apply same_pending_refl;
      by apply same_pending_emit.
  - destruct r as [msg|[[] st [b|]]]; try apply same_pending_refl;
      by apply same_pending_emit.
  - destruct r as [msg|[[] st [b|]]]; try apply same_pending_refl;
      by apply same_pending_emit.
  - destruct r as [msg|[[] st [b|]]]; try apply same_pending_refl;
      by apply same_pending_emit.
  - destruct r as [msg|[[] st b]]; try (by apply same_pending_emit).
    unfold settle. simpl. unfold Orchestrator.sendWorkloadCommand. simpl.
    destruct (Hook.wsRef _); [destruct (Hook.ws_readyState _ _) as [[]|]|];
      try apply same_pending_refl; by apply same_pending_emit.
  - destruct r as [msg|[[] st b]]; try (by apply same_pending_emit).
    unfold settle. simpl. unfold Orchestrator.sendWorkloadCommand. simpl.
    destruct (Hook.wsRef _); [destruct (Hook.ws_readyState _ _) as [[]|]|];
      try apply same_pending_refl; by apply same_pending_emit.
Qed.

Lemma orch_bystander_refs o e w :
  orchestrator_bystander e = true -> OrchestratorConn.idle w ->
  OrchestratorConn.idle (Orchestrator.react o e w)
  /\ OrchestratorConn.attempts (Orchestrator.react o e w) = OrchestratorConn.attempts w.
Proof.
  intros Hb [Hc Hws]. pose proof (OrchestratorConnFacts.settled_refs o e w) as Hs.
  unfold OrchestratorConn.idle, OrchestratorConn.attempts.
  destruct e; try discriminate Hb; try (rewrite Hs; by repeat split);
    simpl Orchestrator.react.
  - apply bool_decide_eq_true in Hb. subst code.
    destruct (Browser.readyState ws (Orchestrator.env w)) as [[]|]; by repeat split.
  - destruct (Browser.readyState ws (Orchestrator.env w)); by repeat split.
  - case_decide; [|by repeat split]. destruct payload as [event|]; [|by repeat split].
    simpl. destruct (Orchestrator.for_orchestrator _); [|by repeat split].
    rewrite OrchestratorConnFacts.orch_handleMessage_refs. by repeat split.
  - destruct rejected; by repeat split.
Qed.

Lemma orch_bystanders_run o es w :
  forallb orchestrator_bystander es = true -> OrchestratorConn.idle w ->
  same_pending (Orchestrator.env w) (Orchestrator.env (Orchestrator.run_events o es w))
  /\ OrchestratorConn.idle (Orchestrator.run_events o es w)
  /\ OrchestratorConn.attempts (Orchestrator.run_events o es w)
     = OrchestratorConn.attempts w.
Proof.
  revert w. induction es as [|e es IH]; intros w Hes Hidle.
  - split; [apply same_pending_refl|by split].
  - simpl in Hes. apply andb_prop in Hes as [He Hes].
    destruct (orch_bystander_refs o e w He Hidle) as [Hi Ha].
    destruct (IH (Orchestrator.react o e w) Hes Hi) as (H1 & H2 & H3).
    simpl. split; [|split; [exact H2|congruence]].
    eapply same_pending_trans; [by apply orch_bystander_env|exact H1].
Qed.

Lemma orch_reset_state w :
  let w1 := Orchestrator.resetConnection w in
  Orchestrator.refs w1 = Hook.init
  /\ Browser.valid_url (Orchestrator.env w1) = Browser.valid_url (Orchestrator.env w)
  /\ Browser.next_socket (Orchestrator.env w1) = Browser.next_socket (Orchestrator.env w)
  /\ Browser.attempts (Browser.trace (Orchestrator.env w1))
     = Browser.attempts (Browser.trace (Orchestrator.env w))
  /\ exists t, (t, Browser.clock (Orchestrator.env w1) + 100)
                 ∈ Browser.timers (Orchestrator.env w1).
Proof.
  intros w1. destruct (RestartFacts.orch_disconnect_static w) as (S1 & S2 & S3 & S4).
  subst w1. unfold Orchestrator.resetConnection. simpl.
  split; [apply OrchestratorCancelFacts.orch_disconnect_refs|].
  split; [exact S1|]. split; [exact S2|]. split.
  - rewrite CancelFacts.attempts_emit by reflexivity. exact S4.
  - eexists. apply elem_of_app. right. by apply list_elem_of_singleton.
Qed.

Lemma orch_reset_recovers o es dt w :
  (0 < Orchestrator.maxReconnectAttempts o)%nat ->
  Browser.valid_url (Orchestrator.env w) (Orchestrator.wsUrl o) = true ->
  forallb orchestrator_bystander es = true ->
  100 <= dt ->
  let w3 := Orchestrator.run_events o
              (Orchestrator.ResetConnection :: es ++ [Orchestrator.Elapsed dt]) w in
  one_more_socket (Orchestrator.wsUrl o) (Orchestrator.env w) (Orchestrator.env w3)
  /\ connecting_on (Browser.next_socket (Orchestrator.env w)) (Orchestrator.refs w3)
  /\ OrchestratorConn.attempts w3 = 0%nat.
Proof.
  intros Hmax Hv Hes Hdt w3. subst w3.
  unfold Orchestrator.run_events. simpl foldl. rewrite foldl_app. simpl foldl.
  change (Orchestrator.react o Orchestrator.ResetConnection w)
    with (Orchestrator.resetConnection w).
  destruct (orch_reset_state w) as (R1 & R2 & R3 & R4 & t & R5).
  set (w1 := Orchestrator.resetConnection w) in *.
  assert (Hidle : OrchestratorConn.idle w1) by (unfold OrchestratorConn.idle; by rewrite R1).
  destruct (orch_bystanders_run o es w1 Hes Hidle)
    as ((E1 & E2 & E3 & E4 & E5) & I2 & A2).
  change (foldl (fun w e => Orchestrator.react o e w) w1 es)
    with (Orchestrator.run_events o es w1).
  set (w2 := Orchestrator.run_events o es w1) in *.
  assert (Ha2 : OrchestratorConn.attempts w2 = 0%nat).
  { rewrite A2. unfold OrchestratorConn.attempts. by rewrite R1. }
  destruct (ReconnectFacts.orch_advance_reconnects o dt w2 I2)
    as ((A1 & A3 & A4 & A5) & B & C & D).
  - rewrite Ha2. exact Hmax.
  - by rewrite E1, R2.
  - exists t, (Browser.clock (Orchestrator.env w1) + 100). rewrite E2, E3.
    split; [exact R5|lia].
  - simpl Orchestrator.react. unfold one_more_socket.
    rewrite E4, E5, R3, R4 in *. repeat split; try assumption; try apply B.
    by rewrite C.
Qed.

Lemma orch_reset_starved o ws code dt w :
  Hook.wsRef (Orchestrator.refs w) = Some ws -> OrchestratorConn.deliverable ws w = true ->
  code <> 1000 -> Orchestrator.maxReconnectAttempts o = 1%nat ->
  let w3 := Orchestrator.run_events o
              [Orchestrator.ResetConnection; Orchestrator.Closed ws code;
               Orchestrator.Elapsed dt] w in
  Browser.attempts (Browser.trace (Orchestrator.env w3))
  = Browser.attempts (Browser.trace (Orchestrator.env w))
  /\ OrchestratorConn.idle w3
  /\ OrchestratorConn.attempts w3 = 1%nat.
Proof.
  intros Hws Hd Hcode Hmax w3. subst w3.
  change (Orchestrator.run_events o
            [Orchestrator.ResetConnection; Orchestrator.Closed ws code;
             Orchestrator.Elapsed dt] w)
    with (Orchestrator.react o (Orchestrator.Elapsed dt)
            (Orchestrator.react o (Orchestrator.Closed ws code)
               (Orchestrator.resetConnection w))).
  destruct (orch_reset_state w) as (R1 & R2 & R3 & R4 & _).
  set (w1 := Orchestrator.resetConnection w) in *.
  assert (Hcl : OrchestratorConn.closes (Orchestrator.Closed ws code) w1 = true).
  { simpl. rewrite bool_decide_eq_true_2 by exact Hcode. simpl.
    unfold OrchestratorConn.deliverable.
    change (Browser.readyState ws (Orchestrator.env w1))
      with (Browser.readyState ws (Orchestrator.env (Orchestrator.disconnect w))).
    by rewrite (StaleFacts.orch_disconnect_closing ws w Hws Hd). }
  assert (Ha : S (OrchestratorConn.attempts w1) = Orchestrator.maxReconnectAttempts o).
  { unfold OrchestratorConn.attempts. by rewrite R1, Hmax. }
  destruct (LastChanceFacts.orch_last_close o ws code dt w1 Hcl Ha) as (_ & L2 & L3 & L4).
  split; [by rewrite L2, R4|]. split; [exact L4|]. by rewrite L3, Hmax.
Qed.

End RecoveryFacts.

(** X10.  [resetConnection] gets the hook connecting again from any
    state, budget spent included, provided nothing but errors, frames,
    clean closes and answers of requests reaches the hook before the
    100 ms timeout it sets has fired.  Then, once the 100 ms have
    passed, exactly one new socket has been constructed, the hook holds
    it and is connecting on it, and the attempt counter is zero (given
    a url the [WebSocket] constructor accepts and a ceiling above
    zero).  It is not unconditional: the close event of the socket that
    [resetConnection] has just closed may report a code other than
    1000 within these 100 ms; that close spends budget, and with a
    ceiling of 1 the timeout then finds the budget spent and no socket
    is constructed.  Both hooks. *)
Theorem resetConnection_recovers :
  (forall o es dt w,
     (0 < P2P.maxReconnectAttempts o)%nat ->
     Browser.valid_url (P2P.env w) (P2P.url o) = true ->
     forallb Reconnect.p2p_bystander es = true ->
     100 <= dt ->
     let w3 := P2P.run_events o (P2P.ResetConnection :: es ++ [P2P.Elapsed dt]) w in
     Reconnect.one_more_socket (P2P.url o) (P2P.env w) (P2P.env w3)
     /\ Reconnect.connecting_on (Browser.next_socket (P2P.env w)) (P2P.refs w3)
     /\ P2PConn.attempts w3 = 0%nat)
  /\ (forall o ws code dt w,
        Hook.wsRef (P2P.refs w) = Some ws -> P2PConn.deliverable ws w = true ->
        code <> 1000 -> P2P.maxReconnectAttempts o = 1%nat ->
        let w3 := P2P.run_events o
                    [P2P.ResetConnection; P2P.Closed ws code; P2P.Elapsed dt] w in
        Browser.attempts (Browser.trace (P2P.env w3))
        = Browser.attempts (Browser.trace (P2P.env w))
        /\ P2PConn.idle w3
        /\ P2PConn.attempts w3 = 1%nat)
  /\ (forall o es dt w,
        (0 < Orchestrator.maxReconnectAttempts o)%nat ->
        Browser.valid_url (Orchestrator.env w) (Orchestrator.wsUrl o) = true ->
        forallb Reconnect.orchestrator_bystander es = true ->
        100 <= dt ->
        let w3 := Orchestrator.run_events o
                    (Orchestrator.ResetConnection :: es ++ [Orchestrator.Elapsed dt]) w in
        Reconnect.one_more_socket (Orchestrator.wsUrl o)
          (Orchestrator.env w) (Orchestrator.env w3)
        /\ Reconnect.connecting_on (Browser.next_socket (Orchestrator.env w))
             (Orchestrator.refs w3)
        /\ OrchestratorConn.attempts w3 = 0%nat)
  /\ (forall o ws code dt w,
        Hook.wsRef (Orchestrator.refs w) = Some ws ->
        OrchestratorConn.deliverable ws w = true ->
        code <> 1000 -> Orchestrator.maxReconnectAttempts o = 1%nat ->
        let w3 := Orchestrator.run_events o
                    [Orchestrator.ResetConnection; Orchestrator.Closed ws code;
                     Orchestrator.Elapsed dt] w in
        Browser.attempts (Browser.trace (Orchestrator.env w3))
        = Browser.attempts (Browser.trace (Orchestrator.env w))
        /\ OrchestratorConn.idle w3
        /\ OrchestratorConn.attempts w3 = 1%nat).
Proof.
  split; [|split; [|split]].
  - intros o es dt w. apply RecoveryFacts.p2p_reset_recovers.
  - intros o ws code dt w. apply RecoveryFacts.p2p_reset_starved.
  - intros o es dt w. apply RecoveryFacts.orch_reset_recovers.
  - intros o ws code dt w. apply RecoveryFacts.orch_reset_starved.
Qed.

Lemma resetConnection_recovers_witness :
  P2PConn.attempts Reconnect.p2p_exhausted = 5%nat
  /\ P2PConn.attempts
       (P2P.run_events P2P.default_options
          (P2P.ResetConnection :: Reconnect.p2p_meanwhile ++ [P2P.Elapsed 100])
          Reconnect.p2p_exhausted) = 0%nat.
Proof.
  split; [reflexivity|].
  refine (proj2 (proj2 (proj1 resetConnection_recovers P2P.default_options
                          Reconnect.p2p_meanwhile 100 Reconnect.p2p_exhausted _ _ _ _))).
  - vm_compute. lia.
  - reflexivity.
  - reflexivity.
  - lia.
Defined.

(** ** What the connection life cycle leaves alone *)

Module LifecycleFacts.
Import Lifecycle.

Lemma p2p_react_peers_kept o e w :
  p2p_feeds e = false ->
  P2P.peers (P2P.state (P2P.react o e w)) = P2P.peers (P2P.state w).
Proof.
  intros Hf. destruct e; try discriminate Hf; simpl P2P.react.
  - by rewrite P2PStoreFacts.connect_state.
  - by rewrite P2PStoreFacts.disconnect_state.
  - case_decide; reflexivity.
  - unfold P2P.ws_onclose.
    destruct (Browser.readyState ws (P2P.env w)) as [[]|]; try reflexivity;
      cbn [P2P.refs P2P.env P2P.setRefs P2P.setState P2P.setEnv Hook.reconnectAttemptsRef
           Hook.set_isConnectingRef Hook.set_wsRef Hook.set_reconnectAttemptsRef];
      destruct (bool_decide (code <> 1000) && _); reflexivity.
  - destruct (Browser.readyState ws (P2P.env w)); reflexivity.
  - by rewrite P2PStoreFacts.advance_state.
  - destruct r as [msg|[okr st [info|]]]; reflexivity.
  - unfold P2P.sendChat.
    destruct (Hook.wsRef _); [destruct (Hook.ws_readyState _ _) as [[]|]|]; reflexivity.
  - by rewrite P2PStoreFacts.disconnect_state.
  - unfold P2P.resetConnection. simpl. by rewrite P2PStoreFacts.disconnect_state.
  - reflexivity.
Qed.

Lemma orch_connect_kept o w : stores (Orchestrator.connect o w) = stores w.
Proof.
  unfold stores, Orchestrator.connect.
  destruct (Hook.isConnectingRef _); [reflexivity|].
  case_decide; [reflexivity|]. case_decide; [reflexivity|].
  destruct (_ <=? _)%nat; [reflexivity|].
  cbn [Orchestrator.env Orchestrator.setRefs Orchestrator.setState].
  destruct (Browser.newWebSocket _ _) as [b [ws|]]; reflexivity.
Qed.

Lemma orch_disconnect_kept w : stores (Orchestrator.disconnect w) = stores w.
Proof.
  unfold stores, Orchestrator.disconnect.
  destruct (Hook.reconnectTimerRef _); simpl; destruct (Hook.wsRef _); reflexivity.
Qed.

Lemma orch_run_timers_kept o fuel w : stores (Orchestrator.run_timers o fuel w) = stores w.
Proof.
  revert w. induction fuel as [|n IH]; intros w; [reflexivity|].
  simpl. destruct (Browser.next_due _ _) as [[t d]|]; [|reflexivity].
  rewrite IH. unfold Orchestrator.fire. by rewrite orch_connect_kept.
Qed.

Lemma orch_react_kept o e w :
  orchestrator_feeds e = false -> stores (Orchestrator.react o e w) = stores w.
Proof.
  intros Hf. destruct e; try discriminate Hf; simpl Orchestrator.react;
    try reflexivity.
  - destruct (Orchestrator.autoConnect o); [apply orch_connect_kept|reflexivity].
  - apply orch_disconnect_kept.
  - case_decide; reflexivity.
  - unfold Orchestrator.ws_onclose.
    destruct (Browser.readyState ws (Orchestrator.env w)) as [[]|]; try reflexivity;
      cbn [Orchestrator.refs Orchestrator.env Orchestrator.setRefs Orchestrator.setState
           Orchestrator.setEnv Hook.reconnectAttemptsRef
           Hook.set_isConnectingRef Hook.set_wsRef Hook.set_reconnectAttemptsRef];
      destruct (bool_decide (code <> 1000) && _); reflexivity.
  - destruct (Browser.readyState ws (Orchestrator.env w)); reflexivity.
  - unfold Orchestrator.advance. by rewrite orch_run_timers_kept.
  - apply orch_connect_kept.
  - apply orch_disconnect_kept.
  - unfold Orchestrator.resetConnection.
    change (stores (Orchestrator.setEnv _ (Orchestrator.disconnect w)))
      with (stores (Orchestrator.disconnect w)).
    apply orch_disconnect_kept.
  - destruct rejected; reflexivity.
Qed.

End LifecycleFacts.

(** X14.  The stores survive the connection life cycle.  Mounting and
    unmounting, opens, closes and errors of sockets, timeouts,
    [disconnect], [resetConnection], [connect] and the start of any
    request leave the peer store, respectively the workloads, the nodes
    and the cluster metrics, exactly as they were: only a frame or the
    answer of a REST call changes them.  So the entities of the last
    session stay on display while the hook is disconnected.  Both
    hooks. *)
Theorem stores_survive_reconnects :
  (forall o es w,
     forallb (fun e => negb (Lifecycle.p2p_feeds e)) es = true ->
     P2P.peers (P2P.state (P2P.run_events o es w)) = P2P.peers (P2P.state w))
  /\ (forall o es w,
        forallb (fun e => negb (Lifecycle.orchestrator_feeds e)) es = true ->
        Lifecycle.stores (Orchestrator.run_events o es w) = Lifecycle.stores w).
Proof.
  split; intros o es; induction es as [|e es IH]; intros w Hes; try reflexivity.
  - simpl in Hes. apply andb_prop in Hes as [He Hes]. apply negb_true_iff in He.
    simpl. rewrite (IH _ Hes). by apply LifecycleFacts.p2p_react_peers_kept.
  - simpl in Hes. apply andb_prop in Hes as [He Hes]. apply negb_true_iff in He.
    simpl. rewrite (IH _ Hes). by apply LifecycleFacts.orch_react_kept.
Qed.

Lemma stores_survive_reconnects_witness :
  P2P.peers (P2P.state
     (P2P.run_events P2P.default_options Lifecycle.p2p_bumpy Fetches.peered))
  = P2P.peers (P2P.state Fetches.peered).
Proof.
  exact (proj1 stores_survive_reconnects P2P.default_options Lifecycle.p2p_bumpy
           Fetches.peered eq_refl).
Defined.

(** ** Workload and node events *)

Module UpsertFacts.
Import Orchestrator Upsert.

Lemma carrier_upserts mk workload w :
  mk ∈ carriers ->
  handleMessage (mk workload) w
  = setState (fun s => set_workloads (<[Workload.id workload := workload]> (workloads s)) s) w.
Proof.
  unfold carriers. intros H.
  repeat (apply elem_of_cons in H as [->|H]; [reflexivity|]).
  by apply elem_of_nil in H.
Qed.

Lemma setState_id (f : OrchestratorState -> OrchestratorState) w :
  f (state w) = state w -> setState f w = w.
Proof. destruct w as [s r b]. simpl. unfold setState. simpl. by intros ->. Qed.

Lemma set_workloads_id s : set_workloads (workloads s) s = s.
Proof. by destruct s. Qed.

Lemma set_nodes_id s : set_nodes (nodes s) s = s.
Proof. by destruct s. Qed.

Lemma sends_app a b : Browser.sends (a ++ b) = (Browser.sends a ++ Browser.sends b)%list.
Proof. unfold Browser.sends. by rewrite List.filter_app. Qed.

Lemma sendWorkloadCommand_sends command workloadId w :
  Browser.sends (Browser.trace (env (sendWorkloadCommand command workloadId w)))
  = (Browser.sends (Browser.trace (env w)) ++ command_frames command workloadId w)%list.
Proof.
  unfold sendWorkloadCommand, command_frames.
  destruct (Hook.wsRef (refs w)) as [ws|];
    [destruct (Hook.ws_readyState (refs w) (env w)) as [[]|]|];
    simpl; rewrite ?sends_app, ?app_nil_r; reflexivity.
Qed.

End UpsertFacts.

(** X15.  Workload and node events are plain upserts and deletes.  Each
    of [workload_created], [workload_updated], [workload_completed] and
    [workload_failed] stores the workload it carries under its id,
    whatever was there, and touches nothing else; of two such events
    for the same id only the later one counts, whichever their types
    (an update that arrives after the completion puts the workload back
    to what the update says).  A node that joins and then leaves is
    gone, the store being as it was if the node was new; [node_left]
    for an unknown node changes nothing. *)
Theorem orchestrator_events_upsert :
  (forall mk workload w,
     mk ∈ Upsert.carriers ->
     let w' := Orchestrator.handleMessage (mk workload) w in
     Orchestrator.workloads (Orchestrator.state w') !! Workload.id workload = Some workload
     /\ (forall k, k <> Workload.id workload ->
           Orchestrator.workloads (Orchestrator.state w') !! k
           = Orchestrator.workloads (Orchestrator.state w) !! k)
     /\ Orchestrator.nodes (Orchestrator.state w') = Orchestrator.nodes (Orchestrator.state w)
     /\ Orchestrator.refs w' = Orchestrator.refs w
     /\ Orchestrator.env w' = Orchestrator.env w)
  /\ (forall mk1 mk2 first second w,
        mk1 ∈ Upsert.carriers -> mk2 ∈ Upsert.carriers ->
        Workload.id first = Workload.id second ->
        Orchestrator.handleMessage (mk2 second) (Orchestrator.handleMessage (mk1 first) w)
        = Orchestrator.handleMessage (mk2 second) w)
  /\ (forall node w,
        let w' := Orchestrator.handleMessage
                    (Orchestrator.node_left (NodeHealth.nodeId node))
                    (Orchestrator.handleMessage (Orchestrator.node_joined node) w) in
        Orchestrator.nodes (Orchestrator.state w')
        = delete (NodeHealth.nodeId node) (Orchestrator.nodes (Orchestrator.state w))
        /\ (Orchestrator.nodes (Orchestrator.state w) !! NodeHealth.nodeId node = None ->
            w' = w))
  /\ (forall nodeId w,
        Orchestrator.nodes (Orchestrator.state w) !! nodeId = None ->
        Orchestrator.handleMessage (Orchestrator.node_left nodeId) w = w).
Proof.
  split; [|split; [|split]].
  - intros mk workload w Hmk w'. subst w'. rewrite (UpsertFacts.carrier_upserts _ _ _ Hmk).
    simpl. rewrite lookup_insert_eq. repeat split.
    intros k Hk. by rewrite lookup_insert_ne.
  - intros mk1 mk2 first second w H1 H2 Hid.
    rewrite !(UpsertFacts.carrier_upserts _ _ _ H2), (UpsertFacts.carrier_upserts _ _ _ H1).
    destruct w as [s r b]. unfold Orchestrator.setState. simpl. f_equal.
    unfold Orchestrator.set_workloads. simpl. f_equal.
    rewrite Hid. apply insert_insert_eq.
  - intros node w w'. subst w'. simpl. split.
    + apply delete_insert_eq.
    + intros Hnone. destruct w as [s r b]. unfold Orchestrator.setState. simpl in *.
      f_equal. unfold Orchestrator.set_nodes. simpl.
      rewrite delete_insert_eq, delete_id by exact Hnone. by destruct s.
  - intros nodeId w Hnone. simpl. apply UpsertFacts.setState_id.
    rewrite delete_id by exact Hnone. apply UpsertFacts.set_nodes_id.
Qed.

Lemma orchestrator_events_upsert_witness :
  Orchestrator.handleMessage (Orchestrator.workload_updated Upsert.still_running)
    (Orchestrator.handleMessage (Orchestrator.workload_completed Upsert.done)
       Stale.orchestrator_online)
  = Orchestrator.handleMessage (Orchestrator.workload_updated Upsert.still_running)
      Stale.orchestrator_online.
Proof.
  apply (proj1 (proj2 orchestrator_events_upsert)
           Orchestrator.workload_completed Orchestrator.workload_updated).
  - unfold Upsert.carriers. do 2 right. left.
  - unfold Upsert.carriers. right. left.
  - reflexivity.
Defined.

(** X16.  [createWorkload].  Starting it only issues the POST.  When the
    server answers with a success status and a workload, that workload
    is stored under its id (no other entry changes), it is what the
    call returns, and [error] is left as it was.  When the answer has
    another status, is not JSON, or the request fails, nothing is
    stored, the message is logged and recorded in [error], and the
    call rejects with it. *)
Theorem createWorkload_stores_the_answer :
  forall o w,
    (exists k,
       start (Orchestrator.createWorkload o) w
       = (Commands.requested "POST" (Upsert.create_url o) w,
          Suspended "POST" (Upsert.create_url o) k))
    /\ (forall status newWorkload,
          let r := settle (Orchestrator.createWorkload o)
                     (Responded (mkResponse true status (Some newWorkload))) w in
          r.2 = Fulfilled newWorkload
          /\ Orchestrator.workloads (Orchestrator.state r.1) !! Workload.id newWorkload
             = Some newWorkload
          /\ (forall k, k <> Workload.id newWorkload ->
                Orchestrator.workloads (Orchestrator.state r.1) !! k
                = Orchestrator.workloads (Orchestrator.state w) !! k)
          /\ Orchestrator.error (Orchestrator.state r.1)
             = Orchestrator.error (Orchestrator.state w)
          /\ Orchestrator.env r.1 = Orchestrator.env w)
    /\ (forall status b,
          settle (Orchestrator.createWorkload o) (Responded (mkResponse false status b)) w
          = (Commands.failed "Create workload error: "
               ("Failed to create workload: " +:+ pretty status) w,
             Rejected ("Failed to create workload: " +:+ pretty status)))
    /\ (forall status,
          settle (Orchestrator.createWorkload o) (Responded (mkResponse true status None)) w
          = (Commands.failed "Create workload error: " "Unexpected token in JSON" w,
             Rejected "Unexpected token in JSON"))
    /\ (forall e,
          settle (Orchestrator.createWorkload o) (NetworkError e) w
          = (Commands.failed "Create workload error: " e w, Rejected e))
    /\ (forall e,
          Orchestrator.workloads
            (Orchestrator.state (Commands.failed "Create workload error: " e w))
          = Orchestrator.workloads (Orchestrator.state w)
          /\ Orchestrator.error
               (Orchestrator.state (Commands.failed "Create workload error: " e w))
             = Some e).
Proof.
  intros o w. split; [by eexists|].
  split; [|repeat split; reflexivity].
  intros status newWorkload r. subst r. cbn.
  rewrite lookup_insert_eq. repeat split.
  intros k Hk. by rewrite lookup_insert_ne.
Qed.

(** X17.  [cancelWorkload] and [retryWorkload] touch one workload.
    Once the REST call has succeeded, the workloads known before are
    the workloads known after, every workload other than the named one
    is as it was, and the named one, if known, keeps its id and its
    creation time and changes status (to ['cancelled'], respectively to
    ['pending'] with progress 0).  If the named workload is not known
    the state does not change at all.  In every case the command is
    written to the socket exactly when the hook holds an open socket;
    otherwise it is dropped without a trace. *)
Theorem commands_touch_one_workload :
  forall o workloadId status b w,
    let cancelled := (settle (Orchestrator.cancelWorkload o workloadId)
                        (Responded (mkResponse true status b)) w).1 in
    let retried := (settle (Orchestrator.retryWorkload o workloadId)
                      (Responded (mkResponse true status b)) w).1 in
    (dom (Orchestrator.workloads (Orchestrator.state cancelled))
     = dom (Orchestrator.workloads (Orchestrator.state w))
     /\ dom (Orchestrator.workloads (Orchestrator.state retried))
        = dom (Orchestrator.workloads (Orchestrator.state w)))
    /\ (forall k, k <> workloadId ->
          Orchestrator.workloads (Orchestrator.state cancelled) !! k
          = Orchestrator.workloads (Orchestrator.state w) !! k
          /\ Orchestrator.workloads (Orchestrator.state retried) !! k
             = Orchestrator.workloads (Orchestrator.state w) !! k)
    /\ (forall workload,
          Orchestrator.workloads (Orchestrator.state w) !! workloadId = Some workload ->
          Orchestrator.workloads (Orchestrator.state cancelled) !! workloadId
          = Some {| Workload.id := Workload.id workload; Workload.status := "cancelled";
                    Workload.progress := Workload.progress workload;
                    Workload.createdAt := Workload.createdAt workload |}
          /\ Orchestrator.workloads (Orchestrator.state retried) !! workloadId
             = Some {| Workload.id := Workload.id workload; Workload.status := "pending";
                       Workload.progress := 0%Q;
                       Workload.createdAt := Workload.createdAt workload |})
    /\ (Orchestrator.workloads (Orchestrator.state w) !! workloadId = None ->
          Orchestrator.state cancelled = Orchestrator.state w
          /\ Orchestrator.state retried = Orchestrator.state w)
    /\ Browser.sends (Browser.trace (Orchestrator.env cancelled))
       = (Browser.sends (Browser.trace (Orchestrator.env w))
          ++ Upsert.command_frames "cancel" workloadId w)%list
    /\ Browser.sends (Browser.trace (Orchestrator.env retried))
       = (Browser.sends (Browser.trace (Orchestrator.env w))
          ++ Upsert.command_frames "retry" workloadId w)%list.
Proof.
  intros o workloadId status b w cancelled retried.
  assert (Hc : cancelled
               = Orchestrator.sendWorkloadCommand "cancel" workloadId
                   (Orchestrator.setState (Commands.cancelled workloadId) w))
    by reflexivity.
  assert (Hr : retried
               = Orchestrator.sendWorkloadCommand "retry" workloadId
                   (Orchestrator.setState (Commands.retried workloadId) w))
    by reflexivity.
  clearbody cancelled retried. subst cancelled retried.
  rewrite !OrchestratorStoreFacts.sendWorkloadCommand_state.
  rewrite !UpsertFacts.sendWorkloadCommand_sends.
  cbn [Orchestrator.state Orchestrator.setState Orchestrator.env Orchestrator.refs].
  unfold Commands.cancelled, Commands.retried.
  destruct (Orchestrator.workloads (Orchestrator.state w) !! workloadId)
    as [workload|] eqn:Hw.
  - cbn [Orchestrator.workloads Orchestrator.set_workloads].
    split; [split; apply dom_insert_lookup_L; by eexists|].
    split; [intros k Hk; by rewrite !lookup_insert_ne|].
    split; [intros ? [= <-]; by rewrite !lookup_insert_eq|].
    split; [discriminate|]. split; reflexivity.
  - split; [by split|]. split; [by split|]. split; [discriminate|].
    split; [by split|]. split; reflexivity.
Qed.

(** * Views of the stores *)

(** ** The peer graph *)

Module GraphFacts.
Import Graph.

Lemma mesh_length peerIds :
  (2 * length (mesh peerIds) = length peerIds * (length peerIds - 1))%nat.
Proof.
  induction peerIds as [|a rest IH]; [reflexivity|].
  simpl mesh. rewrite length_app, length_fmap. simpl length.
  destruct rest as [|b rest']; [reflexivity|]. simpl length in *. nia.
Qed.

Lemma mesh_elem l peerIds :
  l ∈ mesh peerIds <->
  exists l1 l2 l3, peerIds = (l1 ++ source l :: l2 ++ target l :: l3)%list.
Proof.
  induction peerIds as [|a rest IH]; simpl.
  - split; [intros H; by apply elem_of_nil in H|].
    intros (l1 & l2 & l3 & H). by destruct l1.
  - rewrite elem_of_app, list_elem_of_fmap, IH. split.
    + intros [(b & -> & Hb)|(l1 & l2 & l3 & ->)].
      * apply list_elem_of_split in Hb as (l2 & l3 & ->). by exists [], l2, l3.
      * by exists (a :: l1), l2, l3.
    + intros (l1 & l2 & l3 & H). destruct l1 as [|x l1]; simpl in H.
      * injection H as -> ->. left. exists (target l). split; [by destruct l|].
        apply elem_of_app. right. left.
      * injection H as -> ->. right. by exists l1, l2, l3.
Qed.

Lemma mesh_ends l peerIds :
  NoDup peerIds -> l ∈ mesh peerIds ->
  source l <> target l /\ source l ∈ peerIds /\ target l ∈ peerIds.
Proof.
  intros Hnd (l1 & l2 & l3 & ->)%mesh_elem.
  apply NoDup_app in Hnd as (_ & _ & Hnd). apply NoDup_cons in Hnd as [Hs _].
  repeat split.
  - intros Heq. apply Hs. rewrite Heq. apply elem_of_app. right. left.
  - apply elem_of_app. right. left.
  - apply elem_of_app. right. right. apply elem_of_app. right. left.
Qed.

Lemma mesh_NoDup peerIds : NoDup peerIds -> NoDup (mesh peerIds).
Proof.
  induction peerIds as [|a rest IH]; intros Hnd; [constructor|].
  apply NoDup_cons in Hnd as [Ha Hrest]. simpl. apply NoDup_app. repeat split.
  - apply NoDup_fmap_2; [|exact Hrest]. by intros x y [=].
  - intros l (b & -> & Hb)%list_elem_of_fmap Hl.
    destruct (mesh_ends _ _ Hrest Hl) as (_ & Hs & _). by apply Ha.
  - by apply IH.
Qed.

Lemma mesh_joins a b peerIds :
  a ∈ peerIds -> b ∈ peerIds -> a <> b ->
  mkLink a b ∈ mesh peerIds \/ mkLink b a ∈ mesh peerIds.
Proof.
  induction peerIds as [|c rest IH]; intros Ha Hb Hne; [by apply elem_of_nil in Ha|].
  simpl. rewrite !elem_of_app, !list_elem_of_fmap.
  apply elem_of_cons in Ha as [->|Ha]; apply elem_of_cons in Hb as [->|Hb].
  - done.
  - left. left. by exists b.
  - right. left. by exists a.
  - destruct (IH Ha Hb Hne); [left|right]; by right.
Qed.

Lemma mesh_one_way a b peerIds :
  NoDup peerIds -> mkLink a b ∈ mesh peerIds -> mkLink b a ∉ mesh peerIds.
Proof.
  induction peerIds as [|c rest IH]; intros Hnd; [intros H; by apply elem_of_nil in H|].
  apply NoDup_cons in Hnd as [Hc Hrest]. simpl.
  rewrite !elem_of_app, !list_elem_of_fmap.
  intros [(x & [= -> ->] & Hx)|Hab] [(y & [= -> ->] & Hy)|Hba].
  - done.
  - destruct (mesh_ends _ _ Hrest Hba) as (_ & _ & Ht). by apply Hc.
  - destruct (mesh_ends _ _ Hrest Hab) as (_ & _ & Ht). by apply Hc.
  - by apply (IH Hrest Hab).
Qed.

Lemma NoDup_fmap_inj_on {A B} (f : A -> B) (l : list A) x y :
  NoDup (f <$> l) -> x ∈ l -> y ∈ l -> f x = f y -> x = y.
Proof.
  induction l as [|a l IH]; intros Hnd Hx Hy Hf; [by apply elem_of_nil in Hx|].
  simpl in Hnd. apply NoDup_cons in Hnd as [Ha Hl].
  apply elem_of_cons in Hx as [->|Hx]; apply elem_of_cons in Hy as [->|Hy].
  - reflexivity.
  - exfalso. apply Ha. rewrite Hf. by apply list_elem_of_fmap_2.
  - exfalso. apply Ha. rewrite <- Hf. by apply list_elem_of_fmap_2.
  - by apply IH.
Qed.

(** When every entry sits under the id of its value, the ids of the
    nodes are the keys of the map. *)
Lemma node_ids entries localPeerId (m : gmap string NormalizedPeer.t) :
  iteration entries m ->
  map_Forall (fun k p => NormalizedPeer.id p = k) m ->
  id <$> (graphData entries localPeerId).1 = entries.*1.
Proof.
  intros Hit Hk. unfold graphData. simpl.
  rewrite <- !list_fmap_compose. apply Forall_fmap_ext_1, Forall_forall.
  intros [k p] Hin. simpl. apply (Hk k p).
  apply elem_of_map_to_list. by rewrite <- Hit.
Qed.

Lemma keys_NoDup {V} entries (m : gmap string V) : iteration entries m -> NoDup entries.*1.
Proof. intros Hit. unfold iteration in Hit. rewrite Hit. apply NoDup_fst_map_to_list. Qed.

End GraphFacts.

(** X18.  The graph [graphData] hands to the view is well formed, in
    every state the hook can reach and whatever the order in which the
    peer map is iterated: there is one node per peer, no two nodes share
    an id, and the links form the complete mesh over them: [n(n-1)/2]
    links for [n] peers, each joining two different nodes of the graph
    (no link dangles, none is a loop), no link twice, and any two nodes
    joined by exactly one link, in one direction.  At most one node is
    marked local, namely the one whose id is [localPeerId]. *)
Theorem graphData_is_a_complete_mesh :
  forall valid o es entries,
    let s := P2P.state (P2P.run_events o es (P2P.init valid)) in
    Graph.iteration entries (P2P.peers s) ->
    let g := Graph.graphData entries (P2P.localPeerId s) in
    length g.1 = size (P2P.peers s)
    /\ (2 * length g.2 = size (P2P.peers s) * (size (P2P.peers s) - 1))%nat
    /\ NoDup (Graph.id <$> g.1)
    /\ NoDup g.2
    /\ Graph.closed g
    /\ Graph.complete g
    /\ (forall n, n ∈ g.1 ->
          Graph.isLocal n = true <-> P2P.localPeerId s = Some (Graph.id n))
    /\ (forall n n', n ∈ g.1 -> n' ∈ g.1 ->
          Graph.isLocal n = true -> Graph.isLocal n' = true -> n = n').
Proof.
  intros valid o es entries s Hit g.
  pose proof (IdentifiersFacts.peers_keyed valid o es) as Hkeyed. fold s in Hkeyed.
  assert (Hk : map_Forall (fun k p => NormalizedPeer.id p = k) (P2P.peers s)).
  { intros k p Hp. by destruct (Hkeyed k p Hp). }
  pose proof (GraphFacts.node_ids entries (P2P.localPeerId s) _ Hit Hk) as Hids.
  pose proof (GraphFacts.keys_NoDup entries _ Hit) as Hnd.
  fold g in Hids.
  assert (Hlen : length entries = size (P2P.peers s)).
  { unfold Graph.iteration in Hit. rewrite Hit. apply length_map_to_list. }
  assert (Hloc : forall n, n ∈ g.1 ->
            Graph.isLocal n = true <-> P2P.localPeerId s = Some (Graph.id n)).
  { intros n (p & -> & _)%list_elem_of_fmap. simpl.
    rewrite bool_decide_eq_true. split; intros H; by rewrite H. }
  repeat match goal with |- _ /\ _ => split end.
  - subst g. simpl. by rewrite !length_fmap.
  - subst g. simpl. rewrite <- Hlen, <- (length_fmap fst entries).
    apply GraphFacts.mesh_length.
  - by rewrite Hids.
  - by apply GraphFacts.mesh_NoDup.
  - intros l Hl. rewrite Hids. by apply GraphFacts.mesh_ends.
  - intros a b. rewrite Hids. intros Ha Hb Hne.
    destruct (GraphFacts.mesh_joins a b _ Ha Hb Hne) as [H|H]; [left|right];
      (split; [exact H|by apply GraphFacts.mesh_one_way]).
  - exact Hloc.
  - intros n n' Hn Hn' Hl Hl'. apply Hloc in Hl, Hl'; try assumption.
    apply (GraphFacts.NoDup_fmap_inj_on Graph.id g.1); try assumption.
    + by rewrite Hids.
    + rewrite Hl in Hl'. by injection Hl'.
Qed.

Lemma graphData_is_a_complete_mesh_witness :
  let s := P2P.state (P2P.run_events P2P.default_options Reputation.pushed_trusted
                        (P2P.init (fun _ => true))) in
  Graph.closed (Graph.graphData (map_to_list (P2P.peers s)) (P2P.localPeerId s)).
Proof.
  intros s.
  refine (proj1 (proj2 (proj2 (proj2 (proj2
    (graphData_is_a_complete_mesh (fun _ => true) P2P.default_options
       Reputation.pushed_trusted (map_to_list (P2P.peers s)) _)))))).
  unfold Graph.iteration. reflexivity.
Defined.

(** ** Reputation tiers and colours *)

Module TiersFacts.
Import Tiers.

(** The thresholds of a score, as propositions. *)
Ltac thresholds q :=
  destruct (Qle_bool (9 # 10) q) eqn:?; destruct (Qle_bool (7 # 10) q) eqn:?;
  destruct (Qle_bool (1 # 2) q) eqn:?; destruct (Qle_bool (3 # 10) q) eqn:?;
  repeat match goal with
    | H : Qle_bool _ _ = true |- _ => apply Qle_bool_iff in H
    | H : Qle_bool _ _ = false |- _ =>
        apply not_true_iff_false in H; rewrite Qle_bool_iff in H
    end.

Lemma tier_monotone q1 q2 :
  (q1 <= q2)%Q -> (rank (getTierFromScore q1) <= rank (getTierFromScore q2))%nat.
Proof.
  intros Hle. unfold getTierFromScore. thresholds q1; thresholds q2; simpl;
    try lia; exfalso; lra.
Qed.

Lemma tier_bounds q :
  match getTierFromScore q with
  | excellent => (9 # 10 <= q)%Q
  | good => (7 # 10 <= q)%Q /\ (q < 9 # 10)%Q
  | neutral => (1 # 2 <= q)%Q /\ (q < 7 # 10)%Q
  | poor => (3 # 10 <= q)%Q /\ (q < 1 # 2)%Q
  | untrusted => (q < 3 # 10)%Q
  end.
Proof. unfold getTierFromScore. thresholds q; simpl; try split; lra. Qed.

End TiersFacts.

(** X19.  [getNodeColor] bands the scores where [getTierFromScore]
    cuts them.  Both cut at 0.9, 0.7, 0.5 and 0.3, so two nodes of other
    peers whose scores are in the same tier are painted the same
    colour, and, when the five band colours are distinct (as the
    fallback colours are), nodes painted the same colour are in the
    same tier.  The local node is always painted [sporePurple],
    whatever its score.  Tiers grow with the score.  A peer whose
    payload carries no usable reputation, normalized to 0.5, is
    [neutral] and painted [softGray]. *)
Theorem reputation_bands_are_the_tiers :
  (forall colors n1 n2,
     Graph.isLocal n1 = false -> Graph.isLocal n2 = false ->
     Tiers.getTierFromScore (Graph.reputation n1)
     = Tiers.getTierFromScore (Graph.reputation n2) ->
     Tiers.getNodeColor colors n1 = Tiers.getNodeColor colors n2)
  /\ (forall colors n1 n2,
        NoDup (Tiers.bands colors) ->
        Graph.isLocal n1 = false -> Graph.isLocal n2 = false ->
        Tiers.getNodeColor colors n1 = Tiers.getNodeColor colors n2 ->
        Tiers.getTierFromScore (Graph.reputation n1)
        = Tiers.getTierFromScore (Graph.reputation n2))
  /\ NoDup (Tiers.bands Tiers.fallback)
  /\ (forall colors node,
        Graph.isLocal node = true ->
        Tiers.getNodeColor colors node = Tiers.sporePurple colors)
  /\ (forall q1 q2,
        (q1 <= q2)%Q ->
        (Tiers.rank (Tiers.getTierFromScore q1) <= Tiers.rank (Tiers.getTierFromScore q2))%nat)
  /\ (forall q,
        match Tiers.getTierFromScore q with
        | Tiers.excellent => (9 # 10 <= q)%Q
        | Tiers.good => (7 # 10 <= q)%Q /\ (q < 9 # 10)%Q
        | Tiers.neutral => (1 # 2 <= q)%Q /\ (q < 7 # 10)%Q
        | Tiers.poor => (3 # 10 <= q)%Q /\ (q < 1 # 2)%Q
        | Tiers.untrusted => (q < 3 # 10)%Q
        end)
  /\ (forall colors localPeerId peer,
        RawPeer.reputation peer = RawPeer.absent
        \/ RawPeer.reputation peer = RawPeer.object None ->
        let node := Graph.node_of localPeerId (P2P.normalizePeer peer) in
        Tiers.getTierFromScore (Graph.reputation node) = Tiers.neutral
        /\ (Graph.isLocal node = false ->
            Tiers.getNodeColor colors node = Tiers.softGray colors)).
Proof.
  split; [|split; [|split; [|split; [|split; [|split]]]]].
  - intros colors n1 n2 H1 H2. unfold Tiers.getNodeColor, Tiers.getTierFromScore.
    rewrite H1, H2. cbv zeta.
    destruct (Qle_bool (9 # 10) (Graph.reputation n1)),
             (Qle_bool (7 # 10) (Graph.reputation n1)),
             (Qle_bool (1 # 2) (Graph.reputation n1)),
             (Qle_bool (3 # 10) (Graph.reputation n1)),
             (Qle_bool (9 # 10) (Graph.reputation n2)),
             (Qle_bool (7 # 10) (Graph.reputation n2)),
             (Qle_bool (1 # 2) (Graph.reputation n2)),
             (Qle_bool (3 # 10) (Graph.reputation n2));
      intros Ht; first [reflexivity|discriminate Ht].
  - intros colors n1 n2 Hnd H1 H2. unfold Tiers.getNodeColor, Tiers.getTierFromScore.
    rewrite H1, H2. cbv zeta. unfold Tiers.bands in Hnd.
    rewrite !NoDup_cons, !not_elem_of_cons in Hnd.
    destruct (Qle_bool (9 # 10) (Graph.reputation n1)),
             (Qle_bool (7 # 10) (Graph.reputation n1)),
             (Qle_bool (1 # 2) (Graph.reputation n1)),
             (Qle_bool (3 # 10) (Graph.reputation n1)),
             (Qle_bool (9 # 10) (Graph.reputation n2)),
             (Qle_bool (7 # 10) (Graph.reputation n2)),
             (Qle_bool (1 # 2) (Graph.reputation n2)),
             (Qle_bool (3 # 10) (Graph.reputation n2));
      intros Hc; first [reflexivity|exfalso; intuition congruence].
  - unfold Tiers.bands, Tiers.fallback. simpl.
    rewrite !NoDup_cons, !not_elem_of_cons.
    repeat split; try discriminate; try apply NoDup_nil_2; by apply not_elem_of_nil.
  - intros colors node Hl. unfold Tiers.getNodeColor. by rewrite Hl.
  - apply TiersFacts.tier_monotone.
  - apply TiersFacts.tier_bounds.
  - intros colors localPeerId peer Hrep node.
    assert (Hr : Graph.reputation node = (1 # 2)%Q).
    { subst node. unfold Graph.node_of, P2P.normalizePeer. simpl.
      by destruct Hrep as [-> | ->]. }
    split.
    + by rewrite Hr.
    + intros Hl. unfold Tiers.getNodeColor. by rewrite Hl, Hr.
Qed.

(** ** The node inspector *)

Module NodeStatusFacts.
Import NodeStatus.

Lemma count_disjoint {A} (f g : A -> bool) (l : list A) :
  (forall x, f x && g x = false) ->
  (length (List.filter f l) + length (List.filter g l)
   = length (List.filter (fun x => f x || g x) l))%nat.
Proof.
  intros Hd. induction l as [|x l IH]; [reflexivity|].
  simpl. specialize (Hd x). destruct (f x), (g x); simpl in *; try discriminate; lia.
Qed.

Lemma statuses_disjoint n :
  let h := is_healthy n in
  let d := String.eqb (NodeHealth.status n) "degraded" in
  let u := is_unhealthy n in
  let o := String.eqb (NodeHealth.status n) "offline" in
  h && d = false /\ (h || d) && u = false /\ (h || d || u) && o = false.
Proof.
  unfold is_healthy, is_unhealthy. destruct n as [i st]. cbn [NodeHealth.status].
  destruct (String.eqb_spec st "healthy") as [->|]; [by repeat split|].
  destruct (String.eqb_spec st "Ready") as [->|]; [by repeat split|].
  destruct (String.eqb_spec st "degraded") as [->|]; [by repeat split|].
  destruct (String.eqb_spec st "unhealthy") as [->|]; [by repeat split|].
  destruct (String.eqb_spec st "NotReady") as [->|]; [by repeat split|].
  by repeat split.
Qed.

(** The four counters count disjoint groups. *)
Lemma counters_partition all :
  (healthy (stats all) + degraded (stats all) + unhealthy (stats all) + offline (stats all)
   = length (List.filter counted all))%nat.
Proof.
  unfold stats, counted. cbn [healthy degraded unhealthy offline].
  rewrite (count_disjoint is_healthy) by (intros x; apply (statuses_disjoint x)).
  rewrite (count_disjoint (fun x => is_healthy x || _) is_unhealthy)
    by (intros x; apply (statuses_disjoint x)).
  rewrite (count_disjoint (fun x => is_healthy x || _ || is_unhealthy x))
    by (intros x; apply (statuses_disjoint x)).
  reflexivity.
Qed.

Lemma filter_all_length {A} (f : A -> bool) (l : list A) :
  length (List.filter f l) = length l <-> Forall (fun x => f x = true) l.
Proof.
  induction l as [|x l IH]; simpl.
  - split; [constructor|reflexivity].
  - pose proof (List.filter_length_le f l) as Hle. destruct (f x) eqn:Hx; simpl.
    + rewrite Forall_cons. split.
      * intros [= H]. split; [exact Hx|by apply IH].
      * intros [_ H]. f_equal. by apply IH.
    + split; [lia|]. intros H. apply Forall_cons in H as [H _]. congruence.
Qed.

End NodeStatusFacts.

(** X20.  The counters of the node inspector and its filter agree.
    [stats.total] is the number of nodes in the store.  The four
    counters (healthy with Ready, degraded, unhealthy with NotReady,
    offline) count disjoint groups, so their sum never exceeds the
    total, and it equals the total exactly when every node has one of
    those six statuses; a node with any other status is listed but
    counted nowhere.  Filtering by ['healthy'], ['degraded'],
    ['unhealthy'] or ['offline'] lists exactly as many nodes as the
    counter of that name says, ['all'] lists them all, and the listed
    nodes are the nodes of the store that pass the filter.  This holds
    for whatever order the map is iterated in and whatever order the
    sort puts the rows in. *)
Theorem node_counters_match_filters :
  forall (sort : list NodeHealth.t -> list NodeHealth.t),
    (forall l, sort l ≡ₚ l) ->
    forall (nodes : gmap string NodeHealth.t) all,
      all ≡ₚ Store.list_all nodes ->
      let s := NodeStatus.stats all in
      NodeStatus.total s = size nodes
      /\ (NodeStatus.healthy s + NodeStatus.degraded s + NodeStatus.unhealthy s
          + NodeStatus.offline s <= NodeStatus.total s)%nat
      /\ ((NodeStatus.healthy s + NodeStatus.degraded s + NodeStatus.unhealthy s
           + NodeStatus.offline s = NodeStatus.total s)%nat
          <-> map_Forall (fun _ n => NodeStatus.counted n = true) nodes)
      /\ length (NodeStatus.filteredNodes sort "all" all) = NodeStatus.total s
      /\ length (NodeStatus.filteredNodes sort "healthy" all) = NodeStatus.healthy s
      /\ length (NodeStatus.filteredNodes sort "degraded" all) = NodeStatus.degraded s
      /\ length (NodeStatus.filteredNodes sort "unhealthy" all) = NodeStatus.unhealthy s
      /\ length (NodeStatus.filteredNodes sort "offline" all) = NodeStatus.offline s
      /\ (forall filterStatus n,
            n ∈ NodeStatus.filteredNodes sort filterStatus all
            <-> (exists k, nodes !! k = Some n) /\ NodeStatus.shown filterStatus n = true).
Proof.
  intros sort Hsort nodes all Hall s.
  pose proof (NodeStatusFacts.counters_partition all) as Hp. fold s in Hp.
  assert (Hlen : forall f, length (NodeStatus.filteredNodes sort f all)
                           = length (List.filter (NodeStatus.shown f) all)).
  { intros f. unfold NodeStatus.filteredNodes. by rewrite Hsort. }
  assert (Hin : forall n, n ∈ all <-> exists k, nodes !! k = Some n).
  { intros n. rewrite Hall. unfold Store.list_all. rewrite list_elem_of_fmap. split.
    - intros ([k v] & -> & Hkv). exists k. by apply elem_of_map_to_list.
    - intros (k & Hk). exists (k, n). split; [reflexivity|]. by apply elem_of_map_to_list. }
  repeat match goal with |- _ /\ _ => split end.
  - subst s. simpl. rewrite Hall. unfold Store.list_all.
    by rewrite length_fmap, length_map_to_list.
  - rewrite Hp. apply List.filter_length_le.
  - rewrite Hp. change (NodeStatus.total s) with (length all).
    rewrite NodeStatusFacts.filter_all_length, Forall_forall. split.
    + intros H k n Hk. apply H, Hin. by exists k.
    + intros H n (k & Hk)%Hin. by apply (H k).
  - rewrite Hlen. simpl. clear. induction all; simpl; [reflexivity|]. by f_equal.
  - rewrite Hlen. reflexivity.
  - rewrite Hlen. reflexivity.
  - rewrite Hlen. reflexivity.
  - rewrite Hlen. reflexivity.
  - intros f n. unfold NodeStatus.filteredNodes. rewrite Hsort, <- Hin.
    rewrite list_elem_of_In, List.filter_In, <- list_elem_of_In. reflexivity.
Qed.

Lemma node_counters_match_filters_witness :
  let nodes : gmap string NodeHealth.t :=
    list_to_map ((fun n => (NodeHealth.nodeId n, n)) <$> NodeStatus.fleet) in
  NodeStatus.total (NodeStatus.stats (Store.list_all nodes)) = size nodes.
Proof.
  intros nodes.
  exact (proj1 (node_counters_match_filters (fun l => l) (fun l => reflexivity l)
                  nodes (Store.list_all nodes) (reflexivity _))).
Defined.

(** ** The local identity, and what an open sets off *)

(** X21.  The hook's own identity is whatever [/api/info] last said.
    Every answer whose body is a JSON object, whatever its status, sets
    [localPeerId] to the [peer_id] of the body, and erases it when the
    body has none; an answer that does not parse and a failed request
    leave it alone and are only logged.  Nothing else in the state, the refs or the
    browser changes.  The identity decides how the hook presents
    itself: a message sent next is recorded as coming from that
    identity, or from ['unknown'] when there is none, and the node
    [graphData] marks as local is the one with that id. *)
Theorem local_identity_follows_info :
  forall o w,
    (forall okr status info,
       let w1 := P2P.react o (P2P.InfoSettled
                   (Responded (mkResponse okr status (Some info)))) w in
       P2P.state w1 = P2P.set_localPeerId (P2P.info_peer_id info) (P2P.state w)
       /\ P2P.refs w1 = P2P.refs w /\ P2P.env w1 = P2P.env w
       /\ (forall content to ws,
             Hook.wsRef (P2P.refs w) = Some ws ->
             Browser.readyState ws (P2P.env w) = Some Browser.OPEN ->
             exists m : ChatMessage.t,
               last (P2P.messages (P2P.state (P2P.sendChat content to w1))) = Some m
               /\ ChatMessage.content m = content
               /\ ChatMessage.from m
                  = default "unknown" (Js.or_str (P2P.info_peer_id info) None))
       /\ (forall peer,
             Graph.isLocal (Graph.node_of (P2P.localPeerId (P2P.state w1)) peer) = true
             <-> P2P.info_peer_id info = Some (NormalizedPeer.id peer)))
    /\ (forall okr status,
          let w1 := P2P.react o (P2P.InfoSettled
                      (Responded (mkResponse okr status None))) w in
          P2P.state w1 = P2P.state w /\ P2P.refs w1 = P2P.refs w)
    /\ (forall e,
          let w1 := P2P.react o (P2P.InfoSettled (NetworkError e)) w in
          P2P.state w1 = P2P.state w /\ P2P.refs w1 = P2P.refs w
          /\ Browser.trace (P2P.env w1)
             = (Browser.trace (P2P.env w)
                  ++ [Browser.ConsoleError ("Failed to fetch info: " +:+ e)])%list).
Proof.
  intros o w. split; [|split].
  - intros okr status info w1.
    assert (Hw1 : w1 = P2P.setState (P2P.set_localPeerId (P2P.info_peer_id info)) w)
      by reflexivity.
    clearbody w1. subst w1.
    split; [reflexivity|]. split; [reflexivity|]. split; [reflexivity|]. split.
    + intros content to ws Hws Hopen. unfold P2P.sendChat, Hook.ws_readyState.
      cbn [P2P.refs P2P.env P2P.setState]. rewrite Hws, Hopen.
      cbn [P2P.state P2P.setState P2P.setEnv P2P.messages P2P.set_messages
           P2P.localPeerId P2P.set_localPeerId].
      eexists. rewrite last_snoc. split; [reflexivity|]. split; reflexivity.
    + intros peer. simpl. rewrite bool_decide_eq_true. split; intros H; by rewrite H.
  - intros okr status w1. by split.
  - intros e w1. by repeat split.
Qed.

(** X22.  A successful open resynchronises.  When a connecting socket
    opens, [useP2P] asks for [/api/info] and [/api/peers], and
    [useOrchestrator] asks for the workloads, the nodes and the cluster
    metrics and subscribes the socket to its four topics; these are the
    only effects of the open, in this order.  Both hooks are then
    connected with their attempt counter at zero; [useOrchestrator]
    has also cleared [error] and shows itself loading.  The stores are
    not touched until the answers arrive. *)
Theorem open_resynchronises :
  (forall o ws w,
     Browser.readyState ws (P2P.env w) = Some Browser.CONNECTING ->
     let w' := P2P.react o (P2P.Opened ws) w in
     Browser.trace (P2P.env w')
     = (Browser.trace (P2P.env w) ++ Identity.p2p_resync o)%list
     /\ Browser.readyState ws (P2P.env w') = Some Browser.OPEN
     /\ P2P.connected (P2P.state w') = true
     /\ P2PConn.attempts w' = 0%nat
     /\ Hook.isConnectingRef (P2P.refs w') = false
     /\ P2P.peers (P2P.state w') = P2P.peers (P2P.state w)
     /\ P2P.messages (P2P.state w') = P2P.messages (P2P.state w)
     /\ P2P.localPeerId (P2P.state w') = P2P.localPeerId (P2P.state w))
  /\ (forall o ws w,
        Browser.readyState ws (Orchestrator.env w) = Some Browser.CONNECTING ->
        let w' := Orchestrator.react o (Orchestrator.Opened ws) w in
        Browser.trace (Orchestrator.env w')
        = (Browser.trace (Orchestrator.env w) ++ Identity.orchestrator_resync o ws)%list
        /\ Browser.readyState ws (Orchestrator.env w') = Some Browser.OPEN
        /\ Orchestrator.connected (Orchestrator.state w') = true
        /\ Orchestrator.loading (Orchestrator.state w') = true
        /\ Orchestrator.error (Orchestrator.state w') = None
        /\ OrchestratorConn.attempts w' = 0%nat
        /\ Hook.isConnectingRef (Orchestrator.refs w') = false
        /\ Lifecycle.stores w' = Lifecycle.stores w).
Proof.
  split; intros o ws w Hc w'; subst w'.
  - simpl P2P.react. rewrite decide_True by exact Hc.
    unfold P2P.ws_onopen, Browser.readyState. simpl.
    rewrite lookup_insert_eq, <- !app_assoc. by repeat split.
  - simpl Orchestrator.react. rewrite decide_True by exact Hc.
    unfold Orchestrator.ws_onopen, Orchestrator.fetchOrchestratorData_start,
      Browser.readyState. simpl.
    rewrite lookup_insert_eq, <- !app_assoc. by repeat split.
Qed.

Lemma open_resynchronises_witness :
  let w := P2P.connect P2P.default_options (P2P.init (fun _ => true)) in
  Browser.trace (P2P.env (P2P.react P2P.default_options (P2P.Opened 0) w))
  = (Browser.trace (P2P.env w) ++ Identity.p2p_resync P2P.default_options)%list.
Proof.
  intros w.
  exact (proj1 (proj1 open_resynchronises P2P.default_options 0%nat w eq_refl)).
Defined.
